(** * vtkPlusV4L2VideoSource: the V4L2 capture device of PlusLib

    A shallow embedding of
    [src/PlusDataCollection/V4L2/vtkPlusV4L2VideoSource.cxx]: the device
    session (connect, disconnect, start and stop of streaming), the three
    buffer set-ups (read, mmap, user pointer), the update cycle and
    [PrintSelf].

    The class talks to the kernel through system calls.  The embedding keeps
    the member functions as they are written and replaces the kernel by a
    script: the list of the answers the kernel gives, in the order in which
    the calls are made.  A member function is a function of the object, of
    the script and of [errno]; it returns its C++ result, the updated object,
    what is left of the script, and the list of the calls it made. *)

From Stdlib Require Import ZArith List String Bool Lia.
From stdpp Require Import base list strings pretty.
Import ListNotations.

Local Open Scope Z_scope.

(** ** Constants of the system headers

    [errno.h], [sys/mman.h], [sys/stat.h] and [linux/videodev2.h] are not part
    of the repository; the values are those of Linux. *)

Definition EINTR : Z := 4.
Definition EIO : Z := 5.
Definition EAGAIN : Z := 11.
Definition ENOMEM : Z := 12.
Definition EINVAL : Z := 22.

(* <limits.h>, where [unsigned long] has 64 bits (Linux on a 64-bit
   machine); where it has 32 the bound is lower and the wrap-around the
   same *)
Definition ULONG_MAX : N := 18446744073709551615.

(** The value an [unsigned long] holds after it has been assigned [n]. *)
Definition unsigned_long (n : N) : N := (n mod (ULONG_MAX + 1))%N.
Global Arguments unsigned_long : simpl never.

Definition NULL : Z := 0.
Definition MAP_FAILED : Z := -1.

(* 0170000 and 0020000 *)
Definition S_IFMT : Z := 0xF000.
Definition S_IFCHR : Z := 0x2000.
Definition S_ISCHR (st_mode : Z) : bool := Z.land st_mode S_IFMT =? S_IFCHR.

Definition V4L2_CAP_VIDEO_CAPTURE : Z := 0x00000001.
Definition V4L2_CAP_READWRITE : Z := 0x01000000.
Definition V4L2_CAP_STREAMING : Z := 0x04000000.

Definition V4L2_BUF_TYPE_VIDEO_CAPTURE : Z := 1.
Definition V4L2_MEMORY_MMAP : Z := 1.
Definition V4L2_MEMORY_USERPTR : Z := 2.
Definition V4L2_FIELD_INTERLACED : Z := 4.
(* v4l2_fourcc('Y', 'U', 'Y', 'V') *)
Definition V4L2_PIX_FMT_YUYV : Z := 0x56595559.

(** ** Data of the kernel interface

    The structures of [linux/videodev2.h], with the fields the driver and the
    class exchange.  Counts and indices are [nat], everything else is [Z]. *)

Record v4l2_capability := { capabilities : Z }.

Record v4l2_rect := { left : Z; top : Z; rect_width : Z; rect_height : Z }.

Record v4l2_cropcap := { cropcap_type : Z; defrect : v4l2_rect }.

Record v4l2_crop := { crop_type : Z; c : v4l2_rect }.

Record v4l2_pix_format := {
  width : Z;
  height : Z;
  pixelformat : Z;
  field : Z;
  bytesperline : Z;
  sizeimage : Z
}.

Record v4l2_format := { fmt_type : Z; pix : v4l2_pix_format }.

Record v4l2_requestbuffers := { count : nat; req_type : Z; req_memory : Z }.

(** [m] is the union of [offset] and [userptr]. *)
Record v4l2_buffer := {
  index : nat;
  buf_type : Z;
  bytesused : Z;
  buf_memory : Z;
  m : Z;
  buf_length : Z
}.

Record v4l2_fmtdesc := {
  fmtdesc_index : nat;
  fmtdesc_type : Z;
  description : string
}.

(** [CLEAR(x)] of each structure. *)
Definition CLEAR_rect : v4l2_rect :=
  {| left := 0; top := 0; rect_width := 0; rect_height := 0 |}.
Definition CLEAR_capability : v4l2_capability := {| capabilities := 0 |}.
Definition CLEAR_cropcap : v4l2_cropcap :=
  {| cropcap_type := 0; defrect := CLEAR_rect |}.
Definition CLEAR_crop : v4l2_crop := {| crop_type := 0; c := CLEAR_rect |}.
Definition CLEAR_pix : v4l2_pix_format :=
  {| width := 0; height := 0; pixelformat := 0; field := 0;
     bytesperline := 0; sizeimage := 0 |}.
Definition CLEAR_format : v4l2_format := {| fmt_type := 0; pix := CLEAR_pix |}.
Definition CLEAR_requestbuffers : v4l2_requestbuffers :=
  {| count := 0; req_type := 0; req_memory := 0 |}.
Definition CLEAR_buffer : v4l2_buffer :=
  {| index := 0; buf_type := 0; bytesused := 0; buf_memory := 0; m := 0;
     buf_length := 0 |}.
Definition CLEAR_fmtdesc : v4l2_fmtdesc :=
  {| fmtdesc_index := 0; fmtdesc_type := 0; description := EmptyString |}.

(** The requests the class issues. *)
Inductive request :=
| VIDIOC_QUERYCAP | VIDIOC_CROPCAP | VIDIOC_S_CROP
| VIDIOC_G_FMT | VIDIOC_S_FMT
| VIDIOC_REQBUFS | VIDIOC_QUERYBUF | VIDIOC_QBUF | VIDIOC_DQBUF
| VIDIOC_STREAMON | VIDIOC_STREAMOFF
| VIDIOC_ENUM_FMT.

(** What the [void *arg] of a request points to. *)
Definition arg_of (req : request) : Type :=
  match req with
  | VIDIOC_QUERYCAP => v4l2_capability
  | VIDIOC_CROPCAP => v4l2_cropcap
  | VIDIOC_S_CROP => v4l2_crop
  | VIDIOC_G_FMT | VIDIOC_S_FMT => v4l2_format
  | VIDIOC_REQBUFS => v4l2_requestbuffers
  | VIDIOC_QUERYBUF | VIDIOC_QBUF | VIDIOC_DQBUF => v4l2_buffer
  | VIDIOC_STREAMON | VIDIOC_STREAMOFF => Z
  | VIDIOC_ENUM_FMT => v4l2_fmtdesc
  end.

(** A structure handed to the kernel or written by it, whatever its type. *)
Inductive argument :=
| a_stat (st_mode : Z)
| a_capability (x : v4l2_capability)
| a_cropcap (x : v4l2_cropcap)
| a_crop (x : v4l2_crop)
| a_format (x : v4l2_format)
| a_requestbuffers (x : v4l2_requestbuffers)
| a_buffer (x : v4l2_buffer)
| a_buf_type (x : Z)
| a_fmtdesc (x : v4l2_fmtdesc).

Definition pack (req : request) : arg_of req -> argument :=
  match req return arg_of req -> argument with
  | VIDIOC_QUERYCAP => a_capability
  | VIDIOC_CROPCAP => a_cropcap
  | VIDIOC_S_CROP => a_crop
  | VIDIOC_G_FMT | VIDIOC_S_FMT => a_format
  | VIDIOC_REQBUFS => a_requestbuffers
  | VIDIOC_QUERYBUF | VIDIOC_QBUF | VIDIOC_DQBUF => a_buffer
  | VIDIOC_STREAMON | VIDIOC_STREAMOFF => a_buf_type
  | VIDIOC_ENUM_FMT => a_fmtdesc
  end.

Definition unpack (req : request) (d : argument) : option (arg_of req) :=
  match req return option (arg_of req) with
  | VIDIOC_QUERYCAP => match d with a_capability x => Some x | _ => None end
  | VIDIOC_CROPCAP => match d with a_cropcap x => Some x | _ => None end
  | VIDIOC_S_CROP => match d with a_crop x => Some x | _ => None end
  | VIDIOC_G_FMT | VIDIOC_S_FMT =>
      match d with a_format x => Some x | _ => None end
  | VIDIOC_REQBUFS =>
      match d with a_requestbuffers x => Some x | _ => None end
  | VIDIOC_QUERYBUF | VIDIOC_QBUF | VIDIOC_DQBUF =>
      match d with a_buffer x => Some x | _ => None end
  | VIDIOC_STREAMON | VIDIOC_STREAMOFF =>
      match d with a_buf_type x => Some x | _ => None end
  | VIDIOC_ENUM_FMT => match d with a_fmtdesc x => Some x | _ => None end
  end.

(** ** The kernel as a script

    One answer of the kernel to one call: the value the call returns, the
    value [errno] takes when that value is -1, and what the kernel wrote
    through the pointer the call was given, if anything. *)
Record answer := { ret : Z; err : Z; data : option argument }.

Inductive call :=
| c_stat (path : string)
| c_open (path : string)
| c_close (fd : Z)
| c_ioctl (fd : Z) (req : request) (arg : argument)
| c_calloc (nmemb : nat)
| c_malloc (size : Z)
| c_mmap (len : Z) (fd : Z) (offset : Z)
| c_munmap (addr : Z) (len : Z)
| c_select (fd : Z) (tv_sec : Z)
| c_read (fd : Z) (buf : Z) (nbytes : Z).

(** What a member function does to the outside, in order.  [Sys] is a system
    call with the answer it got; [Free] is [free], which answers nothing;
    [Log] is [LOG_ERROR] with the [errno] it prints, if it prints one.
    [AddItem] is the call by which a Plus device hands a frame to the data
    source of its output channel ([vtkPlusDataSource::AddItem]: the bytes,
    the frame size, the pixel encoding and the frame number).  [Out] is a
    line written to the stream [PrintSelf] is given. *)
Inductive event :=
| Sys (cl : call) (a : answer)
| Free (ptr : Z)
| Log (what : string) (code : option Z)
| AddItem (bytes : Z) (w h : Z) (encoding : Z) (frameNumber : N)
| Out (line : string).

Record World := { script : list answer; errno : Z }.

(** ** The object *)

(* PlusCommon.h *)
Inductive PlusStatus := PLUS_FAIL | PLUS_SUCCESS.

(** The .cxx file also names [IO_METHOD_UNKNOWN], the result of
    [StringToIOMethod] on a string that names no method. *)
Inductive V4L2_IO_METHOD :=
| IO_METHOD_READ | IO_METHOD_MMAP | IO_METHOD_USERPTR | IO_METHOD_UNKNOWN.

Module FrameBuffer.
Record t := { start : Z; length : Z }.
End FrameBuffer.

(** The members of the class.  [Frames] is the pointer [calloc] returned and
    [FramesMem] the array it points to.  [FrameNumber] is a member of the base
    class [vtkPlusDevice], an [unsigned long]. *)
Record vtkPlusV4L2VideoSource := {
  DeviceName : string;
  IOMethod : V4L2_IO_METHOD;
  FileDescriptor : Z;
  Frames : Z;
  FramesMem : list FrameBuffer.t;
  BufferCount : nat;
  RequestedFormat : v4l2_format;
  ForceFormat : bool;
  FrameNumber : N
}.

Definition set_FileDescriptor (v : Z) (o : vtkPlusV4L2VideoSource) :=
  {| DeviceName := DeviceName o; IOMethod := IOMethod o; FileDescriptor := v;
     Frames := Frames o; FramesMem := FramesMem o;
     BufferCount := BufferCount o; RequestedFormat := RequestedFormat o;
     ForceFormat := ForceFormat o; FrameNumber := FrameNumber o |}.

Definition set_Frames (v : Z) (mem : list FrameBuffer.t)
    (o : vtkPlusV4L2VideoSource) :=
  {| DeviceName := DeviceName o; IOMethod := IOMethod o;
     FileDescriptor := FileDescriptor o;
     Frames := v; FramesMem := mem;
     BufferCount := BufferCount o; RequestedFormat := RequestedFormat o;
     ForceFormat := ForceFormat o; FrameNumber := FrameNumber o |}.

Definition set_FramesMem (mem : list FrameBuffer.t)
    (o : vtkPlusV4L2VideoSource) :=
  set_Frames (Frames o) mem o.

Definition set_BufferCount (v : nat) (o : vtkPlusV4L2VideoSource) :=
  {| DeviceName := DeviceName o; IOMethod := IOMethod o;
     FileDescriptor := FileDescriptor o;
     Frames := Frames o; FramesMem := FramesMem o;
     BufferCount := v; RequestedFormat := RequestedFormat o;
     ForceFormat := ForceFormat o; FrameNumber := FrameNumber o |}.

Definition set_RequestedFormat (v : v4l2_format)
    (o : vtkPlusV4L2VideoSource) :=
  {| DeviceName := DeviceName o; IOMethod := IOMethod o;
     FileDescriptor := FileDescriptor o;
     Frames := Frames o; FramesMem := FramesMem o;
     BufferCount := BufferCount o; RequestedFormat := v;
     ForceFormat := ForceFormat o; FrameNumber := FrameNumber o |}.

Definition set_FrameNumber (v : N) (o : vtkPlusV4L2VideoSource) :=
  {| DeviceName := DeviceName o; IOMethod := IOMethod o;
     FileDescriptor := FileDescriptor o;
     Frames := Frames o; FramesMem := FramesMem o;
     BufferCount := BufferCount o; RequestedFormat := RequestedFormat o;
     ForceFormat := ForceFormat o; FrameNumber := v |}.

(** ** The monad of member functions

    [None] is a run that has no result: the kernel stopped answering (the
    script is used up), or the code read an array outside its bounds. *)
Definition M (A : Type) : Type :=
  vtkPlusV4L2VideoSource -> World ->
  option (A * vtkPlusV4L2VideoSource * World * list event).

Definition mret {A} (a : A) : M A := fun this w => Some (a, this, w, []).

Definition mbind' {A B} (x : M A) (f : A -> M B) : M B :=
  fun this w =>
    match x this w with
    | None => None
    | Some (a, this1, w1, tr1) =>
        match f a this1 w1 with
        | None => None
        | Some (b, this2, w2, tr2) => Some (b, this2, w2, tr1 ++ tr2)
        end
    end.

Declare Scope m_scope.
Delimit Scope m_scope with M.
Notation "x <- e ;; k" := (mbind' e (fun x => k))
  (at level 100, e at next level, right associativity) : m_scope.
Notation "e ;; k" := (mbind' e (fun _ => k))
  (at level 100, right associativity) : m_scope.
Local Open Scope m_scope.

Definition gets {A} (f : vtkPlusV4L2VideoSource -> A) : M A :=
  fun this w => Some (f this, this, w, []).

Definition modify (f : vtkPlusV4L2VideoSource -> vtkPlusV4L2VideoSource)
    : M unit :=
  fun this w => Some (tt, f this, w, []).

Definition get_errno : M Z := fun this w => Some (errno w, this, w, []).

Definition emit (e : event) : M unit := fun this w => Some (tt, this, w, [e]).

Definition undefined {A} : M A := fun _ _ => None.

(** [errno] after a call that got the answer [a]. *)
Definition errno_after (a : answer) (errno : Z) : Z :=
  if ret a =? -1 then err a else errno.

(** A system call: the kernel's next answer. *)
Definition syscall (cl : call) : M answer :=
  fun this w =>
    match script w with
    | [] => None
    | a :: rest =>
        Some (a, this,
              {| script := rest; errno := errno_after a (errno w) |},
              [Sys cl a])
    end.

Definition LOG_ERROR (what : string) (code : option Z) : M unit :=
  emit (Log what code).

Definition free (ptr : Z) : M unit := emit (Free ptr).

(** [this->Frames[i]]. *)
Definition Frames_at (i : nat) : M FrameBuffer.t :=
  mem <- gets FramesMem ;;
  match mem !! i with
  | Some fb => mret fb
  | None => undefined
  end.

(** ** [xioctl]

    [ioctl] writes through [arg] when it succeeds and leaves the structure
    as it was when it fails; an answer that carries no structure of the type
    the request takes writes nothing. *)
Definition written (req : request) (arg : arg_of req) (a : answer)
    : arg_of req :=
  if ret a =? -1 then arg
  else match data a with
       | Some d => match unpack req d with Some x => x | None => arg end
       | None => arg
       end.

(** The loop [do r = ioctl(fh, request, arg); while (-1 == r && EINTR == errno)]
    over the answers of the kernel. *)
Fixpoint xioctl_loop (answers : list answer) (errno : Z) (fh : Z)
    (req : request) (arg : arg_of req)
    : option (Z * arg_of req * World * list event) :=
  match answers with
  | [] => None
  | a :: rest =>
      let r := ret a in
      let errno' := errno_after a errno in
      let arg' := written req arg a in
      let e := Sys (c_ioctl fh req (pack req arg)) a in
      if (-1 =? r) && (EINTR =? errno') then
        match xioctl_loop rest errno' fh req arg' with
        | Some (r', arg'', w, tr) => Some (r', arg'', w, e :: tr)
        | None => None
        end
      else Some (r, arg', {| script := rest; errno := errno' |}, [e])
  end.

Definition xioctl (fh : Z) (req : request) (arg : arg_of req)
    : M (Z * arg_of req) :=
  fun this w =>
    match xioctl_loop (script w) (errno w) fh req arg with
    | Some (r, arg', w', tr) => Some ((r, arg'), this, w', tr)
    | None => None
    end.

(** ** The system calls of the class *)

Definition stat (path : string) : M (Z * Z) :=
  a <- syscall (c_stat path) ;;
  mret (ret a,
        match data a with Some (a_stat st_mode) => st_mode | _ => 0 end).

Definition open (path : string) : M Z :=
  a <- syscall (c_open path) ;; mret (ret a).

Definition close (fd : Z) : M Z :=
  a <- syscall (c_close fd) ;; mret (ret a).

Definition malloc (size : Z) : M Z :=
  a <- syscall (c_malloc size) ;; mret (ret a).

Definition mmap (len : Z) (fd : Z) (offset : Z) : M Z :=
  a <- syscall (c_mmap len fd offset) ;; mret (ret a).

Definition munmap (addr : Z) (len : Z) : M Z :=
  a <- syscall (c_munmap addr len) ;; mret (ret a).

Definition select (fd : Z) (tv_sec : Z) : M Z :=
  a <- syscall (c_select fd tv_sec) ;; mret (ret a).

Definition read (fd : Z) (buf : Z) (nbytes : Z) : M Z :=
  a <- syscall (c_read fd buf nbytes) ;; mret (ret a).

Definition zero_FrameBuffer : FrameBuffer.t :=
  {| FrameBuffer.start := NULL; FrameBuffer.length := 0 |}.

(** [this->Frames = calloc(nmemb, sizeof(FrameBuffer))]: the
    array is zeroed; a null pointer has no array. *)
Definition Frames_calloc (nmemb : nat) : M Z :=
  a <- syscall (c_calloc nmemb) ;;
  modify (set_Frames (ret a)
            (if ret a =? NULL then [] else replicate nmemb zero_FrameBuffer)) ;;
  mret (ret a).

(** [this->Frames[i].length = v] and [this->Frames[i].start = v]. *)
Definition Frames_set_length (i : nat) (v : Z) : M unit :=
  fb <- Frames_at i ;;
  modify (fun o =>
    set_FramesMem
      (<[i := {| FrameBuffer.start := FrameBuffer.start fb;
                 FrameBuffer.length := v |}]> (FramesMem o)) o).

Definition Frames_set_start (i : nat) (v : Z) : M unit :=
  fb <- Frames_at i ;;
  modify (fun o =>
    set_FramesMem
      (<[i := {| FrameBuffer.start := v;
                 FrameBuffer.length := FrameBuffer.length fb |}]>
         (FramesMem o)) o).

(** ** Buffer set-up *)

Definition InitRead (bufferSize : Z) : M PlusStatus :=
  p <- Frames_calloc 1 ;;
  if p =? NULL then
    LOG_ERROR "Unable to allocate bytes for capture frame." None ;;
    mret PLUS_FAIL
  else
    Frames_set_length 0 bufferSize ;;
    q <- malloc bufferSize ;;
    Frames_set_start 0 q ;;
    if q =? NULL then
      LOG_ERROR "Unable to allocate bytes for capture frame." None ;;
      mret PLUS_FAIL
    else mret PLUS_SUCCESS.

(** The body of [for (this->BufferCount = 0; this->BufferCount < req.count;
    ++this->BufferCount)], for the [remaining] indices below [req.count].
    The result is [PLUS_FAIL] when the body has returned [PLUS_FAIL] and
    [PLUS_SUCCESS] when the loop has run to its end. *)
Fixpoint InitMmap_for (remaining : nat) : M PlusStatus :=
  match remaining with
  | O => mret PLUS_SUCCESS
  | S remaining' =>
      i <- gets BufferCount ;;
      fd <- gets FileDescriptor ;;
      p <- xioctl fd VIDIOC_QUERYBUF
             {| index := i; buf_type := V4L2_BUF_TYPE_VIDEO_CAPTURE;
                bytesused := 0; buf_memory := V4L2_MEMORY_MMAP; m := 0;
                buf_length := 0 |} ;;
      let '(r, buf) := p in
      if -1 =? r then
        e <- get_errno ;;
        LOG_ERROR "VIDIOC_QUERYBUF" (Some e) ;;
        mret PLUS_FAIL
      else
        Frames_set_length i (buf_length buf) ;;
        q <- mmap (buf_length buf) fd (m buf) ;;
        Frames_set_start i q ;;
        (if MAP_FAILED =? q then
           e <- get_errno ;; LOG_ERROR "mmap" (Some e)
         else mret tt) ;;
        modify (set_BufferCount (S i)) ;;
        InitMmap_for remaining'
  end.

Definition InitMmap : M PlusStatus :=
  fd <- gets FileDescriptor ;;
  p <- xioctl fd VIDIOC_REQBUFS
         {| count := 4; req_type := V4L2_BUF_TYPE_VIDEO_CAPTURE;
            req_memory := V4L2_MEMORY_MMAP |} ;;
  let '(r, req) := p in
  if -1 =? r then
    e <- get_errno ;;
    (if EINVAL =? e then LOG_ERROR "does not support memory mapping" None
     else LOG_ERROR "VIDIOC_REQBUFS" (Some e)) ;;
    mret PLUS_FAIL
  else if (count req <? 2)%nat then
    LOG_ERROR "Insufficient buffer memory" None ;;
    mret PLUS_FAIL
  else
    f <- Frames_calloc (count req) ;;
    if f =? NULL then
      LOG_ERROR "Out of memory" None ;;
      mret PLUS_FAIL
    else
      modify (set_BufferCount 0) ;;
      InitMmap_for (count req).

(** The body of [for (this->BufferCount = 0; this->BufferCount < 4;
    ++this->BufferCount)]. *)
Fixpoint InitUserp_for (remaining : nat) (bufferSize : Z) : M PlusStatus :=
  match remaining with
  | O => mret PLUS_SUCCESS
  | S remaining' =>
      i <- gets BufferCount ;;
      Frames_set_length i bufferSize ;;
      q <- malloc bufferSize ;;
      Frames_set_start i q ;;
      if q =? NULL then
        LOG_ERROR "Out of memory" None ;;
        mret PLUS_FAIL
      else
        modify (set_BufferCount (S i)) ;;
        InitUserp_for remaining' bufferSize
  end.

Definition InitUserp (bufferSize : Z) : M PlusStatus :=
  fd <- gets FileDescriptor ;;
  p <- xioctl fd VIDIOC_REQBUFS
         {| count := 4; req_type := V4L2_BUF_TYPE_VIDEO_CAPTURE;
            req_memory := V4L2_MEMORY_USERPTR |} ;;
  let '(r, req) := p in
  if -1 =? r then
    e <- get_errno ;;
    (if EINVAL =? e then LOG_ERROR "does not support user pointer i/o" None
     else LOG_ERROR "VIDIOC_REQBUFS" (Some e)) ;;
    mret PLUS_FAIL
  else
    f <- Frames_calloc 4 ;;
    if f =? NULL then
      LOG_ERROR "Out of memory" None ;;
      mret PLUS_FAIL
    else
      modify (set_BufferCount 0) ;;
      InitUserp_for 4 bufferSize.

(** ** Connect and disconnect *)

(** [!(cap.capabilities & FLAG)]. *)
Definition lacks (caps flag : Z) : bool := Z.land caps flag =? 0.

(** The four assignments to [this->RequestedFormat->fmt.pix] between
    [VIDIOC_G_FMT] and [VIDIOC_S_FMT]. *)
Definition hard_coded (fmt : v4l2_format) : v4l2_format :=
  {| fmt_type := fmt_type fmt;
     pix := {| width := 640; height := 480;
               pixelformat := V4L2_PIX_FMT_YUYV;
               field := V4L2_FIELD_INTERLACED;
               bytesperline := bytesperline (pix fmt);
               sizeimage := sizeimage (pix fmt) |} |}.

(** [InternalConnect] from [VIDIOC_G_FMT] on.  The width, height, pixel
    format and field order are assigned after the query (in the source under
    the comment "TODO: set from configuration") and sent with
    [VIDIOC_S_FMT]; [ForceFormat] is not read. *)
Definition InternalConnect_format : M PlusStatus :=
  fd <- gets FileDescriptor ;;
  fmt <- gets RequestedFormat ;;
  p <- xioctl fd VIDIOC_G_FMT fmt ;;
  modify (set_RequestedFormat (snd p)) ;;
  if -1 =? fst p then
    e <- get_errno ;;
    LOG_ERROR "VIDIOC_G_FMT" (Some e) ;;
    mret PLUS_FAIL
  else
    modify (fun o => set_RequestedFormat (hard_coded (RequestedFormat o)) o) ;;
    fmt <- gets RequestedFormat ;;
    p <- xioctl fd VIDIOC_S_FMT fmt ;;
    modify (set_RequestedFormat (snd p)) ;;
    if -1 =? fst p then
      e <- get_errno ;;
      LOG_ERROR "VIDIOC_S_FMT" (Some e) ;;
      mret PLUS_FAIL
    else
      method <- gets IOMethod ;;
      size <- gets (fun o => sizeimage (pix (RequestedFormat o))) ;;
      match method with
      | IO_METHOD_READ => InitRead size
      | IO_METHOD_MMAP => InitMmap
      | IO_METHOD_USERPTR => InitUserp size
      | IO_METHOD_UNKNOWN => mret PLUS_FAIL
      end.

(** The cropping rectangle: set to the default one when the device reports
    it; no outcome is an error of [InternalConnect]. *)
Definition InternalConnect_crop : M unit :=
  fd <- gets FileDescriptor ;;
  p <- xioctl fd VIDIOC_CROPCAP
         {| cropcap_type := V4L2_BUF_TYPE_VIDEO_CAPTURE;
            defrect := CLEAR_rect |} ;;
  if 0 =? fst p then
    q <- xioctl fd VIDIOC_S_CROP
           {| crop_type := V4L2_BUF_TYPE_VIDEO_CAPTURE;
              c := defrect (snd p) |} ;;
    mret tt
  else mret tt.

(** ** [PrintSelf] *)

Definition IOMethodToString (ioMethod : V4L2_IO_METHOD) : string :=
  match ioMethod with
  | IO_METHOD_READ => "IO_METHOD_READ"
  | IO_METHOD_MMAP => "IO_METHOD_MMAP"
  | IO_METHOD_USERPTR => "IO_METHOD_USERPTR"
  | _ => "IO_METHOD_UNKNOWN"
  end.

(** The loop [while (ioctl(fd, VIDIOC_ENUM_FMT, &fmtdesc) == 0)
    { os << indent << fmtdesc.description << std::endl; fmtdesc.index++; }]
    over the answers of the kernel.  [ioctl] is called directly, not
    through [xioctl]. *)
Fixpoint PrintSelf_while (answers : list answer) (errno : Z) (fd : Z)
    (indent : string) (fmtdesc : v4l2_fmtdesc)
    : option (World * list event) :=
  match answers with
  | [] => None
  | a :: rest =>
      let errno' := errno_after a errno in
      let fmtdesc' := written VIDIOC_ENUM_FMT fmtdesc a in
      let e := Sys (c_ioctl fd VIDIOC_ENUM_FMT (a_fmtdesc fmtdesc)) a in
      if ret a =? 0 then
        match PrintSelf_while rest errno' fd indent
                {| fmtdesc_index := S (fmtdesc_index fmtdesc');
                   fmtdesc_type := fmtdesc_type fmtdesc';
                   description := description fmtdesc' |} with
        | Some (w, tr) =>
            Some (w, e :: Out (indent ++ description fmtdesc') :: tr)
        | None => None
        end
      else Some ({| script := rest; errno := errno' |}, [e])
  end.

(** [PrintSelf(os, indent)]: one [Out] for each line written to [os].  What
    [Superclass::PrintSelf] writes first is not part of these sources and
    is left out. *)
Definition PrintSelf (indent : string) : M unit :=
  name <- gets DeviceName ;;
  emit (Out (indent ++ "DeviceName: " ++ name)) ;;
  method <- gets IOMethod ;;
  emit (Out (indent ++ "IOMethod: " ++ IOMethodToString method)) ;;
  n <- gets BufferCount ;;
  emit (Out (indent ++ "BufferCount: " ++ pretty n)) ;;
  fd <- gets FileDescriptor ;;
  if negb (fd =? -1) then
    emit (Out (indent ++ "Available formats: ")) ;;
    fun this w =>
      match PrintSelf_while (script w) (errno w) fd indent
              {| fmtdesc_index := fmtdesc_index CLEAR_fmtdesc;
                 fmtdesc_type := V4L2_BUF_TYPE_VIDEO_CAPTURE;
                 description := description CLEAR_fmtdesc |} with
      | Some (w', tr) => Some (tt, this, w', tr)
      | None => None
      end
  else
    emit (Out (indent
               ++ "Cannot enumerate known formats. Camera not connected.")).

(** [InternalConnect], in a build with [_DEBUG] defined or not: under
    [#if defined(_DEBUG)] it calls [PrintSelf(std::cout, vtkIndent())].
    [st] and [cap] are not initialised in the source; they are read only
    after the kernel has written them. *)
Definition InternalConnect_built (_DEBUG : bool) : M PlusStatus :=
  name <- gets DeviceName ;;
  st <- stat name ;;
  if -1 =? fst st then
    e <- get_errno ;;
    LOG_ERROR "Cannot identify" (Some e) ;;
    mret PLUS_FAIL
  else if negb (S_ISCHR (snd st)) then
    LOG_ERROR "is not a valid device." None ;;
    mret PLUS_FAIL
  else
    fd <- open name ;;
    modify (set_FileDescriptor fd) ;;
    if -1 =? fd then
      e <- get_errno ;;
      LOG_ERROR "Cannot open" (Some e) ;;
      mret PLUS_FAIL
    else
      p <- xioctl fd VIDIOC_QUERYCAP CLEAR_capability ;;
      let '(r, cap) := p in
      if -1 =? r then
        e <- get_errno ;;
        (if EINVAL =? e then LOG_ERROR "is not a V4L2 device" None
         else LOG_ERROR "VIDIOC_QUERYCAP" (Some e)) ;;
        mret PLUS_FAIL
      else if lacks (capabilities cap) V4L2_CAP_VIDEO_CAPTURE then
        LOG_ERROR "is not a video capture device" None ;;
        mret PLUS_FAIL
      else
        (if _DEBUG then PrintSelf EmptyString else mret tt) ;;
        method <- gets IOMethod ;;
        if match method with
           | IO_METHOD_READ => lacks (capabilities cap) V4L2_CAP_READWRITE
           | IO_METHOD_MMAP | IO_METHOD_USERPTR =>
               lacks (capabilities cap) V4L2_CAP_STREAMING
           | IO_METHOD_UNKNOWN => false
           end
        then
          LOG_ERROR
            match method with
            | IO_METHOD_READ => "does not support read i/o"
            | _ => "does not support streaming i/o"
            end None ;;
          mret PLUS_FAIL
        else
          InternalConnect_crop ;;
          InternalConnect_format.

(** The build without [_DEBUG]. *)
Definition InternalConnect : M PlusStatus := InternalConnect_built false.

(** [for (i = 0; i < this->BufferCount; ++i)] of the [IO_METHOD_MMAP] case
    of [InternalDisconnect], from index [i] on. *)
Fixpoint munmap_for (remaining : nat) (i : nat) : M PlusStatus :=
  match remaining with
  | O => mret PLUS_SUCCESS
  | S remaining' =>
      fb <- Frames_at i ;;
      r <- munmap (FrameBuffer.start fb) (FrameBuffer.length fb) ;;
      if -1 =? r then
        e <- get_errno ;;
        LOG_ERROR "munmap" (Some e) ;;
        mret PLUS_FAIL
      else munmap_for remaining' (S i)
  end.

(** The same loop of the [IO_METHOD_USERPTR] case. *)
Fixpoint free_for (remaining : nat) (i : nat) : M unit :=
  match remaining with
  | O => mret tt
  | S remaining' =>
      fb <- Frames_at i ;;
      free (FrameBuffer.start fb) ;;
      free_for remaining' (S i)
  end.

Definition InternalDisconnect : M PlusStatus :=
  method <- gets IOMethod ;;
  n <- gets BufferCount ;;
  released <-
    match method with
    | IO_METHOD_READ =>
        fb <- Frames_at 0 ;;
        free (FrameBuffer.start fb) ;;
        mret PLUS_SUCCESS
    | IO_METHOD_MMAP => munmap_for n 0
    | IO_METHOD_USERPTR => free_for n 0 ;; mret PLUS_SUCCESS
    | IO_METHOD_UNKNOWN => mret PLUS_SUCCESS
    end ;;
  match released with
  | PLUS_FAIL => mret PLUS_FAIL
  | PLUS_SUCCESS =>
      frames <- gets Frames ;;
      free frames ;;
      fd <- gets FileDescriptor ;;
      r <- close fd ;;
      if -1 =? r then
        e <- get_errno ;;
        LOG_ERROR "Close" (Some e) ;;
        mret PLUS_FAIL
      else
        modify (set_FileDescriptor (-1)) ;;
        mret PLUS_SUCCESS
  end.

(** ** The update cycle *)

(** The loop of the [IO_METHOD_USERPTR] case of [ReadFrame], which looks for
    the frame buffer the kernel has filled and does nothing with it. *)
Fixpoint find_for (remaining : nat) (i : nat) (buf : v4l2_buffer) : M unit :=
  match remaining with
  | O => mret tt
  | S remaining' =>
      fb <- Frames_at i ;;
      if (m buf =? FrameBuffer.start fb)
         && (buf_length buf =? FrameBuffer.length fb)
      then mret tt
      else find_for remaining' (S i) buf
  end.

(** [switch (errno)] after a failed [read] or [VIDIOC_DQBUF]: [EAGAIN]
    returns at once, everything else is logged. *)
Definition acquire_failed (what : string) : M PlusStatus :=
  e <- get_errno ;;
  if e =? EAGAIN then mret PLUS_FAIL
  else LOG_ERROR what (Some e) ;; mret PLUS_FAIL.

(** The [IO_METHOD_MMAP] and [IO_METHOD_USERPTR] cases of [ReadFrame]. *)
Definition ReadFrame_stream (memory : Z) (userp : bool) : M PlusStatus :=
  fd <- gets FileDescriptor ;;
  p <- xioctl fd VIDIOC_DQBUF
         {| index := 0; buf_type := V4L2_BUF_TYPE_VIDEO_CAPTURE;
            bytesused := 0; buf_memory := memory; m := 0;
            buf_length := 0 |} ;;
  let '(r, buf) := p in
  if -1 =? r then acquire_failed "VIDIOC_DQBUF"
  else
    (if userp then n <- gets BufferCount ;; find_for n 0 buf
     else mret tt) ;;
    q <- xioctl fd VIDIOC_QBUF buf ;;
    if -1 =? fst q then
      e <- get_errno ;;
      LOG_ERROR "VIDIOC_QBUF" (Some e) ;;
      mret PLUS_FAIL
    else mret PLUS_SUCCESS.

Definition ReadFrame : M PlusStatus :=
  method <- gets IOMethod ;;
  match method with
  | IO_METHOD_READ =>
      fd <- gets FileDescriptor ;;
      fb <- Frames_at 0 ;;
      r <- read fd (FrameBuffer.start fb) (FrameBuffer.length fb) ;;
      if -1 =? r then acquire_failed "Read" else mret PLUS_SUCCESS
  | IO_METHOD_MMAP => ReadFrame_stream V4L2_MEMORY_MMAP false
  | IO_METHOD_USERPTR => ReadFrame_stream V4L2_MEMORY_USERPTR true
  | IO_METHOD_UNKNOWN => mret PLUS_SUCCESS
  end.

(** [this->FrameNumber++] is on an [unsigned long]: after [ULONG_MAX] comes
    0. *)
Definition InternalUpdate : M PlusStatus :=
  fd <- gets FileDescriptor ;;
  r <- select fd 2 ;;
  if -1 =? r then
    e <- get_errno ;;
    LOG_ERROR "Unable to select video device" (Some e) ;;
    mret PLUS_FAIL
  else if 0 =? r then
    LOG_ERROR "Select timeout." None ;;
    mret PLUS_FAIL
  else
    status <- ReadFrame ;;
    match status with
    | PLUS_FAIL => mret PLUS_FAIL
    | PLUS_SUCCESS =>
        modify (fun o =>
          set_FrameNumber (unsigned_long (FrameNumber o + 1)) o) ;;
        mret PLUS_SUCCESS
    end.

(** ** Start and stop of streaming *)

(** [for (i = 0; i < this->BufferCount; ++i)] of [InternalStartRecording]:
    every buffer is queued, with its address and length in the
    [IO_METHOD_USERPTR] case. *)
Fixpoint queue_for (remaining : nat) (i : nat) (userp : bool)
    : M PlusStatus :=
  match remaining with
  | O => mret PLUS_SUCCESS
  | S remaining' =>
      fd <- gets FileDescriptor ;;
      buf <- (if userp then
                fb <- Frames_at i ;;
                mret {| index := i; buf_type := V4L2_BUF_TYPE_VIDEO_CAPTURE;
                        bytesused := 0; buf_memory := V4L2_MEMORY_USERPTR;
                        m := FrameBuffer.start fb;
                        buf_length := FrameBuffer.length fb |}
              else
                mret {| index := i; buf_type := V4L2_BUF_TYPE_VIDEO_CAPTURE;
                        bytesused := 0; buf_memory := V4L2_MEMORY_MMAP;
                        m := 0; buf_length := 0 |}) ;;
      q <- xioctl fd VIDIOC_QBUF buf ;;
      if -1 =? fst q then
        e <- get_errno ;;
        LOG_ERROR "VIDIOC_QBUF" (Some e) ;;
        mret PLUS_FAIL
      else queue_for remaining' (S i) userp
  end.

Definition InternalStartRecording : M PlusStatus :=
  method <- gets IOMethod ;;
  match method with
  | IO_METHOD_READ | IO_METHOD_UNKNOWN => mret PLUS_SUCCESS
  | IO_METHOD_MMAP | IO_METHOD_USERPTR =>
      n <- gets BufferCount ;;
      queued <- queue_for n 0
                  match method with IO_METHOD_USERPTR => true | _ => false end ;;
      match queued with
      | PLUS_FAIL => mret PLUS_FAIL
      | PLUS_SUCCESS =>
          fd <- gets FileDescriptor ;;
          q <- xioctl fd VIDIOC_STREAMON V4L2_BUF_TYPE_VIDEO_CAPTURE ;;
          if -1 =? fst q then
            e <- get_errno ;;
            LOG_ERROR "VIDIOC_STREAMON" (Some e) ;;
            mret PLUS_FAIL
          else mret PLUS_SUCCESS
      end
  end.

Definition InternalStopRecording : M PlusStatus :=
  method <- gets IOMethod ;;
  match method with
  | IO_METHOD_READ | IO_METHOD_UNKNOWN => mret PLUS_SUCCESS
  | IO_METHOD_MMAP | IO_METHOD_USERPTR =>
      fd <- gets FileDescriptor ;;
      q <- xioctl fd VIDIOC_STREAMOFF V4L2_BUF_TYPE_VIDEO_CAPTURE ;;
      if -1 =? fst q then
        e <- get_errno ;;
        LOG_ERROR "VIDIOC_STREAMOFF" (Some e) ;;
        mret PLUS_SUCCESS
      else mret PLUS_SUCCESS
  end.

(** [vtkPlusV4L2VideoSource::vtkPlusV4L2VideoSource]. *)
Definition constructed : vtkPlusV4L2VideoSource :=
  {| DeviceName := ""; IOMethod := IO_METHOD_READ; FileDescriptor := -1;
     Frames := NULL; FramesMem := []; BufferCount := 0;
     RequestedFormat := CLEAR_format; ForceFormat := false;
     FrameNumber := 0 |}.

(** The thread of the device calls [InternalUpdate] again and again; the
    statuses of [k] cycles in a row. *)
Fixpoint cycles (k : nat) : M (list PlusStatus) :=
  match k with
  | O => mret []
  | S k' =>
      status <- InternalUpdate ;;
      rest <- cycles k' ;;
      mret (status :: rest)
  end.

(** * Predicates on runs *)

(** [wp x Q this w]: if the run of [x] from [this] and [w] has a result, the
    result, the final object and world, and the calls made satisfy [Q]. *)
Definition wp {A} (x : M A)
    (Q : A -> vtkPlusV4L2VideoSource -> World -> list event -> Prop)
    (this : vtkPlusV4L2VideoSource) (w : World) : Prop :=
  match x this w with
  | Some (a, this', w', tr) => Q a this' w' tr
  | None => True
  end.

(** The answer "failed, interrupted by a signal". *)
Definition interrupted (a : answer) : bool :=
  (ret a =? -1) && (err a =? EINTR).

(** The events of one [xioctl]: the same request, once per answer. *)
Definition attempts (fh : Z) (req : request) (arg : arg_of req)
    (answers : list answer) : list event :=
  map (Sys (c_ioctl fh req (pack req arg))) answers.


(** A property of the calls of a member function, whatever the object and
    the kernel. *)
Definition emits {A} (P : list event -> Prop) (x : M A) : Prop :=
  forall this w, wp x (fun _ _ _ tr => P tr) this w.

(** Kinds of events. *)

(** [select] has returned 0: the time-out has elapsed. *)
Definition is_poll_timeout (e : event) : bool :=
  match e with
  | Sys (c_select _ _) a => ret a =? 0
  | _ => false
  end.

(** The acquisition step ([read] or [VIDIOC_DQBUF]) has failed with
    [EAGAIN]. *)
Definition is_EAGAIN (e : event) : bool :=
  match e with
  | Sys (c_read _ _ _) a | Sys (c_ioctl _ VIDIOC_DQBUF _) a =>
      (ret a =? -1) && (err a =? EAGAIN)
  | _ => false
  end.

(** The acquisition step has given a frame. *)
Definition is_acquired (e : event) : bool :=
  match e with
  | Sys (c_read _ _ _) a | Sys (c_ioctl _ VIDIOC_DQBUF _) a =>
      negb (ret a =? -1)
  | _ => false
  end.

(** A frame is handed to the output channel. *)
Definition is_AddItem (e : event) : bool :=
  match e with
  | AddItem _ _ _ _ _ => true
  | _ => false
  end.

(** What [InternalStopRecording] and [InternalDisconnect] do to take the
    device down: stream-off, unmap, free, close. *)
Definition is_teardown (e : event) : bool :=
  match e with
  | Sys (c_close _) _ | Sys (c_munmap _ _) _ | Free _
  | Sys (c_ioctl _ VIDIOC_STREAMOFF _) _ => true
  | _ => false
  end.

(** The number of events of a kind. *)
Definition count_events (f : event -> bool) (tr : list event) : nat :=
  List.length (List.filter f tr).

(** A buffer changes hands: the kernel gives a filled buffer to the class
    ([VIDIOC_DQBUF] has succeeded and has written the descriptor), or the
    class gives a buffer to the kernel ([VIDIOC_QBUF] has succeeded on the
    descriptor). *)
Inductive handoff :=
| Dequeued (b : v4l2_buffer)
| Requeued (b : v4l2_buffer).

Definition handoff_of (e : event) : option handoff :=
  match e with
  | Sys (c_ioctl _ VIDIOC_DQBUF (a_buffer arg)) a =>
      if ret a =? -1 then None
      else Some (Dequeued (written VIDIOC_DQBUF arg a))
  | Sys (c_ioctl _ VIDIOC_QBUF (a_buffer arg)) a =>
      if ret a =? -1 then None else Some (Requeued arg)
  | _ => None
  end.

Definition handoffs (tr : list event) : list handoff := omap handoff_of tr.

Definition is_Requeued (h : handoff) : bool :=
  match h with Requeued _ => true | Dequeued _ => false end.

(** One dequeue and the requeue of the same descriptor, per frame. *)
Definition turnaround (b : v4l2_buffer) : list handoff :=
  [Dequeued b; Requeued b].

(** No two requeues in a row. *)
Fixpoint no_double_requeue (hs : list handoff) : bool :=
  match hs with
  | Requeued _ :: ((Requeued _ :: _) as rest) => false
  | _ :: rest => no_double_requeue rest
  | [] => true
  end.

Definition streaming (method : V4L2_IO_METHOD) : bool :=
  match method with
  | IO_METHOD_MMAP | IO_METHOD_USERPTR => true
  | _ => false
  end.

(** * A camera, for the examples

    [/dev/video0] is a capture device that streams and does not support
    [read]; its format is 1280x720 MJPG until it is set.  The answers are
    those of such a device, call by call. *)

Definition ok (r : Z) : answer := {| ret := r; err := 0; data := None |}.
Definition failed (e : Z) : answer := {| ret := -1; err := e; data := None |}.
Definition wrote (d : argument) : answer :=
  {| ret := 0; err := 0; data := Some d |}.

(* v4l2_fourcc('M', 'J', 'P', 'G') *)
Definition V4L2_PIX_FMT_MJPEG : Z := 0x47504A4D.
Definition V4L2_FIELD_NONE : Z := 1.

Definition format_1280x720_MJPG : v4l2_format :=
  {| fmt_type := V4L2_BUF_TYPE_VIDEO_CAPTURE;
     pix := {| width := 1280; height := 720;
               pixelformat := V4L2_PIX_FMT_MJPEG; field := V4L2_FIELD_NONE;
               bytesperline := 0; sizeimage := 1843200 |} |}.

Definition format_640x480_YUYV : v4l2_format :=
  {| fmt_type := V4L2_BUF_TYPE_VIDEO_CAPTURE;
     pix := {| width := 640; height := 480;
               pixelformat := V4L2_PIX_FMT_YUYV;
               field := V4L2_FIELD_INTERLACED;
               bytesperline := 1280; sizeimage := 614400 |} |}.

(** The object after [ReadConfiguration], for each method. *)
Definition configured (method : V4L2_IO_METHOD) : vtkPlusV4L2VideoSource :=
  {| DeviceName := "/dev/video0"; IOMethod := method; FileDescriptor := -1;
     Frames := NULL; FramesMem := []; BufferCount := 0;
     RequestedFormat := CLEAR_format; ForceFormat := false;
     FrameNumber := 0 |}.

(** The answers up to the buffer set-up: [stat] (a character device), [open]
    (descriptor 3), [VIDIOC_QUERYCAP] with the capabilities [caps],
    [VIDIOC_CROPCAP] (no cropping), [VIDIOC_G_FMT] and [VIDIOC_S_FMT]. *)
Definition answers_open (caps : Z) : list answer :=
  [ wrote (a_stat 0x21B0);
    ok 3;
    wrote (a_capability {| capabilities := caps |});
    failed EINVAL;
    wrote (a_format format_1280x720_MJPG);
    wrote (a_format format_640x480_YUYV) ].

Definition caps_streaming : Z :=
  Z.lor V4L2_CAP_VIDEO_CAPTURE V4L2_CAP_STREAMING.
Definition caps_readwrite : Z :=
  Z.lor V4L2_CAP_VIDEO_CAPTURE V4L2_CAP_READWRITE.

Definition queried (i : nat) : v4l2_buffer :=
  {| index := i; buf_type := V4L2_BUF_TYPE_VIDEO_CAPTURE; bytesused := 0;
     buf_memory := V4L2_MEMORY_MMAP; m := 614400 * Z.of_nat i;
     buf_length := 614400 |}.

(** [VIDIOC_REQBUFS] grants [n] buffers, [calloc] gives the array at 0x1000,
    and each buffer is queried and mapped. *)
Definition answers_mmap (n : nat) : list answer :=
  wrote (a_requestbuffers
           {| count := n; req_type := V4L2_BUF_TYPE_VIDEO_CAPTURE;
              req_memory := V4L2_MEMORY_MMAP |})
  :: ok 0x1000
  :: flat_map (fun i => [wrote (a_buffer (queried i));
                         ok (0x7f0000000000 + 0x100000 * Z.of_nat i)])
       (seq 0 n).

(** [VIDIOC_REQBUFS] reports [n] buffers, [calloc] gives the array, and four
    calls of [malloc] give the buffers. *)
Definition answers_userp (n : nat) : list answer :=
  [ wrote (a_requestbuffers
             {| count := n; req_type := V4L2_BUF_TYPE_VIDEO_CAPTURE;
                req_memory := V4L2_MEMORY_USERPTR |});
    ok 0x1000; ok 0x2000; ok 0x98000; ok 0x12e000; ok 0x1c4000 ].

(** [calloc] gives the array and [malloc] the one buffer. *)
Definition answers_read : list answer := [ ok 0x1000; ok 0x2000 ].

Definition world (answers : list answer) : World :=
  {| script := answers; errno := 0 |}.

(** The result of a run, or the object and world it started from when the
    run has no result. *)
Definition after {A} (x : M A) (this : vtkPlusV4L2VideoSource) (w : World)
    : vtkPlusV4L2VideoSource :=
  match x this w with
  | Some (_, this', _, _) => this'
  | None => this
  end.

(** The object after a successful [InternalConnect], for the two streaming
    methods. *)
Definition connected_mmap : vtkPlusV4L2VideoSource :=
  Eval vm_compute in
    after InternalConnect (configured IO_METHOD_MMAP)
      (world (answers_open caps_streaming ++ answers_mmap 4)).

Definition connected_userp : vtkPlusV4L2VideoSource :=
  Eval vm_compute in
    after InternalConnect (configured IO_METHOD_USERPTR)
      (world (answers_open caps_streaming ++ answers_userp 4)).

Definition connected_read : vtkPlusV4L2VideoSource :=
  Eval vm_compute in
    after InternalConnect (configured IO_METHOD_READ)
      (world (answers_open caps_readwrite ++ answers_read)).

(** The kernel hands over buffer [i], filled. *)
Definition filled (i : nat) (memory : Z) (addr : Z) : v4l2_buffer :=
  {| index := i; buf_type := V4L2_BUF_TYPE_VIDEO_CAPTURE;
     bytesused := 614400; buf_memory := memory; m := addr;
     buf_length := 614400 |}.

(** One cycle in which a frame is ready: [select], [VIDIOC_DQBUF] of buffer
    [i], [VIDIOC_QBUF]. *)
Definition answers_frame (i : nat) : list answer :=
  [ ok 1; wrote (a_buffer (filled i V4L2_MEMORY_MMAP (614400 * Z.of_nat i)));
    ok 0 ].

Definition succeeded (status : PlusStatus) : bool :=
  match status with PLUS_SUCCESS => true | PLUS_FAIL => false end.

(** Three frames in a row, from buffers 0, 1 and 2. *)
Definition answers_three_frames : list answer :=
  answers_frame 0 ++ answers_frame 1 ++ answers_frame 2.

(** ** Interrupted calls *)

Definition is_ioctl (cl : call) : bool :=
  match cl with c_ioctl _ _ _ => true | _ => false end.

Global Instance v4l2_capability_eq_dec : EqDecision v4l2_capability.
Proof. solve_decision. Defined.
Global Instance v4l2_rect_eq_dec : EqDecision v4l2_rect.
Proof. solve_decision. Defined.
Global Instance v4l2_cropcap_eq_dec : EqDecision v4l2_cropcap.
Proof. solve_decision. Defined.
Global Instance v4l2_crop_eq_dec : EqDecision v4l2_crop.
Proof. solve_decision. Defined.
Global Instance v4l2_pix_format_eq_dec : EqDecision v4l2_pix_format.
Proof. solve_decision. Defined.
Global Instance v4l2_format_eq_dec : EqDecision v4l2_format.
Proof. solve_decision. Defined.
Global Instance v4l2_requestbuffers_eq_dec : EqDecision v4l2_requestbuffers.
Proof. solve_decision. Defined.
Global Instance v4l2_buffer_eq_dec : EqDecision v4l2_buffer.
Proof. solve_decision. Defined.
Global Instance v4l2_fmtdesc_eq_dec : EqDecision v4l2_fmtdesc.
Proof. solve_decision. Defined.
Global Instance request_eq_dec : EqDecision request.
Proof. solve_decision. Defined.
Global Instance argument_eq_dec : EqDecision argument.
Proof. solve_decision. Defined.
Global Instance call_eq_dec : EqDecision call.
Proof. solve_decision. Defined.

(** Every call among [which] that fails with [EINTR] is followed at once by
    the same call, with the same arguments. *)
Fixpoint retried (which : call -> bool) (tr : list event) : bool :=
  match tr with
  | [] => true
  | Sys cl a :: rest =>
      (if which cl && interrupted a then
         match rest with
         | Sys cl' _ :: _ => bool_decide (cl' = cl)
         | _ => false
         end
       else true)
      && retried which rest
  | _ :: rest => retried which rest
  end.

(** A failure with [EINTR] comes to the surface: it is logged. *)
Definition is_EINTR_logged (e : event) : bool :=
  match e with
  | Log _ (Some code) => code =? EINTR
  | _ => false
  end.

(** [select] says a frame can be read, and [read] is interrupted. *)
Definition answers_read_interrupted : list answer := [ ok 1; failed EINTR ].

(** [select] or [read], which are called directly, has failed with
    [EINTR]. *)
Definition is_interrupted_direct (e : event) : bool :=
  match e with
  | Sys (c_select _ _) a | Sys (c_read _ _ _) a => interrupted a
  | _ => false
  end.

(** The requests that go through [xioctl]: all but [VIDIOC_ENUM_FMT], which
    [PrintSelf] sends with [ioctl]. *)
Definition is_xioctl (cl : call) : bool :=
  match cl with
  | c_ioctl _ VIDIOC_ENUM_FMT _ => false
  | c_ioctl _ _ _ => true
  | _ => false
  end.

Definition is_ENUM_FMT (e : event) : bool :=
  match e with
  | Sys (c_ioctl _ VIDIOC_ENUM_FMT _) _ => true
  | _ => false
  end.

Definition not_ENUM_FMT (req : request) : bool :=
  negb (bool_decide (req = VIDIOC_ENUM_FMT)).

(** [VIDIOC_ENUM_FMT] has not returned 0. *)
Definition is_listing_end (e : event) : bool :=
  match e with
  | Sys (c_ioctl _ VIDIOC_ENUM_FMT _) a => negb (ret a =? 0)
  | _ => false
  end.

(** Once [VIDIOC_ENUM_FMT] has not returned 0, with [EINTR] or another
    error, it is not sent again. *)
Fixpoint listing_ends (tr : list event) : bool :=
  match tr with
  | [] => true
  | e :: rest =>
      (if is_listing_end e then negb (existsb is_ENUM_FMT rest) else true)
      && listing_ends rest
  end.

(** The answers of [answers_open] in a build with [_DEBUG]: the device
    lists one format, and the second [VIDIOC_ENUM_FMT] is interrupted. *)
Definition answers_open_listing (caps : Z) : list answer :=
  take 3 (answers_open caps)
  ++ [ wrote (a_fmtdesc {| fmtdesc_index := 0;
                           fmtdesc_type := V4L2_BUF_TYPE_VIDEO_CAPTURE;
                           description := "YUYV 4:2:2" |});
       failed EINTR ]
  ++ drop 3 (answers_open caps).

(** ** Memory *)

(** A successful [malloc]: the size asked for and the pointer returned. *)
Definition malloc_of (e : event) : option (Z * Z) :=
  match e with
  | Sys (c_malloc size) a =>
      if ret a =? NULL then None else Some (size, ret a)
  | _ => None
  end.

Definition mallocs (tr : list event) : list (Z * Z) := omap malloc_of tr.

(** The frame buffer made of a successful [malloc]. *)
Definition heap_buffer (sp : Z * Z) : FrameBuffer.t :=
  {| FrameBuffer.start := snd sp; FrameBuffer.length := fst sp |}.

(** ** Set-up of the mapped buffers *)

(** The request [req] has failed for good: with -1, and not interrupted. *)
Definition is_failed (req : request) (e : event) : bool :=
  match e with
  | Sys (c_ioctl _ req' _) a =>
      bool_decide (req' = req) && (ret a =? -1) && negb (err a =? EINTR)
  | _ => false
  end.

(** [VIDIOC_REQBUFS] has succeeded and the kernel grants fewer than 2
    buffers. *)
Definition grants_few (e : event) : bool :=
  match e with
  | Sys (c_ioctl _ VIDIOC_REQBUFS (a_requestbuffers arg)) a =>
      negb (ret a =? -1)
      && (count (written VIDIOC_REQBUFS arg a) <? 2)%nat
  | _ => false
  end.

Definition is_calloc_failed (e : event) : bool :=
  match e with
  | Sys (c_calloc _) a => ret a =? NULL
  | _ => false
  end.

Definition is_mmap (e : event) : bool :=
  match e with
  | Sys (c_mmap _ _ _) _ => true
  | _ => false
  end.

Definition is_mmap_failed (e : event) : bool :=
  match e with
  | Sys (c_mmap _ _ _) a => ret a =? MAP_FAILED
  | _ => false
  end.

Definition is_mmap_logged (e : event) : bool :=
  match e with
  | Log what _ => String.eqb what "mmap"
  | _ => false
  end.

(** The four reasons for which [InitMmap] fails. *)
Definition InitMmap_failure (tr : list event) : bool :=
  existsb (is_failed VIDIOC_REQBUFS) tr
  || existsb grants_few tr
  || existsb is_calloc_failed tr
  || existsb (is_failed VIDIOC_QUERYBUF) tr.

(** The kernel grants 3 buffers and the mapping of buffer 1 fails. *)
Definition answers_mmap_one_unmapped : list answer :=
  [ wrote (a_requestbuffers
             {| count := 3; req_type := V4L2_BUF_TYPE_VIDEO_CAPTURE;
                req_memory := V4L2_MEMORY_MMAP |});
    ok 0x1000;
    wrote (a_buffer (queried 0)); ok 0x7f0000000000;
    wrote (a_buffer (queried 1)); failed ENOMEM;
    wrote (a_buffer (queried 2)); ok 0x7f0000200000 ].

(** The number of buffers a successful [VIDIOC_REQBUFS] grants. *)
Definition grant_of (e : event) : option nat :=
  match e with
  | Sys (c_ioctl _ VIDIOC_REQBUFS (a_requestbuffers arg)) a =>
      if ret a =? -1 then None
      else Some (count (written VIDIOC_REQBUFS arg a))
  | _ => None
  end.

Definition grants (tr : list event) : list nat := omap grant_of tr.

(** ** Resources

    What the class holds of the system: an open descriptor, a block of the
    heap, a mapping of device memory. *)
Inductive resource :=
| Descriptor (fd : Z)
| Block (ptr : Z)
| Mapping (addr : Z) (len : Z).

(** The resource a call has given, if the call has succeeded. *)
Definition acquire_of (e : event) : option resource :=
  match e with
  | Sys (c_open _) a =>
      if ret a =? -1 then None else Some (Descriptor (ret a))
  | Sys (c_calloc _) a | Sys (c_malloc _) a =>
      if ret a =? NULL then None else Some (Block (ret a))
  | Sys (c_mmap len _ _) a =>
      if ret a =? MAP_FAILED then None else Some (Mapping (ret a) len)
  | _ => None
  end.

(** The resource a call has given back, if the call has succeeded. *)
Definition release_of (e : event) : option resource :=
  match e with
  | Sys (c_close fd) a =>
      if ret a =? -1 then None else Some (Descriptor fd)
  | Free ptr => Some (Block ptr)
  | Sys (c_munmap addr len) a =>
      if ret a =? -1 then None else Some (Mapping addr len)
  | _ => None
  end.

Definition acquired (tr : list event) : list resource := omap acquire_of tr.
Definition released (tr : list event) : list resource := omap release_of tr.

(** The resource behind a frame buffer when it is released: a mapping with
    the method mmap, a block of the heap otherwise. *)
Definition buffer_resource (method : V4L2_IO_METHOD) (fb : FrameBuffer.t)
    : resource :=
  match method with
  | IO_METHOD_MMAP => Mapping (FrameBuffer.start fb) (FrameBuffer.length fb)
  | _ => Block (FrameBuffer.start fb)
  end.

(** The resource behind a frame buffer when it was set up: none when the
    mapping has failed. *)
Definition buffer_acquired (method : V4L2_IO_METHOD) (fb : FrameBuffer.t)
    : option resource :=
  match method with
  | IO_METHOD_MMAP =>
      if FrameBuffer.start fb =? MAP_FAILED then None
      else Some (Mapping (FrameBuffer.start fb) (FrameBuffer.length fb))
  | _ => Some (Block (FrameBuffer.start fb))
  end.

(** [BufferCount] after a successful [InternalConnect] of an object whose
    [BufferCount] was [before]: [InitRead] does not assign it. *)
Definition BufferCount_connected (method : V4L2_IO_METHOD) (before : nat)
    (frames : list FrameBuffer.t) : nat :=
  match method with
  | IO_METHOD_READ => before
  | IO_METHOD_USERPTR => 4
  | _ => List.length frames
  end.

(** The number of frame buffers [InternalDisconnect] releases. *)
Definition buffers_released (this : vtkPlusV4L2VideoSource) : nat :=
  match IOMethod this with
  | IO_METHOD_READ => 1
  | IO_METHOD_MMAP | IO_METHOD_USERPTR => BufferCount this
  | IO_METHOD_UNKNOWN => 0
  end.

(** The device takes the user-pointer method; connect, then disconnect. *)
Definition answers_userp_session : list answer :=
  answers_open caps_streaming ++ answers_userp 4 ++ [ok 0].

(** ** Capabilities *)

(** The capability a method needs. *)
Definition required_flag (method : V4L2_IO_METHOD) : option Z :=
  match method with
  | IO_METHOD_READ => Some V4L2_CAP_READWRITE
  | IO_METHOD_MMAP | IO_METHOD_USERPTR => Some V4L2_CAP_STREAMING
  | IO_METHOD_UNKNOWN => None
  end.

(** [VIDIOC_QUERYCAP] has succeeded and the capabilities it reports lack
    [flag]. *)
Definition reports_without (flag : Z) (e : event) : bool :=
  match e with
  | Sys (c_ioctl _ VIDIOC_QUERYCAP (a_capability arg)) a =>
      negb (ret a =? -1)
      && lacks (capabilities (written VIDIOC_QUERYCAP arg a)) flag
  | _ => false
  end.

(** ** Formats *)

(** The format a successful [VIDIOC_G_FMT] reports. *)
Definition reported_of (e : event) : option v4l2_format :=
  match e with
  | Sys (c_ioctl _ VIDIOC_G_FMT (a_format arg)) a =>
      if ret a =? -1 then None else Some (written VIDIOC_G_FMT arg a)
  | _ => None
  end.

(** A successful [VIDIOC_S_FMT]: the format the class asks the device to
    take, and the format the device answers. *)
Definition configured_of (e : event) : option (v4l2_format * v4l2_format) :=
  match e with
  | Sys (c_ioctl _ VIDIOC_S_FMT (a_format arg)) a =>
      if ret a =? -1 then None else Some (arg, written VIDIOC_S_FMT arg a)
  | _ => None
  end.

Definition same_picture (f g : v4l2_format) : bool :=
  (width (pix f) =? width (pix g)) && (height (pix f) =? height (pix g))
  && (pixelformat (pix f) =? pixelformat (pix g))
  && (field (pix f) =? field (pix g)).

(** The requests that do not concern the format. *)
Definition not_a_format (req : request) : bool :=
  match req with
  | VIDIOC_G_FMT | VIDIOC_S_FMT => false
  | _ => true
  end.

(** * Names of methods, pixel formats and field orders

    The converters between the values of the kernel interface and their
    names, at the end of the .cxx file. *)

Import Ascii.AsciiSyntax.
Delimit Scope char_scope with char.

(** [v4l2_fourcc(a, b, c, d)] and [v4l2_fourcc_be(a, b, c, d)] of
    [linux/videodev2.h]. *)
Definition v4l2_fourcc (a b c d : Ascii.ascii) : Z :=
  Z.lor (Z.lor (Z.lor (Z.of_N (Ascii.N_of_ascii a))
                      (Z.shiftl (Z.of_N (Ascii.N_of_ascii b)) 8))
               (Z.shiftl (Z.of_N (Ascii.N_of_ascii c)) 16))
        (Z.shiftl (Z.of_N (Ascii.N_of_ascii d)) 24).

Definition v4l2_fourcc_be (a b c d : Ascii.ascii) : Z :=
  Z.lor (v4l2_fourcc a b c d) (Z.shiftl 1 31).

Arguments v4l2_fourcc (a b c d)%_char.
Arguments v4l2_fourcc_be (a b c d)%_char.

(** The pixel formats the converters name, with the codes of
    [linux/videodev2.h]. *)
Definition V4L2_PIX_FMT_RGB332 : Z := v4l2_fourcc "R" "G" "B" "1".
Definition V4L2_PIX_FMT_RGB444 : Z := v4l2_fourcc "R" "4" "4" "4".
Definition V4L2_PIX_FMT_ARGB444 : Z := v4l2_fourcc "A" "R" "1" "2".
Definition V4L2_PIX_FMT_XRGB444 : Z := v4l2_fourcc "X" "R" "1" "2".
Definition V4L2_PIX_FMT_RGB555 : Z := v4l2_fourcc "R" "G" "B" "O".
Definition V4L2_PIX_FMT_ARGB555 : Z := v4l2_fourcc "A" "R" "1" "5".
Definition V4L2_PIX_FMT_XRGB555 : Z := v4l2_fourcc "X" "R" "1" "5".
Definition V4L2_PIX_FMT_RGB565 : Z := v4l2_fourcc "R" "G" "B" "P".
Definition V4L2_PIX_FMT_RGB555X : Z := v4l2_fourcc "R" "G" "B" "Q".
Definition V4L2_PIX_FMT_ARGB555X : Z := v4l2_fourcc_be "A" "R" "1" "5".
Definition V4L2_PIX_FMT_XRGB555X : Z := v4l2_fourcc_be "X" "R" "1" "5".
Definition V4L2_PIX_FMT_RGB565X : Z := v4l2_fourcc "R" "G" "B" "R".
Definition V4L2_PIX_FMT_BGR666 : Z := v4l2_fourcc "B" "G" "R" "H".
Definition V4L2_PIX_FMT_BGR24 : Z := v4l2_fourcc "B" "G" "R" "3".
Definition V4L2_PIX_FMT_RGB24 : Z := v4l2_fourcc "R" "G" "B" "3".
Definition V4L2_PIX_FMT_BGR32 : Z := v4l2_fourcc "B" "G" "R" "4".
Definition V4L2_PIX_FMT_ABGR32 : Z := v4l2_fourcc "A" "R" "2" "4".
Definition V4L2_PIX_FMT_XBGR32 : Z := v4l2_fourcc "X" "R" "2" "4".
Definition V4L2_PIX_FMT_RGB32 : Z := v4l2_fourcc "R" "G" "B" "4".
Definition V4L2_PIX_FMT_ARGB32 : Z := v4l2_fourcc "B" "A" "2" "4".
Definition V4L2_PIX_FMT_XRGB32 : Z := v4l2_fourcc "B" "X" "2" "4".
Definition V4L2_PIX_FMT_GREY : Z := v4l2_fourcc "G" "R" "E" "Y".
Definition V4L2_PIX_FMT_Y4 : Z := v4l2_fourcc "Y" "0" "4" " ".
Definition V4L2_PIX_FMT_Y6 : Z := v4l2_fourcc "Y" "0" "6" " ".
Definition V4L2_PIX_FMT_Y10 : Z := v4l2_fourcc "Y" "1" "0" " ".
Definition V4L2_PIX_FMT_Y12 : Z := v4l2_fourcc "Y" "1" "2" " ".
Definition V4L2_PIX_FMT_Y16 : Z := v4l2_fourcc "Y" "1" "6" " ".
Definition V4L2_PIX_FMT_Y16_BE : Z := v4l2_fourcc_be "Y" "1" "6" " ".
Definition V4L2_PIX_FMT_Y10BPACK : Z := v4l2_fourcc "Y" "1" "0" "B".
Definition V4L2_PIX_FMT_PAL8 : Z := v4l2_fourcc "P" "A" "L" "8".
Definition V4L2_PIX_FMT_UV8 : Z := v4l2_fourcc "U" "V" "8" " ".
Definition V4L2_PIX_FMT_YYUV : Z := v4l2_fourcc "Y" "Y" "U" "V".
Definition V4L2_PIX_FMT_YVYU : Z := v4l2_fourcc "Y" "V" "Y" "U".
Definition V4L2_PIX_FMT_UYVY : Z := v4l2_fourcc "U" "Y" "V" "Y".
Definition V4L2_PIX_FMT_VYUY : Z := v4l2_fourcc "V" "Y" "U" "Y".
Definition V4L2_PIX_FMT_Y41P : Z := v4l2_fourcc "Y" "4" "1" "P".
Definition V4L2_PIX_FMT_YUV444 : Z := v4l2_fourcc "Y" "4" "4" "4".
Definition V4L2_PIX_FMT_YUV555 : Z := v4l2_fourcc "Y" "U" "V" "O".
Definition V4L2_PIX_FMT_YUV565 : Z := v4l2_fourcc "Y" "U" "V" "P".
Definition V4L2_PIX_FMT_YUV32 : Z := v4l2_fourcc "Y" "U" "V" "4".
Definition V4L2_PIX_FMT_HI240 : Z := v4l2_fourcc "H" "I" "2" "4".
Definition V4L2_PIX_FMT_HM12 : Z := v4l2_fourcc "H" "M" "1" "2".
Definition V4L2_PIX_FMT_M420 : Z := v4l2_fourcc "M" "4" "2" "0".
Definition V4L2_PIX_FMT_NV12 : Z := v4l2_fourcc "N" "V" "1" "2".
Definition V4L2_PIX_FMT_NV21 : Z := v4l2_fourcc "N" "V" "2" "1".
Definition V4L2_PIX_FMT_NV16 : Z := v4l2_fourcc "N" "V" "1" "6".
Definition V4L2_PIX_FMT_NV61 : Z := v4l2_fourcc "N" "V" "6" "1".
Definition V4L2_PIX_FMT_NV24 : Z := v4l2_fourcc "N" "V" "2" "4".
Definition V4L2_PIX_FMT_NV42 : Z := v4l2_fourcc "N" "V" "4" "2".
Definition V4L2_PIX_FMT_NV12M : Z := v4l2_fourcc "N" "M" "1" "2".
Definition V4L2_PIX_FMT_NV21M : Z := v4l2_fourcc "N" "M" "2" "1".
Definition V4L2_PIX_FMT_NV16M : Z := v4l2_fourcc "N" "M" "1" "6".
Definition V4L2_PIX_FMT_NV61M : Z := v4l2_fourcc "N" "M" "6" "1".
Definition V4L2_PIX_FMT_NV12MT : Z := v4l2_fourcc "T" "M" "1" "2".
Definition V4L2_PIX_FMT_NV12MT_16X16 : Z := v4l2_fourcc "V" "M" "1" "2".
Definition V4L2_PIX_FMT_YUV410 : Z := v4l2_fourcc "Y" "U" "V" "9".
Definition V4L2_PIX_FMT_YVU410 : Z := v4l2_fourcc "Y" "V" "U" "9".
Definition V4L2_PIX_FMT_YUV411P : Z := v4l2_fourcc "4" "1" "1" "P".
Definition V4L2_PIX_FMT_YUV420 : Z := v4l2_fourcc "Y" "U" "1" "2".
Definition V4L2_PIX_FMT_YVU420 : Z := v4l2_fourcc "Y" "V" "1" "2".
Definition V4L2_PIX_FMT_YUV422P : Z := v4l2_fourcc "4" "2" "2" "P".
Definition V4L2_PIX_FMT_YUV420M : Z := v4l2_fourcc "Y" "M" "1" "2".
Definition V4L2_PIX_FMT_YVU420M : Z := v4l2_fourcc "Y" "M" "2" "1".
Definition V4L2_PIX_FMT_YUV422M : Z := v4l2_fourcc "Y" "M" "1" "6".
Definition V4L2_PIX_FMT_YVU422M : Z := v4l2_fourcc "Y" "M" "6" "1".
Definition V4L2_PIX_FMT_YUV444M : Z := v4l2_fourcc "Y" "M" "2" "4".
Definition V4L2_PIX_FMT_YVU444M : Z := v4l2_fourcc "Y" "M" "4" "2".
Definition V4L2_PIX_FMT_SBGGR8 : Z := v4l2_fourcc "B" "A" "8" "1".
Definition V4L2_PIX_FMT_SGBRG8 : Z := v4l2_fourcc "G" "B" "R" "G".
Definition V4L2_PIX_FMT_SGRBG8 : Z := v4l2_fourcc "G" "R" "B" "G".
Definition V4L2_PIX_FMT_SRGGB8 : Z := v4l2_fourcc "R" "G" "G" "B".
Definition V4L2_PIX_FMT_SBGGR10 : Z := v4l2_fourcc "B" "G" "1" "0".
Definition V4L2_PIX_FMT_SGBRG10 : Z := v4l2_fourcc "G" "B" "1" "0".
Definition V4L2_PIX_FMT_SGRBG10 : Z := v4l2_fourcc "B" "A" "1" "0".
Definition V4L2_PIX_FMT_SRGGB10 : Z := v4l2_fourcc "R" "G" "1" "0".
Definition V4L2_PIX_FMT_SBGGR10P : Z := v4l2_fourcc "p" "B" "A" "A".
Definition V4L2_PIX_FMT_SGBRG10P : Z := v4l2_fourcc "p" "G" "A" "A".
Definition V4L2_PIX_FMT_SGRBG10P : Z := v4l2_fourcc "p" "g" "A" "A".
Definition V4L2_PIX_FMT_SRGGB10P : Z := v4l2_fourcc "p" "R" "A" "A".
Definition V4L2_PIX_FMT_SBGGR10ALAW8 : Z := v4l2_fourcc "a" "B" "A" "8".
Definition V4L2_PIX_FMT_SGBRG10ALAW8 : Z := v4l2_fourcc "a" "G" "A" "8".
Definition V4L2_PIX_FMT_SGRBG10ALAW8 : Z := v4l2_fourcc "a" "g" "A" "8".
Definition V4L2_PIX_FMT_SRGGB10ALAW8 : Z := v4l2_fourcc "a" "R" "A" "8".
Definition V4L2_PIX_FMT_SBGGR10DPCM8 : Z := v4l2_fourcc "b" "B" "A" "8".
Definition V4L2_PIX_FMT_SGBRG10DPCM8 : Z := v4l2_fourcc "b" "G" "A" "8".
Definition V4L2_PIX_FMT_SGRBG10DPCM8 : Z := v4l2_fourcc "B" "D" "1" "0".
Definition V4L2_PIX_FMT_SRGGB10DPCM8 : Z := v4l2_fourcc "b" "R" "A" "8".
Definition V4L2_PIX_FMT_SBGGR12 : Z := v4l2_fourcc "B" "G" "1" "2".
Definition V4L2_PIX_FMT_SGBRG12 : Z := v4l2_fourcc "G" "B" "1" "2".
Definition V4L2_PIX_FMT_SGRBG12 : Z := v4l2_fourcc "B" "A" "1" "2".
Definition V4L2_PIX_FMT_SRGGB12 : Z := v4l2_fourcc "R" "G" "1" "2".
Definition V4L2_PIX_FMT_SBGGR12P : Z := v4l2_fourcc "p" "B" "C" "C".
Definition V4L2_PIX_FMT_SGBRG12P : Z := v4l2_fourcc "p" "G" "C" "C".
Definition V4L2_PIX_FMT_SGRBG12P : Z := v4l2_fourcc "p" "g" "C" "C".
Definition V4L2_PIX_FMT_SRGGB12P : Z := v4l2_fourcc "p" "R" "C" "C".
Definition V4L2_PIX_FMT_SBGGR16 : Z := v4l2_fourcc "B" "Y" "R" "2".
Definition V4L2_PIX_FMT_SGBRG16 : Z := v4l2_fourcc "G" "B" "1" "6".
Definition V4L2_PIX_FMT_SGRBG16 : Z := v4l2_fourcc "G" "R" "1" "6".
Definition V4L2_PIX_FMT_SRGGB16 : Z := v4l2_fourcc "R" "G" "1" "6".
Definition V4L2_PIX_FMT_HSV24 : Z := v4l2_fourcc "H" "S" "V" "3".
Definition V4L2_PIX_FMT_HSV32 : Z := v4l2_fourcc "H" "S" "V" "4".
Definition V4L2_PIX_FMT_JPEG : Z := v4l2_fourcc "J" "P" "E" "G".
Definition V4L2_PIX_FMT_DV : Z := v4l2_fourcc "d" "v" "s" "d".
Definition V4L2_PIX_FMT_MPEG : Z := v4l2_fourcc "M" "P" "E" "G".
Definition V4L2_PIX_FMT_H264 : Z := v4l2_fourcc "H" "2" "6" "4".
Definition V4L2_PIX_FMT_H264_NO_SC : Z := v4l2_fourcc "A" "V" "C" "1".
Definition V4L2_PIX_FMT_H264_MVC : Z := v4l2_fourcc "M" "2" "6" "4".
Definition V4L2_PIX_FMT_H263 : Z := v4l2_fourcc "H" "2" "6" "3".
Definition V4L2_PIX_FMT_MPEG1 : Z := v4l2_fourcc "M" "P" "G" "1".
Definition V4L2_PIX_FMT_MPEG2 : Z := v4l2_fourcc "M" "P" "G" "2".
Definition V4L2_PIX_FMT_MPEG4 : Z := v4l2_fourcc "M" "P" "G" "4".
Definition V4L2_PIX_FMT_XVID : Z := v4l2_fourcc "X" "V" "I" "D".
Definition V4L2_PIX_FMT_VC1_ANNEX_G : Z := v4l2_fourcc "V" "C" "1" "G".
Definition V4L2_PIX_FMT_VC1_ANNEX_L : Z := v4l2_fourcc "V" "C" "1" "L".
Definition V4L2_PIX_FMT_VP8 : Z := v4l2_fourcc "V" "P" "8" "0".
Definition V4L2_PIX_FMT_VP9 : Z := v4l2_fourcc "V" "P" "9" "0".
Definition V4L2_PIX_FMT_CPIA1 : Z := v4l2_fourcc "C" "P" "I" "A".
Definition V4L2_PIX_FMT_WNVA : Z := v4l2_fourcc "W" "N" "V" "A".
Definition V4L2_PIX_FMT_SN9C10X : Z := v4l2_fourcc "S" "9" "1" "0".
Definition V4L2_PIX_FMT_SN9C20X_I420 : Z := v4l2_fourcc "S" "9" "2" "0".
Definition V4L2_PIX_FMT_PWC1 : Z := v4l2_fourcc "P" "W" "C" "1".
Definition V4L2_PIX_FMT_PWC2 : Z := v4l2_fourcc "P" "W" "C" "2".
Definition V4L2_PIX_FMT_ET61X251 : Z := v4l2_fourcc "E" "6" "2" "5".
Definition V4L2_PIX_FMT_SPCA501 : Z := v4l2_fourcc "S" "5" "0" "1".
Definition V4L2_PIX_FMT_SPCA505 : Z := v4l2_fourcc "S" "5" "0" "5".
Definition V4L2_PIX_FMT_SPCA508 : Z := v4l2_fourcc "S" "5" "0" "8".
Definition V4L2_PIX_FMT_SPCA561 : Z := v4l2_fourcc "S" "5" "6" "1".
Definition V4L2_PIX_FMT_PAC207 : Z := v4l2_fourcc "P" "2" "0" "7".
Definition V4L2_PIX_FMT_MR97310A : Z := v4l2_fourcc "M" "3" "1" "0".
Definition V4L2_PIX_FMT_JL2005BCD : Z := v4l2_fourcc "J" "L" "2" "0".
Definition V4L2_PIX_FMT_SN9C2028 : Z := v4l2_fourcc "S" "O" "N" "X".
Definition V4L2_PIX_FMT_SQ905C : Z := v4l2_fourcc "9" "0" "5" "C".
Definition V4L2_PIX_FMT_PJPG : Z := v4l2_fourcc "P" "J" "P" "G".
Definition V4L2_PIX_FMT_OV511 : Z := v4l2_fourcc "O" "5" "1" "1".
Definition V4L2_PIX_FMT_OV518 : Z := v4l2_fourcc "O" "5" "1" "8".
Definition V4L2_PIX_FMT_STV0680 : Z := v4l2_fourcc "S" "6" "8" "0".
Definition V4L2_PIX_FMT_TM6000 : Z := v4l2_fourcc "T" "M" "6" "0".
Definition V4L2_PIX_FMT_CIT_YYVYUY : Z := v4l2_fourcc "C" "I" "T" "V".
Definition V4L2_PIX_FMT_KONICA420 : Z := v4l2_fourcc "K" "O" "N" "I".
Definition V4L2_PIX_FMT_JPGL : Z := v4l2_fourcc "J" "P" "G" "L".
Definition V4L2_PIX_FMT_SE401 : Z := v4l2_fourcc "S" "4" "0" "1".
Definition V4L2_PIX_FMT_S5C_UYVY_JPG : Z := v4l2_fourcc "S" "5" "C" "I".
Definition V4L2_PIX_FMT_Y8I : Z := v4l2_fourcc "Y" "8" "I" " ".
Definition V4L2_PIX_FMT_Y12I : Z := v4l2_fourcc "Y" "1" "2" "I".
Definition V4L2_PIX_FMT_Z16 : Z := v4l2_fourcc "Z" "1" "6" " ".
Definition V4L2_PIX_FMT_MT21C : Z := v4l2_fourcc "M" "T" "2" "1".
Definition V4L2_PIX_FMT_INZI : Z := v4l2_fourcc "I" "N" "Z" "I".

(** [enum v4l2_field]. *)
Definition V4L2_FIELD_ANY : Z := 0.
Definition V4L2_FIELD_TOP : Z := 2.
Definition V4L2_FIELD_BOTTOM : Z := 3.
Definition V4L2_FIELD_SEQ_TB : Z := 5.
Definition V4L2_FIELD_SEQ_BT : Z := 6.
Definition V4L2_FIELD_ALTERNATE : Z := 7.
Definition V4L2_FIELD_INTERLACED_TB : Z := 8.
Definition V4L2_FIELD_INTERLACED_BT : Z := 9.

(** [switch (x) { case k: return v; ... default: return d; }], the labels in
    the order of the source. *)
Fixpoint switch {V} (x : Z) (cases : list (Z * V)) (default : V) : V :=
  match cases with
  | [] => default
  | (k, v) :: rest => if x =? k then v else switch x rest default
  end.

(** The labels of the [switch] of [FormatToString] and what each returns. *)
Definition FormatToString_cases : list (Z * string) :=
  [
    (V4L2_PIX_FMT_RGB332, "V4L2_PIX_FMT_RGB332");
    (V4L2_PIX_FMT_RGB444, "V4L2_PIX_FMT_RGB444");
    (V4L2_PIX_FMT_ARGB444, "V4L2_PIX_FMT_ARGB444");
    (V4L2_PIX_FMT_XRGB444, "V4L2_PIX_FMT_XRGB444");
    (V4L2_PIX_FMT_RGB555, "V4L2_PIX_FMT_RGB555");
    (V4L2_PIX_FMT_ARGB555, "V4L2_PIX_FMT_ARGB555");
    (V4L2_PIX_FMT_XRGB555, "V4L2_PIX_FMT_XRGB555");
    (V4L2_PIX_FMT_RGB565, "V4L2_PIX_FMT_RGB565");
    (V4L2_PIX_FMT_RGB555X, "V4L2_PIX_FMT_RGB555X");
    (V4L2_PIX_FMT_ARGB555X, "V4L2_PIX_FMT_ARGB555X");
    (V4L2_PIX_FMT_XRGB555X, "V4L2_PIX_FMT_XRGB555X");
    (V4L2_PIX_FMT_RGB565X, "V4L2_PIX_FMT_RGB565X");
    (V4L2_PIX_FMT_BGR666, "V4L2_PIX_FMT_BGR666");
    (V4L2_PIX_FMT_BGR24, "V4L2_PIX_FMT_BGR24");
    (V4L2_PIX_FMT_RGB24, "V4L2_PIX_FMT_RGB24");
    (V4L2_PIX_FMT_BGR32, "V4L2_PIX_FMT_BGR32");
    (V4L2_PIX_FMT_ABGR32, "V4L2_PIX_FMT_ABGR32");
    (V4L2_PIX_FMT_XBGR32, "V4L2_PIX_FMT_XBGR32");
    (V4L2_PIX_FMT_RGB32, "V4L2_PIX_FMT_RGB32");
    (V4L2_PIX_FMT_ARGB32, "V4L2_PIX_FMT_ARGB32");
    (V4L2_PIX_FMT_XRGB32, "V4L2_PIX_FMT_XRGB32");
    (V4L2_PIX_FMT_GREY, "V4L2_PIX_FMT_GREY");
    (V4L2_PIX_FMT_Y4, "V4L2_PIX_FMT_Y4");
    (V4L2_PIX_FMT_Y6, "V4L2_PIX_FMT_Y6");
    (V4L2_PIX_FMT_Y10, "V4L2_PIX_FMT_Y10");
    (V4L2_PIX_FMT_Y12, "V4L2_PIX_FMT_Y12");
    (V4L2_PIX_FMT_Y16, "V4L2_PIX_FMT_Y16");
    (V4L2_PIX_FMT_Y16_BE, "V4L2_PIX_FMT_Y16_BE");
    (V4L2_PIX_FMT_Y10BPACK, "V4L2_PIX_FMT_Y10BPACK");
    (V4L2_PIX_FMT_PAL8, "V4L2_PIX_FMT_PAL8");
    (V4L2_PIX_FMT_UV8, "V4L2_PIX_FMT_UV8");
    (V4L2_PIX_FMT_YUYV, "V4L2_PIX_FMT_YUYV");
    (V4L2_PIX_FMT_YYUV, "V4L2_PIX_FMT_YYUV");
    (V4L2_PIX_FMT_YVYU, "V4L2_PIX_FMT_YVYU");
    (V4L2_PIX_FMT_UYVY, "V4L2_PIX_FMT_UYVY");
    (V4L2_PIX_FMT_VYUY, "V4L2_PIX_FMT_VYUY");
    (V4L2_PIX_FMT_Y41P, "V4L2_PIX_FMT_Y41P");
    (V4L2_PIX_FMT_YUV444, "V4L2_PIX_FMT_YUV444");
    (V4L2_PIX_FMT_YUV555, "V4L2_PIX_FMT_YUV555");
    (V4L2_PIX_FMT_YUV565, "V4L2_PIX_FMT_YUV565");
    (V4L2_PIX_FMT_YUV32, "V4L2_PIX_FMT_YUV32");
    (V4L2_PIX_FMT_HI240, "V4L2_PIX_FMT_HI240");
    (V4L2_PIX_FMT_HM12, "V4L2_PIX_FMT_HM12");
    (V4L2_PIX_FMT_M420, "V4L2_PIX_FMT_M420");
    (V4L2_PIX_FMT_NV12, "V4L2_PIX_FMT_NV12");
    (V4L2_PIX_FMT_NV21, "V4L2_PIX_FMT_NV21");
    (V4L2_PIX_FMT_NV16, "V4L2_PIX_FMT_NV16");
    (V4L2_PIX_FMT_NV61, "V4L2_PIX_FMT_NV61");
    (V4L2_PIX_FMT_NV24, "V4L2_PIX_FMT_NV24");
    (V4L2_PIX_FMT_NV42, "V4L2_PIX_FMT_NV42");
    (V4L2_PIX_FMT_NV12M, "V4L2_PIX_FMT_NV12M");
    (V4L2_PIX_FMT_NV21M, "V4L2_PIX_FMT_NV21M");
    (V4L2_PIX_FMT_NV16M, "V4L2_PIX_FMT_NV16M");
    (V4L2_PIX_FMT_NV61M, "V4L2_PIX_FMT_NV61M");
    (V4L2_PIX_FMT_NV12MT, "V4L2_PIX_FMT_NV12MT");
    (V4L2_PIX_FMT_NV12MT_16X16, "V4L2_PIX_FMT_NV12MT_16X16");
    (V4L2_PIX_FMT_YUV410, "V4L2_PIX_FMT_YUV410");
    (V4L2_PIX_FMT_YVU410, "V4L2_PIX_FMT_YVU410");
    (V4L2_PIX_FMT_YUV411P, "V4L2_PIX_FMT_YUV411P");
    (V4L2_PIX_FMT_YUV420, "V4L2_PIX_FMT_YUV420");
    (V4L2_PIX_FMT_YVU420, "V4L2_PIX_FMT_YVU420");
    (V4L2_PIX_FMT_YUV422P, "V4L2_PIX_FMT_YUV422P");
    (V4L2_PIX_FMT_YUV420M, "V4L2_PIX_FMT_YUV420M");
    (V4L2_PIX_FMT_YVU420M, "V4L2_PIX_FMT_YVU420M");
    (V4L2_PIX_FMT_YUV422M, "V4L2_PIX_FMT_YUV422M");
    (V4L2_PIX_FMT_YVU422M, "V4L2_PIX_FMT_YVU422M");
    (V4L2_PIX_FMT_YUV444M, "V4L2_PIX_FMT_YUV444M");
    (V4L2_PIX_FMT_YVU444M, "V4L2_PIX_FMT_YVU444M");
    (V4L2_PIX_FMT_SBGGR8, "V4L2_PIX_FMT_SBGGR8");
    (V4L2_PIX_FMT_SGBRG8, "V4L2_PIX_FMT_SGBRG8");
    (V4L2_PIX_FMT_SGRBG8, "V4L2_PIX_FMT_SGRBG8");
    (V4L2_PIX_FMT_SRGGB8, "V4L2_PIX_FMT_SRGGB8");
    (V4L2_PIX_FMT_SBGGR10, "V4L2_PIX_FMT_SBGGR10");
    (V4L2_PIX_FMT_SGBRG10, "V4L2_PIX_FMT_SGBRG10");
    (V4L2_PIX_FMT_SGRBG10, "V4L2_PIX_FMT_SGRBG10");
    (V4L2_PIX_FMT_SRGGB10, "V4L2_PIX_FMT_SRGGB10");
    (V4L2_PIX_FMT_SBGGR10P, "V4L2_PIX_FMT_SBGGR10P");
    (V4L2_PIX_FMT_SGBRG10P, "V4L2_PIX_FMT_SGBRG10P");
    (V4L2_PIX_FMT_SGRBG10P, "V4L2_PIX_FMT_SGRBG10P");
    (V4L2_PIX_FMT_SRGGB10P, "V4L2_PIX_FMT_SRGGB10P");
    (V4L2_PIX_FMT_SBGGR10ALAW8, "V4L2_PIX_FMT_SBGGR10ALAW8");
    (V4L2_PIX_FMT_SGBRG10ALAW8, "V4L2_PIX_FMT_SGBRG10ALAW8");
    (V4L2_PIX_FMT_SGRBG10ALAW8, "V4L2_PIX_FMT_SGRBG10ALAW8");
    (V4L2_PIX_FMT_SRGGB10ALAW8, "V4L2_PIX_FMT_SRGGB10ALAW8");
    (V4L2_PIX_FMT_SBGGR10DPCM8, "V4L2_PIX_FMT_SBGGR10DPCM8");
    (V4L2_PIX_FMT_SGBRG10DPCM8, "V4L2_PIX_FMT_SGBRG10DPCM8");
    (V4L2_PIX_FMT_SGRBG10DPCM8, "V4L2_PIX_FMT_SGRBG10DPCM8");
    (V4L2_PIX_FMT_SRGGB10DPCM8, "V4L2_PIX_FMT_SRGGB10DPCM8");
    (V4L2_PIX_FMT_SBGGR12, "V4L2_PIX_FMT_SBGGR12");
    (V4L2_PIX_FMT_SGBRG12, "V4L2_PIX_FMT_SGBRG12");
    (V4L2_PIX_FMT_SGRBG12, "V4L2_PIX_FMT_SGRBG12");
    (V4L2_PIX_FMT_SRGGB12, "V4L2_PIX_FMT_SRGGB12");
    (V4L2_PIX_FMT_SBGGR12P, "V4L2_PIX_FMT_SBGGR12P");
    (V4L2_PIX_FMT_SGBRG12P, "V4L2_PIX_FMT_SGBRG12P");
    (V4L2_PIX_FMT_SGRBG12P, "V4L2_PIX_FMT_SGRBG12P");
    (V4L2_PIX_FMT_SRGGB12P, "V4L2_PIX_FMT_SRGGB12P");
    (V4L2_PIX_FMT_SBGGR16, "V4L2_PIX_FMT_SBGGR16");
    (V4L2_PIX_FMT_SGBRG16, "V4L2_PIX_FMT_SGBRG16");
    (V4L2_PIX_FMT_SGRBG16, "V4L2_PIX_FMT_SGRBG16");
    (V4L2_PIX_FMT_SRGGB16, "V4L2_PIX_FMT_SRGGB16");
    (V4L2_PIX_FMT_HSV24, "V4L2_PIX_FMT_HSV24");
    (V4L2_PIX_FMT_HSV32, "V4L2_PIX_FMT_HSV32");
    (V4L2_PIX_FMT_MJPEG, "V4L2_PIX_FMT_MJPEG");
    (V4L2_PIX_FMT_JPEG, "V4L2_PIX_FMT_JPEG");
    (V4L2_PIX_FMT_DV, "V4L2_PIX_FMT_DV");
    (V4L2_PIX_FMT_MPEG, "V4L2_PIX_FMT_MPEG");
    (V4L2_PIX_FMT_H264, "V4L2_PIX_FMT_H264");
    (V4L2_PIX_FMT_H264_NO_SC, "V4L2_PIX_FMT_H264_NO_SC");
    (V4L2_PIX_FMT_H264_MVC, "V4L2_PIX_FMT_H264_MVC");
    (V4L2_PIX_FMT_H263, "V4L2_PIX_FMT_H263");
    (V4L2_PIX_FMT_MPEG1, "V4L2_PIX_FMT_MPEG1");
    (V4L2_PIX_FMT_MPEG2, "V4L2_PIX_FMT_MPEG2");
    (V4L2_PIX_FMT_MPEG4, "V4L2_PIX_FMT_MPEG4");
    (V4L2_PIX_FMT_XVID, "V4L2_PIX_FMT_XVID");
    (V4L2_PIX_FMT_VC1_ANNEX_G, "V4L2_PIX_FMT_VC1_ANNEX_G");
    (V4L2_PIX_FMT_VC1_ANNEX_L, "V4L2_PIX_FMT_VC1_ANNEX_L");
    (V4L2_PIX_FMT_VP8, "V4L2_PIX_FMT_VP8");
    (V4L2_PIX_FMT_VP9, "V4L2_PIX_FMT_VP9");
    (V4L2_PIX_FMT_CPIA1, "V4L2_PIX_FMT_CPIA1");
    (V4L2_PIX_FMT_WNVA, "V4L2_PIX_FMT_WNVA");
    (V4L2_PIX_FMT_SN9C10X, "V4L2_PIX_FMT_SN9C10X");
    (V4L2_PIX_FMT_SN9C20X_I420, "V4L2_PIX_FMT_SN9C20X_I420");
    (V4L2_PIX_FMT_PWC1, "V4L2_PIX_FMT_PWC1");
    (V4L2_PIX_FMT_PWC2, "V4L2_PIX_FMT_PWC2");
    (V4L2_PIX_FMT_ET61X251, "V4L2_PIX_FMT_ET61X251");
    (V4L2_PIX_FMT_SPCA501, "V4L2_PIX_FMT_SPCA501");
    (V4L2_PIX_FMT_SPCA505, "V4L2_PIX_FMT_SPCA505");
    (V4L2_PIX_FMT_SPCA508, "V4L2_PIX_FMT_SPCA508");
    (V4L2_PIX_FMT_SPCA561, "V4L2_PIX_FMT_SPCA561");
    (V4L2_PIX_FMT_PAC207, "V4L2_PIX_FMT_PAC207");
    (V4L2_PIX_FMT_MR97310A, "V4L2_PIX_FMT_MR97310A");
    (V4L2_PIX_FMT_JL2005BCD, "V4L2_PIX_FMT_JL2005BCD");
    (V4L2_PIX_FMT_SN9C2028, "V4L2_PIX_FMT_SN9C2028");
    (V4L2_PIX_FMT_SQ905C, "V4L2_PIX_FMT_SQ905C");
    (V4L2_PIX_FMT_PJPG, "V4L2_PIX_FMT_PJPG");
    (V4L2_PIX_FMT_OV511, "V4L2_PIX_FMT_OV511");
    (V4L2_PIX_FMT_OV518, "V4L2_PIX_FMT_OV518");
    (V4L2_PIX_FMT_STV0680, "V4L2_PIX_FMT_STV0680");
    (V4L2_PIX_FMT_TM6000, "V4L2_PIX_FMT_TM6000");
    (V4L2_PIX_FMT_CIT_YYVYUY, "V4L2_PIX_FMT_CIT_YYVYUY");
    (V4L2_PIX_FMT_KONICA420, "V4L2_PIX_FMT_KONICA420");
    (V4L2_PIX_FMT_JPGL, "V4L2_PIX_FMT_JPGL");
    (V4L2_PIX_FMT_SE401, "V4L2_PIX_FMT_SE401");
    (V4L2_PIX_FMT_S5C_UYVY_JPG, "V4L2_PIX_FMT_S5C_UYVY_JPG");
    (V4L2_PIX_FMT_Y8I, "V4L2_PIX_FMT_Y8I");
    (V4L2_PIX_FMT_Y12I, "V4L2_PIX_FMT_Y12I");
    (V4L2_PIX_FMT_Z16, "V4L2_PIX_FMT_Z16");
    (V4L2_PIX_FMT_MT21C, "V4L2_PIX_FMT_MT21C");
    (V4L2_PIX_FMT_INZI, "V4L2_PIX_FMT_INZI") ].

(** [FormatToString]: [format] is the code of a pixel format, the value of
    [fmt.pix.pixelformat]. *)
Definition FormatToString (format : Z) : string :=
  switch format FormatToString_cases "V4L2_PIX_FMT_XXXX".

Definition FieldOrderToString (field : Z) : string :=
  switch field
    [ (V4L2_FIELD_ANY, "V4L2_FIELD_ANY");
      (V4L2_FIELD_NONE, "V4L2_FIELD_NONE");
      (V4L2_FIELD_TOP, "V4L2_FIELD_TOP");
      (V4L2_FIELD_BOTTOM, "V4L2_FIELD_BOTTOM");
      (V4L2_FIELD_INTERLACED, "V4L2_FIELD_INTERLACED");
      (V4L2_FIELD_SEQ_TB, "V4L2_FIELD_SEQ_TB");
      (V4L2_FIELD_SEQ_BT, "V4L2_FIELD_SEQ_BT");
      (V4L2_FIELD_ALTERNATE, "V4L2_FIELD_ALTERNATE");
      (V4L2_FIELD_INTERLACED_TB, "V4L2_FIELD_INTERLACED_TB");
      (V4L2_FIELD_INTERLACED_BT, "V4L2_FIELD_INTERLACED_BT") ]
    "V4L2_FIELD_ANY".

(** The names [StringToFormat] compares its argument with, in the order of
    its [else if] chain, and what each branch returns. *)
Definition StringToFormat_cases : list (string * Z) :=
  [
    ("V4L2_PIX_FMT_RGB332", V4L2_PIX_FMT_RGB332);
    ("V4L2_PIX_FMT_RGB444", V4L2_PIX_FMT_RGB444);
    ("V4L2_PIX_FMT_ARGB444", V4L2_PIX_FMT_ARGB444);
    ("V4L2_PIX_FMT_XRGB444", V4L2_PIX_FMT_XRGB444);
    ("V4L2_PIX_FMT_RGB555", V4L2_PIX_FMT_RGB555);
    ("V4L2_PIX_FMT_ARGB555", V4L2_PIX_FMT_ARGB555);
    ("V4L2_PIX_FMT_XRGB555", V4L2_PIX_FMT_XRGB555);
    ("V4L2_PIX_FMT_RGB565", V4L2_PIX_FMT_RGB565);
    ("V4L2_PIX_FMT_RGB555X", V4L2_PIX_FMT_RGB555X);
    ("V4L2_PIX_FMT_ARGB555X", V4L2_PIX_FMT_ARGB555X);
    ("V4L2_PIX_FMT_XRGB555X", V4L2_PIX_FMT_XRGB555X);
    ("V4L2_PIX_FMT_RGB565X", V4L2_PIX_FMT_RGB565X);
    ("V4L2_PIX_FMT_BGR666", V4L2_PIX_FMT_BGR666);
    ("V4L2_PIX_FMT_BGR24", V4L2_PIX_FMT_BGR24);
    ("V4L2_PIX_FMT_RGB24", V4L2_PIX_FMT_RGB24);
    ("V4L2_PIX_FMT_BGR32", V4L2_PIX_FMT_BGR32);
    ("V4L2_PIX_FMT_ABGR32", V4L2_PIX_FMT_ABGR32);
    ("V4L2_PIX_FMT_XBGR32", V4L2_PIX_FMT_XBGR32);
    ("V4L2_PIX_FMT_RGB32", V4L2_PIX_FMT_RGB32);
    ("V4L2_PIX_FMT_ARGB32", V4L2_PIX_FMT_ARGB32);
    ("V4L2_PIX_FMT_XRGB32", V4L2_PIX_FMT_XRGB32);
    ("V4L2_PIX_FMT_GREY", V4L2_PIX_FMT_GREY);
    ("V4L2_PIX_FMT_Y4", V4L2_PIX_FMT_Y4);
    ("V4L2_PIX_FMT_Y6", V4L2_PIX_FMT_Y6);
    ("V4L2_PIX_FMT_Y10", V4L2_PIX_FMT_Y10);
    ("V4L2_PIX_FMT_Y12", V4L2_PIX_FMT_Y12);
    ("V4L2_PIX_FMT_Y16", V4L2_PIX_FMT_Y16);
    ("V4L2_PIX_FMT_Y16_BE", V4L2_PIX_FMT_Y16_BE);
    ("V4L2_PIX_FMT_Y10BPACK", V4L2_PIX_FMT_Y10BPACK);
    ("V4L2_PIX_FMT_PAL8", V4L2_PIX_FMT_PAL8);
    ("V4L2_PIX_FMT_UV8", V4L2_PIX_FMT_UV8);
    ("V4L2_PIX_FMT_YUYV", V4L2_PIX_FMT_YUYV);
    ("V4L2_PIX_FMT_YYUV", V4L2_PIX_FMT_YYUV);
    ("V4L2_PIX_FMT_YVYU", V4L2_PIX_FMT_YVYU);
    ("V4L2_PIX_FMT_UYVY", V4L2_PIX_FMT_UYVY);
    ("V4L2_PIX_FMT_VYUY", V4L2_PIX_FMT_VYUY);
    ("V4L2_PIX_FMT_Y41P", V4L2_PIX_FMT_Y41P);
    ("V4L2_PIX_FMT_YUV444", V4L2_PIX_FMT_YUV444);
    ("V4L2_PIX_FMT_YUV555", V4L2_PIX_FMT_YUV555);
    ("V4L2_PIX_FMT_YUV565", V4L2_PIX_FMT_YUV565);
    ("V4L2_PIX_FMT_YUV32", V4L2_PIX_FMT_YUV32);
    ("V4L2_PIX_FMT_HI240", V4L2_PIX_FMT_HI240);
    ("V4L2_PIX_FMT_HM12", V4L2_PIX_FMT_HM12);
    ("V4L2_PIX_FMT_M420", V4L2_PIX_FMT_M420);
    ("V4L2_PIX_FMT_NV12", V4L2_PIX_FMT_NV12);
    ("V4L2_PIX_FMT_NV21", V4L2_PIX_FMT_NV21);
    ("V4L2_PIX_FMT_NV16", V4L2_PIX_FMT_NV16);
    ("V4L2_PIX_FMT_NV61", V4L2_PIX_FMT_NV61);
    ("V4L2_PIX_FMT_NV24", V4L2_PIX_FMT_NV24);
    ("V4L2_PIX_FMT_NV42", V4L2_PIX_FMT_NV42);
    ("V4L2_PIX_FMT_NV12M", V4L2_PIX_FMT_NV12M);
    ("V4L2_PIX_FMT_NV21M", V4L2_PIX_FMT_NV21M);
    ("V4L2_PIX_FMT_NV16M", V4L2_PIX_FMT_NV16M);
    ("V4L2_PIX_FMT_NV61M", V4L2_PIX_FMT_NV61M);
    ("V4L2_PIX_FMT_NV12MT", V4L2_PIX_FMT_NV12MT);
    ("V4L2_PIX_FMT_NV12MT_16X16", V4L2_PIX_FMT_NV12MT_16X16);
    ("V4L2_PIX_FMT_YUV410", V4L2_PIX_FMT_YUV410);
    ("V4L2_PIX_FMT_YVU410", V4L2_PIX_FMT_YVU410);
    ("V4L2_PIX_FMT_YUV411P", V4L2_PIX_FMT_YUV411P);
    ("V4L2_PIX_FMT_YUV420", V4L2_PIX_FMT_YUV420);
    ("V4L2_PIX_FMT_YVU420", V4L2_PIX_FMT_YVU420);
    ("V4L2_PIX_FMT_YUV422P", V4L2_PIX_FMT_YUV422P);
    ("V4L2_PIX_FMT_YUV420M", V4L2_PIX_FMT_YUV420M);
    ("V4L2_PIX_FMT_YVU420M", V4L2_PIX_FMT_YVU420M);
    ("V4L2_PIX_FMT_YUV422M", V4L2_PIX_FMT_YUV422M);
    ("V4L2_PIX_FMT_YVU422M", V4L2_PIX_FMT_YVU422M);
    ("V4L2_PIX_FMT_YUV444M", V4L2_PIX_FMT_YUV444M);
    ("V4L2_PIX_FMT_YVU444M", V4L2_PIX_FMT_YVU444M);
    ("V4L2_PIX_FMT_SBGGR8", V4L2_PIX_FMT_SBGGR8);
    ("V4L2_PIX_FMT_SGBRG8", V4L2_PIX_FMT_SGBRG8);
    ("V4L2_PIX_FMT_SGRBG8", V4L2_PIX_FMT_SGRBG8);
    ("V4L2_PIX_FMT_SRGGB8", V4L2_PIX_FMT_SRGGB8);
    ("V4L2_PIX_FMT_SBGGR10", V4L2_PIX_FMT_SBGGR10);
    ("V4L2_PIX_FMT_SGBRG10", V4L2_PIX_FMT_SGBRG10);
    ("V4L2_PIX_FMT_SGRBG10", V4L2_PIX_FMT_SGRBG10);
    ("V4L2_PIX_FMT_SRGGB10", V4L2_PIX_FMT_SRGGB10);
    ("V4L2_PIX_FMT_SBGGR10P", V4L2_PIX_FMT_SBGGR10P);
    ("V4L2_PIX_FMT_SGBRG10P", V4L2_PIX_FMT_SGBRG10P);
    ("V4L2_PIX_FMT_SGRBG10P", V4L2_PIX_FMT_SGRBG10P);
    ("V4L2_PIX_FMT_SRGGB10P", V4L2_PIX_FMT_SRGGB10P);
    ("V4L2_PIX_FMT_SBGGR10ALAW8", V4L2_PIX_FMT_SBGGR10ALAW8);
    ("V4L2_PIX_FMT_SGBRG10ALAW8", V4L2_PIX_FMT_SGBRG10ALAW8);
    ("V4L2_PIX_FMT_SGRBG10ALAW8", V4L2_PIX_FMT_SGRBG10ALAW8);
    ("V4L2_PIX_FMT_SRGGB10ALAW8", V4L2_PIX_FMT_SRGGB10ALAW8);
    ("V4L2_PIX_FMT_SBGGR10DPCM8", V4L2_PIX_FMT_SBGGR10DPCM8);
    ("V4L2_PIX_FMT_SGBRG10DPCM8", V4L2_PIX_FMT_SGBRG10DPCM8);
    ("V4L2_PIX_FMT_SGRBG10DPCM8", V4L2_PIX_FMT_SGRBG10DPCM8);
    ("V4L2_PIX_FMT_SRGGB10DPCM8", V4L2_PIX_FMT_SRGGB10DPCM8);
    ("V4L2_PIX_FMT_SBGGR12", V4L2_PIX_FMT_SBGGR12);
    ("V4L2_PIX_FMT_SGBRG12", V4L2_PIX_FMT_SGBRG12);
    ("V4L2_PIX_FMT_SGRBG12", V4L2_PIX_FMT_SGRBG12);
    ("V4L2_PIX_FMT_SRGGB12", V4L2_PIX_FMT_SRGGB12);
    ("V4L2_PIX_FMT_SBGGR12P", V4L2_PIX_FMT_SBGGR12P);
    ("V4L2_PIX_FMT_SGBRG12P", V4L2_PIX_FMT_SGBRG12P);
    ("V4L2_PIX_FMT_SGRBG12P", V4L2_PIX_FMT_SGRBG12P);
    ("V4L2_PIX_FMT_SRGGB12P", V4L2_PIX_FMT_SRGGB12P);
    ("V4L2_PIX_FMT_SBGGR16", V4L2_PIX_FMT_SBGGR16);
    ("V4L2_PIX_FMT_SGBRG16", V4L2_PIX_FMT_SGBRG16);
    ("V4L2_PIX_FMT_SGRBG16", V4L2_PIX_FMT_SGRBG16);
    ("V4L2_PIX_FMT_SRGGB16", V4L2_PIX_FMT_SRGGB16);
    ("V4L2_PIX_FMT_HSV24", V4L2_PIX_FMT_HSV24);
    ("V4L2_PIX_FMT_HSV32", V4L2_PIX_FMT_HSV32);
    ("V4L2_PIX_FMT_MJPEG", V4L2_PIX_FMT_MJPEG);
    ("V4L2_PIX_FMT_JPEG", V4L2_PIX_FMT_JPEG);
    ("V4L2_PIX_FMT_DV", V4L2_PIX_FMT_DV);
    ("V4L2_PIX_FMT_MPEG", V4L2_PIX_FMT_MPEG);
    ("V4L2_PIX_FMT_H264", V4L2_PIX_FMT_H264);
    ("V4L2_PIX_FMT_H264_NO_SC", V4L2_PIX_FMT_H264_NO_SC);
    ("V4L2_PIX_FMT_H264_MVC", V4L2_PIX_FMT_H264_MVC);
    ("V4L2_PIX_FMT_H263", V4L2_PIX_FMT_H263);
    ("V4L2_PIX_FMT_MPEG1", V4L2_PIX_FMT_MPEG1);
    ("V4L2_PIX_FMT_MPEG2", V4L2_PIX_FMT_MPEG2);
    ("V4L2_PIX_FMT_MPEG4", V4L2_PIX_FMT_MPEG4);
    ("V4L2_PIX_FMT_XVID", V4L2_PIX_FMT_XVID);
    ("V4L2_PIX_FMT_VC1_ANNEX_G", V4L2_PIX_FMT_VC1_ANNEX_G);
    ("V4L2_PIX_FMT_VC1_ANNEX_L", V4L2_PIX_FMT_VC1_ANNEX_L);
    ("V4L2_PIX_FMT_VP8", V4L2_PIX_FMT_VP8);
    ("V4L2_PIX_FMT_VP9", V4L2_PIX_FMT_VP9);
    ("V4L2_PIX_FMT_CPIA1", V4L2_PIX_FMT_CPIA1);
    ("V4L2_PIX_FMT_WNVA", V4L2_PIX_FMT_WNVA);
    ("V4L2_PIX_FMT_SN9C10X", V4L2_PIX_FMT_SN9C10X);
    ("V4L2_PIX_FMT_SN9C20X_I420", V4L2_PIX_FMT_SN9C20X_I420);
    ("V4L2_PIX_FMT_PWC1", V4L2_PIX_FMT_PWC1);
    ("V4L2_PIX_FMT_PWC2", V4L2_PIX_FMT_PWC2);
    ("V4L2_PIX_FMT_ET61X251", V4L2_PIX_FMT_ET61X251);
    ("V4L2_PIX_FMT_SPCA501", V4L2_PIX_FMT_SPCA501);
    ("V4L2_PIX_FMT_SPCA505", V4L2_PIX_FMT_SPCA505);
    ("V4L2_PIX_FMT_SPCA508", V4L2_PIX_FMT_SPCA508);
    ("V4L2_PIX_FMT_SPCA561", V4L2_PIX_FMT_SPCA561);
    ("V4L2_PIX_FMT_PAC207", V4L2_PIX_FMT_PAC207);
    ("V4L2_PIX_FMT_MR97310A", V4L2_PIX_FMT_MR97310A);
    ("V4L2_PIX_FMT_JL2005BCD", V4L2_PIX_FMT_JL2005BCD);
    ("V4L2_PIX_FMT_SN9C2028", V4L2_PIX_FMT_SN9C2028);
    ("V4L2_PIX_FMT_SQ905C", V4L2_PIX_FMT_SQ905C);
    ("V4L2_PIX_FMT_PJPG", V4L2_PIX_FMT_PJPG);
    ("V4L2_PIX_FMT_OV511", V4L2_PIX_FMT_OV511);
    ("V4L2_PIX_FMT_OV518", V4L2_PIX_FMT_OV518);
    ("V4L2_PIX_FMT_STV0680", V4L2_PIX_FMT_STV0680);
    ("V4L2_PIX_FMT_TM6000", V4L2_PIX_FMT_TM6000);
    ("V4L2_PIX_FMT_CIT_YYVYUY", V4L2_PIX_FMT_CIT_YYVYUY);
    ("V4L2_PIX_FMT_KONICA420", V4L2_PIX_FMT_KONICA420);
    ("V4L2_PIX_FMT_JPGL", V4L2_PIX_FMT_JPGL);
    ("V4L2_PIX_FMT_SE401", V4L2_PIX_FMT_SE401);
    ("V4L2_PIX_FMT_S5C_UYVY_JPG", V4L2_PIX_FMT_S5C_UYVY_JPG);
    ("V4L2_PIX_FMT_Y8I", V4L2_PIX_FMT_Y8I);
    ("V4L2_PIX_FMT_Y12I", V4L2_PIX_FMT_Y12I);
    ("V4L2_PIX_FMT_Z16", V4L2_PIX_FMT_Z16);
    ("V4L2_PIX_FMT_MT21C", V4L2_PIX_FMT_MT21C);
    ("V4L2_PIX_FMT_INZI", V4L2_PIX_FMT_INZI) ].

(** The converters from names compare strings with
    [PlusCommon::IsEqualInsensitive], which is not part of these sources;
    they are functions of that comparison. *)
Section FromString.
Variable IsEqualInsensitive : string -> string -> bool.

Definition StringToIOMethod (method : string) : V4L2_IO_METHOD :=
  if IsEqualInsensitive method "IO_METHOD_READ" then IO_METHOD_READ
  else if IsEqualInsensitive method "IO_METHOD_MMAP" then IO_METHOD_MMAP
  else if IsEqualInsensitive method "IO_METHOD_USERPTR" then IO_METHOD_USERPTR
  else IO_METHOD_UNKNOWN.

(** [if (IsEqualInsensitive(k, s)) return v; else if ... else return d;] *)
Fixpoint else_if {V} (s : string) (cases : list (string * V)) (default : V)
    : V :=
  match cases with
  | [] => default
  | (k, v) :: rest =>
      if IsEqualInsensitive k s then v else else_if s rest default
  end.

Definition StringToFormat (format : string) : Z :=
  else_if format StringToFormat_cases (v4l2_fourcc "x" "x" "x" "x").

Definition StringToFieldOrder (field : string) : Z :=
  else_if field
    [ ("V4L2_FIELD_ANY", V4L2_FIELD_ANY);
      ("V4L2_FIELD_NONE", V4L2_FIELD_NONE);
      ("V4L2_FIELD_TOP", V4L2_FIELD_TOP);
      ("V4L2_FIELD_BOTTOM", V4L2_FIELD_BOTTOM);
      ("V4L2_FIELD_INTERLACED", V4L2_FIELD_INTERLACED);
      ("V4L2_FIELD_SEQ_TB", V4L2_FIELD_SEQ_TB);
      ("V4L2_FIELD_SEQ_BT", V4L2_FIELD_SEQ_BT);
      ("V4L2_FIELD_ALTERNATE", V4L2_FIELD_ALTERNATE);
      ("V4L2_FIELD_INTERLACED_TB", V4L2_FIELD_INTERLACED_TB);
      ("V4L2_FIELD_INTERLACED_BT", V4L2_FIELD_INTERLACED_BT) ]
    V4L2_FIELD_ANY.

End FromString.

(** The names of the methods, of the pixel formats and of the field
    orders. *)
Definition IOMethod_names : list string :=
  [ "IO_METHOD_READ"; "IO_METHOD_MMAP"; "IO_METHOD_USERPTR";
    "IO_METHOD_UNKNOWN" ].

Definition format_names : list string :=
  "V4L2_PIX_FMT_XXXX" :: map snd FormatToString_cases.

Definition field_names : list string :=
  [ "V4L2_FIELD_ANY"; "V4L2_FIELD_NONE"; "V4L2_FIELD_TOP";
    "V4L2_FIELD_BOTTOM"; "V4L2_FIELD_INTERLACED"; "V4L2_FIELD_SEQ_TB";
    "V4L2_FIELD_SEQ_BT"; "V4L2_FIELD_ALTERNATE"; "V4L2_FIELD_INTERLACED_TB";
    "V4L2_FIELD_INTERLACED_BT" ].

(** The comparison [cmp] holds between two of the [names] exactly when they
    are the same name. *)
Definition tells_apart (cmp : string -> string -> bool)
    (names : list string) : bool :=
  forallb (fun a =>
    forallb (fun b => Bool.eqb (cmp a b) (String.eqb a b)) names) names.

(** A comparison that ignores the case of the letters, for the examples. *)
Definition to_lower (ch : Ascii.ascii) : Ascii.ascii :=
  let n := Ascii.N_of_ascii ch in
  if ((65 <=? n) && (n <=? 90))%N then Ascii.ascii_of_N (n + 32) else ch.

Fixpoint equal_ignoring_case (a b : string) : bool :=
  match a, b with
  | EmptyString, EmptyString => true
  | String x a', String y b' =>
      Ascii.eqb (to_lower x) (to_lower y) && equal_ignoring_case a' b'
  | _, _ => false
  end.

(** A field order [enum v4l2_field] names. *)
Definition is_field_order (field : Z) : bool :=
  (0 <=? field) && (field <=? 9).

(** * More kinds of events *)

Definition is_Log (e : event) : bool :=
  match e with
  | Log _ _ => true
  | _ => false
  end.

(** [VIDIOC_STREAMON] has succeeded: the device streams. *)
Definition is_started (e : event) : bool :=
  match e with
  | Sys (c_ioctl _ VIDIOC_STREAMON _) a => negb (ret a =? -1)
  | _ => false
  end.

(** The descriptors given to the kernel by a successful [VIDIOC_QBUF], in
    order. *)
Definition requeued_of (h : handoff) : option v4l2_buffer :=
  match h with
  | Requeued b => Some b
  | Dequeued _ => None
  end.

Definition requeued (tr : list event) : list v4l2_buffer :=
  omap requeued_of (handoffs tr).

(** The memory a descriptor of the user-pointer method points to. *)
Definition userptr_memory (b : v4l2_buffer) : FrameBuffer.t :=
  {| FrameBuffer.start := m b; FrameBuffer.length := buf_length b |}.

(** The descriptor [InternalStartRecording] fills in for buffer [i]. *)
Definition queue_buffer (userp : bool) (this : vtkPlusV4L2VideoSource)
    (i : nat) : v4l2_buffer :=
  if userp then
    let fb := default zero_FrameBuffer (FramesMem this !! i) in
    {| index := i; buf_type := V4L2_BUF_TYPE_VIDEO_CAPTURE; bytesused := 0;
       buf_memory := V4L2_MEMORY_USERPTR; m := FrameBuffer.start fb;
       buf_length := FrameBuffer.length fb |}
  else
    {| index := i; buf_type := V4L2_BUF_TYPE_VIDEO_CAPTURE; bytesused := 0;
       buf_memory := V4L2_MEMORY_MMAP; m := 0; buf_length := 0 |}.

(** [open] has succeeded. *)
Definition is_opened (e : event) : bool :=
  match e with
  | Sys (c_open _) a => negb (ret a =? -1)
  | _ => false
  end.

(** ** Cropping *)

(** The default rectangle a [VIDIOC_CROPCAP] that returns 0 reports. *)
Definition default_rect_of (e : event) : option v4l2_rect :=
  match e with
  | Sys (c_ioctl _ VIDIOC_CROPCAP (a_cropcap arg)) a =>
      if ret a =? 0 then Some (defrect (written VIDIOC_CROPCAP arg a))
      else None
  | _ => None
  end.

(** The rectangle a [VIDIOC_S_CROP] asks for, interrupted calls apart. *)
Definition crop_rect_of (e : event) : option v4l2_rect :=
  match e with
  | Sys (c_ioctl _ VIDIOC_S_CROP (a_crop arg)) a =>
      if interrupted a then None else Some (c arg)
  | _ => None
  end.

(** The requests that do not concern cropping. *)
Definition not_a_crop (req : request) : bool :=
  match req with
  | VIDIOC_CROPCAP | VIDIOC_S_CROP => false
  | _ => true
  end.

(** [st.st_mode] after the answer [a] to [stat]. *)
Definition st_mode_of (a : answer) : Z :=
  match data a with
  | Some (a_stat st_mode) => st_mode
  | _ => 0
  end.

(** The device node exists, is a capture device that streams, does not
    report cropping capabilities, reports its format and refuses the one
    it is asked to take. *)
Definition answers_format_refused : list answer :=
  [ wrote (a_stat 0x21B0);
    ok 3;
    wrote (a_capability {| capabilities := caps_streaming |});
    failed EINVAL;
    wrote (a_format format_1280x720_MJPG);
    failed 16 ].

(** A regular file. *)
Definition answers_regular_file : list answer := [ wrote (a_stat 0x81A4) ].

Definition rect_640x480 : v4l2_rect :=
  {| left := 0; top := 0; rect_width := 640; rect_height := 480 |}.

(** The device reports a default rectangle and refuses to crop. *)
Definition answers_open_crop : list answer :=
  [ wrote (a_stat 0x21B0);
    ok 3;
    wrote (a_capability {| capabilities := caps_streaming |});
    wrote (a_cropcap {| cropcap_type := V4L2_BUF_TYPE_VIDEO_CAPTURE;
                        defrect := rect_640x480 |});
    failed EINVAL;
    wrote (a_format format_1280x720_MJPG);
    wrote (a_format format_640x480_YUYV) ].

(** ** Allocation *)

Definition is_malloc_failed (e : event) : bool :=
  match e with
  | Sys (c_malloc _) a => ret a =? NULL
  | _ => false
  end.

(** The block of the heap a successful [malloc] has given. *)
Definition block_of (sp : Z * Z) : resource := Block (snd sp).

(** The reasons for which [InitRead] fails. *)
Definition InitRead_failure (tr : list event) : bool :=
  existsb is_calloc_failed tr || existsb is_malloc_failed tr.

(** The reasons for which [InitUserp] fails. *)
Definition InitUserp_failure (tr : list event) : bool :=
  existsb (is_failed VIDIOC_REQBUFS) tr
  || existsb is_calloc_failed tr
  || existsb is_malloc_failed tr.

(** The number of errors logged by a call that returns [status]. *)
Definition errors_logged (status : PlusStatus) : nat :=
  match status with
  | PLUS_SUCCESS => 0
  | PLUS_FAIL => 1
  end.

(** ** Mapping of the buffers *)

(** A call of [mmap]: the length and the offset asked for, and the address
    returned ([MAP_FAILED] when the call has failed). *)
Record mapping := { map_length : Z; map_offset : Z; map_address : Z }.

Definition mmap_of (e : event) : option mapping :=
  match e with
  | Sys (c_mmap len _ offset) a =>
      Some {| map_length := len; map_offset := offset; map_address := ret a |}
  | _ => None
  end.

(** The descriptor the kernel has written in answer to a successful
    [VIDIOC_QUERYBUF]. *)
Definition queried_of (e : event) : option v4l2_buffer :=
  match e with
  | Sys (c_ioctl _ VIDIOC_QUERYBUF (a_buffer arg)) a =>
      if ret a =? -1 then None else Some (written VIDIOC_QUERYBUF arg a)
  | _ => None
  end.

(** The index a [VIDIOC_QUERYBUF] asks about, interrupted calls apart. *)
Definition query_index_of (e : event) : option nat :=
  match e with
  | Sys (c_ioctl _ VIDIOC_QUERYBUF (a_buffer arg)) a =>
      if interrupted a then None else Some (index arg)
  | _ => None
  end.

(** The frame buffer [InitMmap] makes of a call of [mmap]. *)
Definition mapped_buffer (c : mapping) : FrameBuffer.t :=
  {| FrameBuffer.start := map_address c; FrameBuffer.length := map_length c |}.

(** The length and offset asked of [mmap], and those a descriptor gives. *)
Definition asked (c : mapping) : Z * Z := (map_length c, map_offset c).
Definition described (b : v4l2_buffer) : Z * Z := (buf_length b, m b).

(** ** Taking the device down *)

Definition is_munmap_failed (e : event) : bool :=
  match e with
  | Sys (c_munmap _ _) a => ret a =? -1
  | _ => false
  end.

Definition is_close (e : event) : bool :=
  match e with
  | Sys (c_close _) _ => true
  | _ => false
  end.

Definition is_close_failed (e : event) : bool :=
  match e with
  | Sys (c_close _) a => ret a =? -1
  | _ => false
  end.

Definition is_Free (e : event) : bool :=
  match e with
  | Free _ => true
  | _ => false
  end.

(** The device has mapped four buffers; the third cannot be unmapped. *)
Definition answers_munmap_refused : list answer :=
  [ ok 0; ok 0; failed EINVAL ].

(** ** From connect to the first frames *)

(** What [InternalConnect] leaves for the method [method]: the frame
    buffers are [frames], allocated by the calls [blocks] of [malloc] or
    granted by the kernel in the numbers [granted], for a picture of
    [sizeimage] bytes. *)
Definition buffers_set_up (method : V4L2_IO_METHOD) (count : nat)
    (frames : list FrameBuffer.t) (blocks : list (Z * Z))
    (granted : list nat) (sizeimage : Z) : Prop :=
  match method with
  | IO_METHOD_READ =>
      frames = map heap_buffer blocks /\ map fst blocks = [sizeimage]
  | IO_METHOD_MMAP =>
      granted = [count] /\ List.length frames = count
  | IO_METHOD_USERPTR =>
      count = 4%nat /\
      frames = map heap_buffer blocks /\
      map fst blocks = replicate 4 sizeimage
  | IO_METHOD_UNKNOWN => False
  end.

Definition is_read (cl : call) : bool :=
  match cl with
  | c_read _ _ _ => true
  | _ => false
  end.

(** ** Error codes *)

(** Every error that is logged with a code comes right after a call that
    has failed, and the code is the [errno] of that call.  [prev] is the
    event before the first of [tr], if any. *)
Fixpoint codes_follow (prev : option event) (tr : list event) : bool :=
  match tr with
  | [] => true
  | e :: rest =>
      match e with
      | Log _ (Some code) =>
          match prev with
          | Some (Sys _ a) => (ret a =? -1) && (err a =? code)
          | _ => false
          end
      | _ => true
      end
      && codes_follow (Some e) rest
  end.

(** The last event of [tr], or [prev] when there is none. *)
Definition last_event (prev : option event) (tr : list event)
    : option event :=
  fold_left (fun _ e => Some e) tr prev.

Definition well_coded (tr : list event) : Prop :=
  forall prev, codes_follow prev tr = true.

(** ** Failure of [InternalConnect] *)

(** [stat] has failed or the path is not a character device, or [open] has
    failed. *)
Definition is_no_device (e : event) : bool :=
  match e with
  | Sys (c_stat _) a => (ret a =? -1) || negb (S_ISCHR (st_mode_of a))
  | Sys (c_open _) a => ret a =? -1
  | _ => false
  end.

(** What fails [InternalConnect] before the buffers are set up: the path is
    not a device that can be opened, the device lacks the capture capability
    or the capability that the method needs, or [VIDIOC_QUERYCAP],
    [VIDIOC_G_FMT] or [VIDIOC_S_FMT] fails.  No answer to [VIDIOC_CROPCAP]
    or [VIDIOC_S_CROP] is among them. *)
Definition fails_Connect (method : V4L2_IO_METHOD) (e : event) : bool :=
  is_no_device e
  || is_failed VIDIOC_QUERYCAP e
  || reports_without V4L2_CAP_VIDEO_CAPTURE e
  || match required_flag method with
     | Some flag => reports_without flag e
     | None => false
     end
  || is_failed VIDIOC_G_FMT e
  || is_failed VIDIOC_S_FMT e.

(** The reasons for which [InternalConnect] fails. *)
Definition Connect_failure (method : V4L2_IO_METHOD) (tr : list event)
    : bool :=
  existsb (fails_Connect method) tr
  || match method with
     | IO_METHOD_READ => InitRead_failure tr
     | IO_METHOD_MMAP => InitMmap_failure tr
     | IO_METHOD_USERPTR => InitUserp_failure tr
     | IO_METHOD_UNKNOWN => true
     end.

(** ** Requests *)

(** The requests sent with [ioctl], in order, repetitions included. *)
Definition request_of (e : event) : option request :=
  match e with
  | Sys (c_ioctl _ req _) _ => Some req
  | _ => None
  end.

Definition requests (tr : list event) : list request := omap request_of tr.

Definition among (set : list request) (req : request) : bool :=
  existsb (fun r => bool_decide (r = req)) set.

(** Every request of [tr] is one of [set]. *)
Definition sends_only (set : list request) (tr : list event) : Prop :=
  forallb (among set) (requests tr) = true.
(** * Reasoning about runs *)

Lemma wp_elim {A} (x : M A) Q this w a this' w' tr :
  wp x Q this w -> x this w = Some (a, this', w', tr) -> Q a this' w' tr.
Proof. unfold wp. intros H E. rewrite E in H. exact H. Qed.

Lemma wp_intro {A} (x : M A) (Q : A -> _ -> _ -> _ -> Prop) this w :
  (forall a this' w' tr, x this w = Some (a, this', w', tr) -> Q a this' w' tr) ->
  wp x Q this w.
Proof.
  unfold wp. intros H. destruct (x this w) as [[[[a this'] w'] tr]|]; auto.
Qed.

Lemma wp_mono {A} (x : M A) (Q Q' : A -> _ -> _ -> _ -> Prop) this w :
  wp x Q this w ->
  (forall a this' w' tr, Q a this' w' tr -> Q' a this' w' tr) ->
  wp x Q' this w.
Proof.
  unfold wp. intros H HQ.
  destruct (x this w) as [[[[a this'] w'] tr]|]; auto.
Qed.

Lemma wp_bind {A B} (x : M A) (f : A -> M B) Q this w :
  wp x (fun a this1 w1 tr1 =>
          wp (f a) (fun b this2 w2 tr2 => Q b this2 w2 (tr1 ++ tr2)) this1 w1)
     this w ->
  wp (mbind' x f) Q this w.
Proof.
  unfold wp, mbind'. destruct (x this w) as [[[[a this1] w1] tr1]|]; auto.
  destruct (f a this1 w1) as [[[[b this2] w2] tr2]|]; auto.
Qed.

Lemma wp_ret {A} (a : A) (Q : A -> _ -> _ -> _ -> Prop) this w :
  Q a this w [] -> wp (mret a) Q this w.
Proof. auto. Qed.

Lemma wp_gets {A} (f : _ -> A) (Q : A -> _ -> _ -> _ -> Prop) this w :
  Q (f this) this w [] -> wp (gets f) Q this w.
Proof. auto. Qed.

Lemma wp_modify f (Q : unit -> _ -> _ -> _ -> Prop) this w :
  Q tt (f this) w [] -> wp (modify f) Q this w.
Proof. auto. Qed.

Lemma wp_get_errno (Q : Z -> _ -> _ -> _ -> Prop) this w :
  Q (errno w) this w [] -> wp get_errno Q this w.
Proof. auto. Qed.

Lemma wp_emit e (Q : unit -> _ -> _ -> _ -> Prop) this w :
  Q tt this w [e] -> wp (emit e) Q this w.
Proof. auto. Qed.

Lemma wp_undefined {A} (Q : A -> _ -> _ -> _ -> Prop) this w :
  wp undefined Q this w.
Proof. exact I. Qed.

Lemma wp_syscall cl (Q : answer -> _ -> _ -> _ -> Prop) this w :
  (forall a rest, script w = a :: rest ->
     Q a this {| script := rest; errno := errno_after a (errno w) |}
       [Sys cl a]) ->
  wp (syscall cl) Q this w.
Proof.
  unfold wp, syscall. intros H. destruct (script w) as [|a rest]; auto.
Qed.

Lemma wp_Frames_at i (Q : FrameBuffer.t -> _ -> _ -> _ -> Prop) this w :
  (forall fb, FramesMem this !! i = Some fb -> Q fb this w []) ->
  wp (Frames_at i) Q this w.
Proof.
  unfold wp, Frames_at, mbind', gets. intros H. cbn.
  destruct (FramesMem this !! i) as [fb|] eqn:E; cbn; auto.
Qed.

(** ** [xioctl] *)

Lemma xioctl_condition a e :
  (-1 =? ret a) && (EINTR =? errno_after a e) = interrupted a.
Proof.
  unfold interrupted, errno_after.
  rewrite (Z.eqb_sym (-1)).
  destruct (ret a =? -1); [rewrite (Z.eqb_sym EINTR)|]; reflexivity.
Qed.

Lemma written_interrupted req arg a :
  interrupted a = true -> written req arg a = arg.
Proof.
  unfold interrupted, written. destruct (ret a =? -1); [auto | discriminate].
Qed.

Lemma xioctl_loop_first pre a rest e fh req arg :
  forallb interrupted pre = true -> interrupted a = false ->
  exists e',
    xioctl_loop (pre ++ a :: rest) e fh req arg =
    Some (ret a, written req arg a,
          {| script := rest; errno := errno_after a e' |},
          attempts fh req arg (pre ++ [a])).
Proof.
  revert e. induction pre as [|b pre IH]; intros e Hpre Ha;
    cbn [app xioctl_loop forallb] in *.
  - exists e. rewrite xioctl_condition, Ha. reflexivity.
  - apply andb_true_iff in Hpre as [Hb Hpre].
    rewrite xioctl_condition, Hb, (written_interrupted _ _ _ Hb).
    destruct (IH (errno_after b e) Hpre Ha) as [e' ->]. eauto.
Qed.

Lemma xioctl_loop_inv answers e fh req arg r arg' w tr :
  xioctl_loop answers e fh req arg = Some (r, arg', w, tr) ->
  exists pre a e',
    answers = pre ++ a :: script w /\
    forallb interrupted pre = true /\ interrupted a = false /\
    r = ret a /\ arg' = written req arg a /\
    errno w = errno_after a e' /\
    tr = attempts fh req arg (pre ++ [a]).
Proof.
  revert e tr. induction answers as [|b answers IH]; intros e tr;
    cbn [xioctl_loop].
  - discriminate.
  - rewrite xioctl_condition. destruct (interrupted b) eqn:Hb.
    + rewrite (written_interrupted _ _ _ Hb).
      destruct (xioctl_loop answers _ fh req arg)
        as [[[[r1 arg1] w1] tr1]|] eqn:E; [|discriminate].
      intros [= <- <- <- <-].
      destruct (IH _ _ E) as (pre & a & e' & -> & Hpre & Ha & Hr & Harg & He & ->).
      exists (b :: pre), a, e'. cbn. rewrite Hb, Hpre. auto 10.
    + intros [= <- <- <- <-]. exists [], b, e. cbn. auto 10.
Qed.

Lemma wp_xioctl fh req arg (Q : Z * arg_of req -> _ -> _ -> _ -> Prop) this w :
  (forall pre a rest e',
     script w = pre ++ a :: rest ->
     forallb interrupted pre = true -> interrupted a = false ->
     Q (ret a, written req arg a) this
       {| script := rest; errno := errno_after a e' |}
       (attempts fh req arg (pre ++ [a]))) ->
  wp (xioctl fh req arg) Q this w.
Proof.
  intros H. apply wp_intro. intros [r arg'] this' w' tr. unfold xioctl.
  destruct (xioctl_loop _ _ _ _ _) as [[[[r1 arg1] w1] tr1]|] eqn:E;
    [|discriminate].
  intros [= <- <- <- <- <-].
  destruct (xioctl_loop_inv _ _ _ _ _ _ _ _ _ E)
    as (pre & a & e' & Hs & Hpre & Ha & -> & -> & He & ->).
  destruct w1 as [rest e1]; cbn in *. subst e1. eapply H; eauto.
Qed.

(** A failed [xioctl] leaves in [errno] the error of its last answer. *)
Lemma errno_after_failed a e : ret a = -1 -> errno_after a e = err a.
Proof. unfold errno_after. intros ->. reflexivity. Qed.

Lemma not_interrupted_failed a :
  interrupted a = false -> ret a = -1 -> err a <> EINTR.
Proof.
  unfold interrupted. intros H E. rewrite E in H.
  apply Z.eqb_neq. exact H.
Qed.

(** ** Stepping through a member function *)

Ltac wp_step :=
  lazymatch goal with
  | |- wp (mbind' _ _) _ _ _ => apply wp_bind
  | |- wp (mret _) _ _ _ => apply wp_ret
  | |- wp (gets _) _ _ _ => apply wp_gets
  | |- wp (modify _) _ _ _ => apply wp_modify
  | |- wp get_errno _ _ _ => apply wp_get_errno
  | |- wp (emit _) _ _ _ => apply wp_emit
  | |- wp (LOG_ERROR _ _) _ _ _ => apply wp_emit
  | |- wp (free _) _ _ _ => apply wp_emit
  | |- wp undefined _ _ _ => apply wp_undefined
  | |- wp (syscall _) _ _ _ =>
      let a := fresh "a" in let rest := fresh "rest" in
      let Hs := fresh "Hs" in
      apply wp_syscall; intros a rest Hs
  | |- wp (xioctl _ _ _) _ _ _ =>
      let pre := fresh "pre" in let a := fresh "a" in
      let rest := fresh "rest" in let e := fresh "e" in
      let Hs := fresh "Hs" in let Hpre := fresh "Hpre" in
      let Ha := fresh "Ha" in
      apply wp_xioctl; intros pre a rest e Hs Hpre Ha
  | |- wp (Frames_at _) _ _ _ =>
      let fb := fresh "fb" in let Hfb := fresh "Hfb" in
      apply wp_Frames_at; intros fb Hfb
  | |- wp (if ?b then _ else _) _ _ _ => destruct b eqn:?
  | |- wp (match ?x with _ => _ end) _ _ _ => destruct x eqn:?
  end.

(** Reads the members of an object that has been assigned to. *)
Ltac object_simpl :=
  cbn [fst snd
       set_Frames set_FramesMem set_BufferCount set_FileDescriptor
       set_RequestedFormat set_FrameNumber DeviceName IOMethod FileDescriptor
       Frames FramesMem BufferCount RequestedFormat ForceFormat FrameNumber
       script errno]
    in *.

Ltac wp_run := repeat (wp_step; object_simpl).

(** ** Events of [xioctl] *)

Lemma existsb_attempts (f : event -> bool) fh req arg answers :
  existsb f (attempts fh req arg answers) =
  existsb (fun a => f (Sys (c_ioctl fh req (pack req arg)) a)) answers.
Proof.
  unfold attempts. induction answers as [|a l IH]; cbn; [auto|].
  rewrite IH. reflexivity.
Qed.

Lemma existsb_all_false {A} (f g : A -> bool) l :
  forallb g l = true -> (forall x, g x = true -> f x = false) ->
  existsb f l = false.
Proof.
  intros Hl H. induction l as [|x l IH]; cbn in *; [auto|].
  apply andb_true_iff in Hl as [Hx Hl]. rewrite (H x Hx). auto.
Qed.

Lemma interrupted_not_EAGAIN a :
  interrupted a = true -> (ret a =? -1) && (err a =? EAGAIN) = false.
Proof.
  unfold interrupted. intros [_ H]%andb_true_iff.
  apply Z.eqb_eq in H. rewrite H. apply andb_false_r.
Qed.

Lemma interrupted_failed a : interrupted a = true -> (ret a =? -1) = true.
Proof. unfold interrupted. intros [H _]%andb_true_iff. exact H. Qed.

Lemma find_for_pure n i buf this w :
  wp (find_for n i buf) (fun _ this' w' tr => this' = this /\ w' = w /\ tr = [])
    this w.
Proof.
  revert i. induction n as [|n IH]; intros i; cbn [find_for].
  - wp_run. auto.
  - wp_run; [auto|].
    eapply wp_mono; [apply IH|]. cbn beta. intros _ ? ? ? (-> & -> & ->). auto.
Qed.

Lemma handoffs_app t1 t2 : handoffs (t1 ++ t2) = handoffs t1 ++ handoffs t2.
Proof. apply omap_app. Qed.

Lemma handoffs_cons e t :
  handoffs (e :: t) =
  match handoff_of e with Some h => h :: handoffs t | None => handoffs t end.
Proof. reflexivity. Qed.

Lemma handoffs_interrupted fh req arg pre :
  forallb interrupted pre = true -> handoffs (attempts fh req arg pre) = [].
Proof.
  induction pre as [|a pre IH]; [reflexivity|].
  intros [Ha Hpre]%andb_true_iff.
  change (attempts fh req arg (a :: pre))
    with (Sys (c_ioctl fh req (pack req arg)) a :: attempts fh req arg pre).
  rewrite handoffs_cons, (IH Hpre).
  destruct req; cbn; try reflexivity;
    rewrite (interrupted_failed a Ha); reflexivity.
Qed.

Lemma handoffs_DQBUF fh arg pre a :
  forallb interrupted pre = true ->
  handoffs (attempts fh VIDIOC_DQBUF arg (pre ++ [a])) =
  if ret a =? -1 then [] else [Dequeued (written VIDIOC_DQBUF arg a)].
Proof.
  intros Hpre. unfold attempts. rewrite map_app, handoffs_app.
  fold (attempts fh VIDIOC_DQBUF arg pre).
  rewrite (handoffs_interrupted _ _ _ _ Hpre). cbn.
  destruct (ret a =? -1); reflexivity.
Qed.

Lemma handoffs_QBUF fh arg pre a :
  forallb interrupted pre = true ->
  handoffs (attempts fh VIDIOC_QBUF arg (pre ++ [a])) =
  if ret a =? -1 then [] else [Requeued arg].
Proof.
  intros Hpre. unfold attempts. rewrite map_app, handoffs_app.
  fold (attempts fh VIDIOC_QBUF arg pre).
  rewrite (handoffs_interrupted _ _ _ _ Hpre). cbn.
  destruct (ret a =? -1); reflexivity.
Qed.

Lemma existsb_attempts_false (f : event -> bool) fh req arg answers :
  (forall a, f (Sys (c_ioctl fh req (pack req arg)) a) = false) ->
  existsb f (attempts fh req arg answers) = false.
Proof.
  intros H. rewrite existsb_attempts.
  induction answers as [|a l IH]; cbn; [auto|]. rewrite H. exact IH.
Qed.

Lemma EAGAIN_DQBUF fh arg pre a :
  forallb interrupted pre = true ->
  existsb is_EAGAIN (attempts fh VIDIOC_DQBUF arg (pre ++ [a])) =
  (ret a =? -1) && (err a =? EAGAIN).
Proof.
  intros Hpre. rewrite existsb_attempts, existsb_app.
  rewrite (existsb_all_false _ interrupted pre Hpre).
  - cbn. apply orb_false_r.
  - intros x Hx. cbn. apply interrupted_not_EAGAIN, Hx.
Qed.

Lemma acquired_DQBUF fh arg pre a :
  forallb interrupted pre = true ->
  existsb is_acquired (attempts fh VIDIOC_DQBUF arg (pre ++ [a])) =
  negb (ret a =? -1).
Proof.
  intros Hpre. rewrite existsb_attempts, existsb_app.
  rewrite (existsb_all_false _ interrupted pre Hpre).
  - cbn. apply orb_false_r.
  - intros x Hx. cbn. rewrite (interrupted_failed x Hx). reflexivity.
Qed.

(** Uses the specification [H] of a loop or of a member function inside a
    larger run. *)
Ltac wp_use H := eapply wp_mono; [apply H|]; cbn beta.


Ltac trace_simpl :=
  cbn [app]; rewrite ?app_nil_r;
  repeat first
    [ rewrite existsb_app | rewrite handoffs_app
    | rewrite existsb_attempts_false by (intros; reflexivity)
    | rewrite EAGAIN_DQBUF by assumption
    | rewrite acquired_DQBUF by assumption
    | rewrite handoffs_DQBUF by assumption
    | rewrite handoffs_QBUF by assumption
    | rewrite handoffs_cons ];
  change (handoffs []) with (@nil handoff) in *;
  cbn [existsb orb handoff_of is_poll_timeout is_EAGAIN is_acquired
       is_teardown is_AddItem app].

Lemma eqb_m1_false r : (-1 =? r) = false -> (r =? -1) = false.
Proof. rewrite Z.eqb_sym. auto. Qed.

Lemma eqb_m1_true r : (-1 =? r) = true -> (r =? -1) = true.
Proof. rewrite Z.eqb_sym. auto. Qed.


Ltac use_tests :=
  repeat match goal with
  | H : (-1 =? _) = _ |- _ => rewrite Z.eqb_sym in H
  | H : (0 =? _) = _ |- _ => rewrite Z.eqb_sym in H
  end;
  repeat match goal with
  | H : (_ =? -1) = _ |- _ => rewrite ?H in *; clear H
  | H : (_ =? 0) = _ |- _ => rewrite ?H in *; clear H
  end.

Lemma ReadFrame_spec this w :
  wp ReadFrame (fun status this' w' tr =>
       this' = this /\
       existsb is_poll_timeout tr = false /\
       (existsb is_EAGAIN tr = true ->
        status = PLUS_FAIL /\ existsb is_acquired tr = false) /\
       existsb is_teardown tr = false /\
       existsb is_AddItem tr = false /\
       (status = PLUS_SUCCESS -> streaming (IOMethod this) = true ->
        exists b, handoffs tr = turnaround b))
    this w.
Proof.
  unfold ReadFrame, ReadFrame_stream, acquire_failed, read.
  wp_run.
  all: try (wp_use find_for_pure; intros _ ? ? ? (-> & -> & ->); wp_run).
  all: trace_simpl; use_tests; cbn [andb orb negb app].
  all: repeat split; try discriminate; try reflexivity; eauto.
Qed.

Lemma InternalUpdate_spec this w :
  wp InternalUpdate (fun status this' w' tr =>
       this' = match status with
               | PLUS_SUCCESS =>
                   set_FrameNumber (unsigned_long (FrameNumber this + 1)) this
               | PLUS_FAIL => this
               end /\
       (existsb is_poll_timeout tr = true -> status = PLUS_FAIL) /\
       (existsb is_EAGAIN tr = true ->
        status = PLUS_FAIL /\ existsb is_acquired tr = false) /\
       existsb is_teardown tr = false /\
       existsb is_AddItem tr = false /\
       (status = PLUS_SUCCESS -> streaming (IOMethod this) = true ->
        exists b, handoffs tr = turnaround b))
    this w.
Proof.
  unfold InternalUpdate, select.
  wp_run.
  3: wp_use ReadFrame_spec;
     intros status ? ? tr (-> & Hp & He & Ht & Hs' & Hh); wp_run.
  all: trace_simpl; use_tests; cbn [andb orb negb app].
  all: repeat split; try discriminate; try reflexivity; eauto.
  all: rewrite ?Hp; intuition congruence.
Qed.

(** * The update cycle *)

Lemma InternalUpdate_run this w status this' w' tr :
  InternalUpdate this w = Some (status, this', w', tr) ->
  this' = match status with
          | PLUS_SUCCESS =>
              set_FrameNumber (unsigned_long (FrameNumber this + 1)) this
          | PLUS_FAIL => this
          end /\
  (existsb is_poll_timeout tr = true -> status = PLUS_FAIL) /\
  (existsb is_EAGAIN tr = true ->
   status = PLUS_FAIL /\ existsb is_acquired tr = false) /\
  existsb is_teardown tr = false /\
  existsb is_AddItem tr = false /\
  (status = PLUS_SUCCESS -> streaming (IOMethod this) = true ->
   exists b, handoffs tr = turnaround b).
Proof. apply (wp_elim _ _ _ _ _ _ _ _ (InternalUpdate_spec this w)). Qed.

Lemma unsigned_long_next (n : N) :
  (n <= ULONG_MAX)%N ->
  unsigned_long (n + 1) = if (n =? ULONG_MAX)%N then 0%N else (n + 1)%N.
Proof.
  intros Hn. unfold unsigned_long.
  destruct (N.eqb_spec n ULONG_MAX) as [->|Hne].
  - reflexivity.
  - apply N.mod_small. unfold ULONG_MAX in *. lia.
Qed.

(** C5: in every update cycle, [FrameNumber] being a value of its type
    [unsigned long], a cycle that returns success leaves [FrameNumber] one
    higher, unless it was [ULONG_MAX], which the increment wraps to 0; a
    cycle that fails leaves it as it is; a cycle in which [select] times out,
    or in which the acquisition step fails with [EAGAIN], fails; below
    [ULONG_MAX], [FrameNumber] never decreases; it stays a value of its
    type. *)
Theorem FrameNumber_per_cycle this w status this' w' tr :
  (FrameNumber this <= ULONG_MAX)%N ->
  InternalUpdate this w = Some (status, this', w', tr) ->
  FrameNumber this' =
    match status with
    | PLUS_SUCCESS =>
        if (FrameNumber this =? ULONG_MAX)%N then 0%N
        else (FrameNumber this + 1)%N
    | PLUS_FAIL => FrameNumber this
    end /\
  (existsb is_poll_timeout tr = true ->
   status = PLUS_FAIL /\ FrameNumber this' = FrameNumber this) /\
  (existsb is_EAGAIN tr = true ->
   status = PLUS_FAIL /\ FrameNumber this' = FrameNumber this) /\
  ((FrameNumber this < ULONG_MAX)%N ->
   (FrameNumber this <= FrameNumber this')%N) /\
  (FrameNumber this' <= ULONG_MAX)%N.
Proof.
  intros Hn H. apply InternalUpdate_run in H as (-> & Hp & He & _).
  assert (Hfail : status = PLUS_FAIL ->
          FrameNumber match status with
                      | PLUS_SUCCESS =>
                          set_FrameNumber
                            (unsigned_long (FrameNumber this + 1)) this
                      | PLUS_FAIL => this
                      end = FrameNumber this) by (intros ->; reflexivity).
  pose proof (unsigned_long_next _ Hn) as Hnext.
  repeat split.
  - destruct status; cbn [FrameNumber set_FrameNumber]; auto.
  - auto.
  - auto.
  - apply He, H.
  - apply Hfail, He, H.
  - intros Hlt. destruct status; cbn [FrameNumber set_FrameNumber]; [lia|].
    rewrite Hnext. destruct (N.eqb_spec (FrameNumber this) ULONG_MAX); lia.
  - destruct status; cbn [FrameNumber set_FrameNumber]; [lia|].
    rewrite Hnext. destruct (N.eqb_spec (FrameNumber this) ULONG_MAX);
      unfold ULONG_MAX in *; lia.
Qed.

Lemma FrameNumber_per_cycle_witness :
  exists this' w' tr,
    InternalUpdate connected_mmap (world (answers_frame 2)) =
      Some (PLUS_SUCCESS, this', w', tr) /\
    FrameNumber this' = (FrameNumber connected_mmap + 1)%N.
Proof.
  do 3 eexists. split; [vm_compute; reflexivity|].
  exact (proj1 (FrameNumber_per_cycle connected_mmap
                  (world (answers_frame 2)) PLUS_SUCCESS _ _ _
                  ltac:(vm_compute; discriminate) eq_refl)).
Defined.

(** A successful cycle at [ULONG_MAX]: [FrameNumber] is 0 afterwards, not
    one higher, and lower than before. *)
Lemma FrameNumber_wraps :
  exists this' w' tr,
    InternalUpdate (set_FrameNumber ULONG_MAX connected_mmap)
        (world (answers_frame 2)) =
      Some (PLUS_SUCCESS, this', w', tr) /\
    FrameNumber this' = 0%N /\
    FrameNumber this' <>
      (FrameNumber (set_FrameNumber ULONG_MAX connected_mmap) + 1)%N /\
    (FrameNumber this' <
       FrameNumber (set_FrameNumber ULONG_MAX connected_mmap))%N.
Proof.
  do 3 eexists. split; [vm_compute; reflexivity|].
  split; [reflexivity|]. split; [discriminate|reflexivity].
Qed.



(** C2, at a cycle that succeeds: the frame is taken from the device and the
    buffer is given back, [FrameNumber] grows, and nothing is handed to the
    output channel. *)
Theorem successful_cycle_hands_over_nothing :
  exists this' w' tr,
    InternalUpdate connected_mmap (world (answers_frame 2)) =
      Some (PLUS_SUCCESS, this', w', tr) /\
    FrameNumber this' = 1%N /\
    count_events is_acquired tr = 1%nat /\
    count_events is_AddItem tr = 0%nat.
Proof. do 3 eexists. vm_compute. auto. Qed.

(** No update cycle hands a frame to the output channel. *)
Lemma InternalUpdate_no_AddItem this w status this' w' tr :
  InternalUpdate this w = Some (status, this', w', tr) ->
  count_events is_AddItem tr = 0%nat.
Proof.
  intros H. apply InternalUpdate_run in H as (_ & _ & _ & _ & Hs & _).
  unfold count_events. induction tr as [|e tr IH]; [reflexivity|].
  cbn in *. apply orb_false_iff in Hs as [-> Hs]. auto.
Qed.

(** ** Successive cycles *)

Lemma turnarounds_requeues bs :
  List.length (List.filter is_Requeued (concat (map turnaround bs))) =
  List.length bs.
Proof. induction bs as [|b bs IH]; cbn; auto. Qed.

Lemma turnarounds_no_double bs :
  no_double_requeue (concat (map turnaround bs)) = true.
Proof.
  induction bs as [|b bs IH]; [reflexivity|].
  cbn [map concat turnaround app no_double_requeue].
  destruct bs; exact IH.
Qed.

Lemma mbind_Some {A B} (x : M A) (f : A -> M B) this w b this2 w2 tr :
  mbind' x f this w = Some (b, this2, w2, tr) ->
  exists a this1 w1 tr1 tr2,
    x this w = Some (a, this1, w1, tr1) /\
    f a this1 w1 = Some (b, this2, w2, tr2) /\ tr = tr1 ++ tr2.
Proof.
  unfold mbind'. destruct (x this w) as [[[[a this1] w1] tr1]|]; [|discriminate].
  destruct (f a this1 w1) as [[[[b' this2'] w2'] tr2]|] eqn:E; [|discriminate].
  intros [= <- <- <- <-]. eauto 10.
Qed.

Lemma cycles_run k : forall this w statuses this' w' tr,
  streaming (IOMethod this) = true ->
  cycles k this w = Some (statuses, this', w', tr) ->
  forallb succeeded statuses = true ->
  IOMethod this' = IOMethod this /\
  existsb is_teardown tr = false /\
  exists bs, List.length bs = k /\ handoffs tr = concat (map turnaround bs).
Proof.
  induction k as [|k IH]; intros this w statuses this' w' tr Hm H Hs.
  - injection H as <- <- <- <-. repeat split. exists []. auto.
  - cbn [cycles] in H.
    apply mbind_Some in H as (s & this1 & w1 & tr1 & tr2 & H1 & H & ->).
    apply mbind_Some in H as (ss & this2 & w2 & tr3 & tr4 & H2 & H & ->).
    injection H as <- <- <- <-.
    cbn [forallb] in Hs. apply andb_true_iff in Hs as [Hs1 Hs2].
    destruct s; [discriminate|].
    apply InternalUpdate_run in H1 as (-> & _ & _ & Ht1 & _ & Hh).
    destruct (Hh eq_refl Hm) as [b Hb].
    destruct (IH (set_FrameNumber _ this) _ _ _ _ _ Hm H2 Hs2) as (Hm' & Ht2 & bs & Hl & Hbs).
    rewrite app_nil_r. split; [exact Hm'|]. split.
    + rewrite existsb_app, Ht1, Ht2. reflexivity.
    + exists (b :: bs). split; [cbn; lia|].
      rewrite handoffs_app, Hb, Hbs. reflexivity.
Qed.

(** C8: with the methods mmap and user pointer, [k] successful cycles in a
    row make [k] turnarounds, each a dequeue of a descriptor followed by the
    requeue of that descriptor: [k] requeues in all, never two of them in a
    row, and no buffer is unmapped or freed. *)
Theorem requeue_once_per_cycle k this w statuses this' w' tr :
  streaming (IOMethod this) = true ->
  cycles k this w = Some (statuses, this', w', tr) ->
  forallb succeeded statuses = true ->
  (exists bs, List.length bs = k /\
              handoffs tr = concat (map turnaround bs)) /\
  List.length (List.filter is_Requeued (handoffs tr)) = k /\
  no_double_requeue (handoffs tr) = true /\
  existsb is_teardown tr = false.
Proof.
  intros Hm H Hs.
  destruct (cycles_run _ _ _ _ _ _ _ Hm H Hs) as (_ & Ht & bs & Hl & Hbs).
  split; [eauto|]. rewrite Hbs.
  rewrite turnarounds_requeues, turnarounds_no_double. auto.
Qed.

Lemma requeue_once_per_cycle_witness :
  exists this' w' tr,
    cycles 3 connected_mmap (world answers_three_frames) =
      Some ([PLUS_SUCCESS; PLUS_SUCCESS; PLUS_SUCCESS], this', w', tr) /\
    List.length (List.filter is_Requeued (handoffs tr)) = 3%nat.
Proof.
  do 3 eexists. split; [vm_compute; reflexivity|].
  exact (proj1 (proj2 (requeue_once_per_cycle 3 connected_mmap
           (world answers_three_frames) _ _ _ _ eq_refl eq_refl eq_refl))).
Defined.


(** * What the member functions do to the outside

    The calls of every member function are made of four kinds of pieces:
    system calls other than [ioctl], [free], [LOG_ERROR], and the attempts of
    one [xioctl].  A property that holds of the pieces and of their
    concatenations holds of every member function; each lemma asks for the
    requests its member function makes, among the [allowed] ones. *)

Section Pieces.
Variable P : list event -> Prop.
Hypothesis P_nil : P [].
Hypothesis P_app : forall t1 t2, P t1 -> P t2 -> P (t1 ++ t2).
Hypothesis P_sys : forall cl a, is_ioctl cl = false -> P [Sys cl a].
Hypothesis P_free : forall ptr, P [Free ptr].
Hypothesis P_log : forall what code, P [Log what code].
Variable allowed : request -> bool.
Hypothesis P_xioctl : forall fh req arg pre a,
  allowed req = true ->
  forallb interrupted pre = true -> interrupted a = false ->
  P (attempts fh req arg (pre ++ [a])).
Hypothesis allowed_QUERYCAP : allowed VIDIOC_QUERYCAP = true.
Hypothesis allowed_CROPCAP : allowed VIDIOC_CROPCAP = true.
Hypothesis allowed_S_CROP : allowed VIDIOC_S_CROP = true.
Hypothesis allowed_G_FMT : allowed VIDIOC_G_FMT = true.
Hypothesis allowed_S_FMT : allowed VIDIOC_S_FMT = true.
Hypothesis allowed_REQBUFS : allowed VIDIOC_REQBUFS = true.
Hypothesis allowed_QUERYBUF : allowed VIDIOC_QUERYBUF = true.
Hypothesis allowed_QBUF : allowed VIDIOC_QBUF = true.
Hypothesis allowed_DQBUF : allowed VIDIOC_DQBUF = true.
Hypothesis allowed_STREAMON : allowed VIDIOC_STREAMON = true.
Hypothesis allowed_STREAMOFF : allowed VIDIOC_STREAMOFF = true.

Lemma emits_ret {A} (a : A) : emits P (mret a).
Proof. intros this w. exact P_nil. Qed.

Lemma emits_bind {A B} (x : M A) (f : A -> M B) :
  emits P x -> (forall a, emits P (f a)) -> emits P (mbind' x f).
Proof.
  intros Hx Hf this w. apply wp_bind. eapply wp_mono; [apply Hx|].
  cbn beta. intros a this1 w1 tr1 H1.
  eapply wp_mono; [apply Hf|]. cbn beta. auto.
Qed.

Lemma emits_gets {A} (f : _ -> A) : emits P (gets f).
Proof. intros this w. exact P_nil. Qed.

Lemma emits_modify f : emits P (modify f).
Proof. intros this w. exact P_nil. Qed.

Lemma emits_get_errno : emits P get_errno.
Proof. intros this w. exact P_nil. Qed.

Lemma emits_undefined {A} : emits P (@undefined A).
Proof. intros this w. exact I. Qed.

Lemma emits_LOG_ERROR what code : emits P (LOG_ERROR what code).
Proof. intros this w. apply P_log. Qed.

Lemma emits_free ptr : emits P (free ptr).
Proof. intros this w. apply P_free. Qed.

Lemma emits_syscall cl : is_ioctl cl = false -> emits P (syscall cl).
Proof. intros H this w. apply wp_syscall. intros. apply P_sys, H. Qed.

Lemma emits_xioctl fh req arg :
  allowed req = true -> emits P (xioctl fh req arg).
Proof. intros H this w. apply wp_xioctl. intros. apply P_xioctl; auto. Qed.

Lemma emits_Frames_at i : emits P (Frames_at i).
Proof. intros this w. apply wp_Frames_at. intros. exact P_nil. Qed.

Ltac emits_step :=
  lazymatch goal with
  | |- emits _ (mbind' _ _) => apply emits_bind; [|intros ?]
  | |- emits _ (mret _) => apply emits_ret
  | |- emits _ (gets _) => apply emits_gets
  | |- emits _ (modify _) => apply emits_modify
  | |- emits _ get_errno => apply emits_get_errno
  | |- emits _ undefined => apply emits_undefined
  | |- emits _ (LOG_ERROR _ _) => apply emits_LOG_ERROR
  | |- emits _ (free _) => apply emits_free
  | |- emits _ (syscall _) => apply emits_syscall; reflexivity
  | |- emits _ (xioctl _ _ _) => apply emits_xioctl; assumption
  | |- emits _ (Frames_at _) => apply emits_Frames_at
  | |- emits _ (if ?b then _ else _) => destruct b
  | |- emits _ (match ?x with _ => _ end) => destruct x
  end.

Ltac emits_run := repeat emits_step.

Lemma emits_Frames_calloc n : emits P (Frames_calloc n).
Proof. unfold Frames_calloc. emits_run. Qed.

Lemma emits_Frames_set_length i v : emits P (Frames_set_length i v).
Proof. unfold Frames_set_length. emits_run. Qed.

Lemma emits_Frames_set_start i v : emits P (Frames_set_start i v).
Proof. unfold Frames_set_start. emits_run. Qed.

Lemma emits_InitRead size : emits P (InitRead size).
Proof.
  unfold InitRead, malloc.
  repeat first [ apply emits_Frames_calloc | apply emits_Frames_set_length
               | apply emits_Frames_set_start | emits_step ].
Qed.

Lemma emits_InitMmap_for n : emits P (InitMmap_for n).
Proof.
  induction n as [|n IH]; cbn [InitMmap_for]; unfold mmap.
  - emits_run.
  - repeat first [ apply IH | apply emits_Frames_set_length
                 | apply emits_Frames_set_start | emits_step ].
Qed.

Lemma emits_InitMmap : emits P InitMmap.
Proof.
  unfold InitMmap.
  repeat first [ apply emits_InitMmap_for | apply emits_Frames_calloc
               | emits_step ].
Qed.

Lemma emits_InitUserp_for n size : emits P (InitUserp_for n size).
Proof.
  induction n as [|n IH]; cbn [InitUserp_for]; unfold malloc.
  - emits_run.
  - repeat first [ apply IH | apply emits_Frames_set_length
                 | apply emits_Frames_set_start | emits_step ].
Qed.

Lemma emits_InitUserp size : emits P (InitUserp size).
Proof.
  unfold InitUserp.
  repeat first [ apply emits_InitUserp_for | apply emits_Frames_calloc
               | emits_step ].
Qed.

Lemma emits_InternalConnect_crop : emits P InternalConnect_crop.
Proof. unfold InternalConnect_crop. emits_run. Qed.

Lemma emits_InternalConnect_format : emits P InternalConnect_format.
Proof.
  unfold InternalConnect_format.
  repeat first [ apply emits_InitRead | apply emits_InitMmap
               | apply emits_InitUserp | emits_step ].
Qed.

Lemma emits_InternalConnect : emits P InternalConnect.
Proof.
  unfold InternalConnect, InternalConnect_built, InternalConnect_crop,
    InternalConnect_format,
    stat, open.
  repeat first [ apply emits_InitRead | apply emits_InitMmap
               | apply emits_InitUserp | emits_step ].
Qed.

Lemma emits_munmap_for n i : emits P (munmap_for n i).
Proof.
  revert i. induction n as [|n IH]; intros i; cbn [munmap_for];
    unfold munmap.
  - emits_run.
  - repeat first [ apply IH | emits_step ].
Qed.

Lemma emits_free_for n i : emits P (free_for n i).
Proof.
  revert i. induction n as [|n IH]; intros i; cbn [free_for].
  - emits_run.
  - repeat first [ apply IH | emits_step ].
Qed.

Lemma emits_InternalDisconnect : emits P InternalDisconnect.
Proof.
  unfold InternalDisconnect, close.
  repeat first [ apply emits_munmap_for | apply emits_free_for
               | emits_step ].
Qed.

Lemma emits_find_for n i buf : emits P (find_for n i buf).
Proof.
  revert i. induction n as [|n IH]; intros i; cbn [find_for].
  - emits_run.
  - repeat first [ apply IH | emits_step ].
Qed.

Lemma emits_ReadFrame : emits P ReadFrame.
Proof.
  unfold ReadFrame, ReadFrame_stream, acquire_failed, read.
  repeat first [ apply emits_find_for | emits_step ].
Qed.

Lemma emits_InternalUpdate : emits P InternalUpdate.
Proof.
  unfold InternalUpdate, select.
  repeat first [ apply emits_ReadFrame | emits_step ].
Qed.

Lemma emits_queue_for n i userp : emits P (queue_for n i userp).
Proof.
  revert i. induction n as [|n IH]; intros i; cbn [queue_for].
  - emits_run.
  - repeat first [ apply IH | emits_step ].
Qed.

Lemma emits_InternalStartRecording : emits P InternalStartRecording.
Proof.
  unfold InternalStartRecording.
  repeat first [ apply emits_queue_for | emits_step ].
Qed.

Lemma emits_InternalStopRecording : emits P InternalStopRecording.
Proof. unfold InternalStopRecording. emits_run. Qed.

(** The build with [_DEBUG]: the lines [PrintSelf] writes and the requests
    it sends with [ioctl]. *)
Section Debug.
Hypothesis P_out : forall line, P [Out line].
Hypothesis P_enum : forall fh arg a,
  P [Sys (c_ioctl fh VIDIOC_ENUM_FMT arg) a].

Lemma emits_emit_Out line : emits P (emit (Out line)).
Proof. intros this w. apply P_out. Qed.

Lemma PrintSelf_while_pieces answers : forall errno fd indent fmtdesc w tr,
  PrintSelf_while answers errno fd indent fmtdesc = Some (w, tr) -> P tr.
Proof.
  induction answers as [|a rest IH]; intros errno fd indent fmtdesc w tr H;
    cbn [PrintSelf_while] in H; [discriminate H|].
  destruct (ret a =? 0).
  - destruct (PrintSelf_while rest _ fd indent _) as [[w1 tr1]|] eqn:E;
      [|discriminate H].
    injection H as <- <-.
    apply (P_app [_] (_ :: _)); [apply P_enum|].
    apply (P_app [_] tr1); [apply P_out|]. exact (IH _ _ _ _ _ _ E).
  - injection H as <- <-. apply P_enum.
Qed.

Lemma emits_PrintSelf indent : emits P (PrintSelf indent).
Proof.
  unfold PrintSelf.
  repeat first [ apply emits_emit_Out | emits_step ].
  intros this w. unfold wp.
  destruct (PrintSelf_while _ _ _ _ _) as [[w1 tr1]|] eqn:E; [|exact I].
  exact (PrintSelf_while_pieces _ _ _ _ _ _ _ E).
Qed.

Lemma emits_InternalConnect_built _DEBUG :
  emits P (InternalConnect_built _DEBUG).
Proof.
  unfold InternalConnect_built, InternalConnect_crop, InternalConnect_format,
    stat, open.
  repeat first [ apply emits_InitRead | apply emits_InitMmap
               | apply emits_InitUserp | apply emits_PrintSelf
               | emits_step ].
Qed.
End Debug.
End Pieces.

(** * Interrupted requests *)

Lemma retried_app which t1 t2 :
  retried which t1 = true -> retried which t2 = true ->
  retried which (t1 ++ t2) = true.
Proof.
  intros H1 H2. induction t1 as [|e t1 IH]; [exact H2|].
  destruct e as [cl a| | | |]; cbn [app retried] in *; auto.
  apply andb_true_iff in H1 as [Hh Ht]. rewrite (IH Ht), andb_true_r.
  destruct (which cl && interrupted a); [|reflexivity].
  destruct t1 as [|[cl' a'| | | |] t1]; cbn [app] in *; auto; discriminate.
Qed.

Lemma retried_attempts which fh req arg pre a :
  forallb interrupted pre = true -> interrupted a = false ->
  retried which (attempts fh req arg (pre ++ [a])) = true.
Proof.
  intros Hpre Ha. induction pre as [|b pre IH].
  - cbn. rewrite Ha, andb_false_r. reflexivity.
  - cbn [forallb] in Hpre. apply andb_true_iff in Hpre as [Hb Hpre].
    change (attempts fh req arg ((b :: pre) ++ [a]))
      with (Sys (c_ioctl fh req (pack req arg)) b
            :: attempts fh req arg (pre ++ [a])).
    cbn [retried]. rewrite (IH Hpre), andb_true_r.
    destruct (which _ && interrupted b); [|reflexivity].
    destruct pre; cbn; apply bool_decide_eq_true; reflexivity.
Qed.

Lemma retried_ioctl_other cl a :
  is_ioctl cl = false -> retried is_ioctl [Sys cl a] = true.
Proof. intros H. cbn. rewrite H. reflexivity. Qed.

(** The requirements of the lemmas on the pieces, for the property "every
    interrupted [ioctl] is repeated at once". *)
Ltac retried_pieces :=
  first
    [ reflexivity
    | apply retried_app; assumption
    | apply retried_ioctl_other; assumption
    | apply retried_attempts; assumption ].

Lemma interrupted_inv a : interrupted a = true -> ret a = -1 /\ err a = EINTR.
Proof.
  unfold interrupted. intros H. apply andb_true_iff in H as [Hr He].
  apply Z.eqb_eq in Hr, He. auto.
Qed.

Lemma errno_after_interrupted a e :
  interrupted a = true -> errno_after a e = EINTR.
Proof.
  intros H. apply interrupted_inv in H as [Hr He].
  unfold errno_after. rewrite Hr. exact He.
Qed.

(** [select] and [read] are called once: when one is interrupted, the
    failure is logged and the cycle is over. *)
Lemma InternalUpdate_interrupted this w :
  wp InternalUpdate (fun status this' w' tr =>
       existsb is_interrupted_direct tr = true ->
       status = PLUS_FAIL /\
       exists pre cl a what,
         tr = pre ++ [Sys cl a; Log what (Some EINTR)] /\
         existsb is_interrupted_direct pre = false /\
         is_ioctl cl = false /\ interrupted a = true)
    this w.
Proof.
  unfold InternalUpdate, select, ReadFrame, ReadFrame_stream, acquire_failed,
    read.
  wp_run.
  all: try (wp_use find_for_pure; intros _ ? ? ? (-> & -> & ->); wp_run).
  all: do 2 trace_simpl; cbn [is_interrupted_direct orb];
       rewrite ?orb_false_r; intros Hi.
  all: repeat match goal with
       | H : _ || _ = true |- _ => apply orb_true_iff in H as [H|H]
       end.
  all: try discriminate Hi.
  all: pose proof (interrupted_inv _ Hi) as [Hr He].
  all: repeat match goal with
       | H : (_ =? _) = true |- _ => apply Z.eqb_eq in H
       | H : (_ =? _) = false |- _ => apply Z.eqb_neq in H
       end.
  all: try congruence.
  all: repeat match goal with
       | H : context [errno_after ?a ?e] |- _ =>
           rewrite (errno_after_interrupted a e Hi) in H
       | |- context [errno_after ?a ?e] =>
           rewrite (errno_after_interrupted a e Hi)
       end.
  all: try match goal with
       | H : EINTR = EAGAIN |- _ => discriminate H
       end.
  - split; [reflexivity|]. exists [], (c_select (FileDescriptor this) 2), a.
    eexists. repeat split. exact Hi.
  - split; [reflexivity|]. exists [Sys (c_select (FileDescriptor this) 2) a].
    do 3 eexists. repeat split; [|exact Hi].
    cbn [existsb is_interrupted_direct orb]. rewrite orb_false_r.
    unfold interrupted. destruct (Z.eqb_spec (ret a) (-1)); [|reflexivity].
    congruence.
Qed.

Lemma retried_xioctl_other cl a :
  is_ioctl cl = false -> retried is_xioctl [Sys cl a] = true.
Proof. intros H. destruct cl; try discriminate H; reflexivity. Qed.

Lemma listing_ends_none tr :
  existsb is_ENUM_FMT tr = false -> listing_ends tr = true.
Proof.
  induction tr as [|e tr IH]; [reflexivity|].
  cbn [existsb listing_ends]. intros H.
  apply orb_false_iff in H as [He Ht]. rewrite (IH Ht), Ht.
  destruct (is_listing_end e); reflexivity.
Qed.

Lemma listing_ends_app t1 t2 :
  listing_ends t1 = true -> existsb is_ENUM_FMT t2 = false ->
  listing_ends (t1 ++ t2) = true.
Proof.
  intros H1 H2. induction t1 as [|e t1 IH]; [apply listing_ends_none, H2|].
  cbn [app listing_ends] in *. apply andb_true_iff in H1 as [He H1].
  rewrite (IH H1), andb_true_r. destruct (is_listing_end e); [|reflexivity].
  rewrite existsb_app, H2, orb_false_r. exact He.
Qed.

Lemma listing_ends_after t1 t2 :
  existsb is_ENUM_FMT t1 = false -> listing_ends t2 = true ->
  listing_ends (t1 ++ t2) = true.
Proof.
  intros H1 H2. induction t1 as [|e t1 IH]; [exact H2|].
  cbn [app listing_ends existsb] in *.
  apply orb_false_iff in H1 as [He H1]. rewrite (IH H1), andb_true_r.
  destruct e as [cl a| | | |]; try reflexivity.
  destruct cl; try reflexivity. destruct req; try reflexivity.
  discriminate He.
Qed.

Lemma listing_ends_cons e tr :
  is_ENUM_FMT e = false -> listing_ends (e :: tr) = listing_ends tr.
Proof.
  intros H. cbn [listing_ends].
  destruct e as [cl a| | | |]; try reflexivity.
  destruct cl; try reflexivity. destruct req; try reflexivity.
  discriminate H.
Qed.

Lemma PrintSelf_while_listing answers : forall errno fd indent fmtdesc w tr,
  PrintSelf_while answers errno fd indent fmtdesc = Some (w, tr) ->
  listing_ends tr = true.
Proof.
  induction answers as [|a rest IH]; intros errno fd indent fmtdesc w tr H;
    cbn [PrintSelf_while] in H; [discriminate H|].
  destruct (ret a =? 0) eqn:E.
  - destruct (PrintSelf_while rest _ fd indent _) as [[w1 tr1]|] eqn:E1;
      [|discriminate H].
    injection H as <- <-. cbn [listing_ends is_listing_end].
    rewrite E. exact (IH _ _ _ _ _ _ E1).
  - injection H as <- <-. cbn [listing_ends is_listing_end existsb].
    rewrite E. reflexivity.
Qed.

Lemma PrintSelf_listing indent this w :
  wp (PrintSelf indent)
    (fun _ this' _ tr => this' = this /\ listing_ends tr = true) this w.
Proof.
  unfold PrintSelf. wp_run.
  - unfold wp.
    destruct (PrintSelf_while _ _ _ _ _) as [[w1 tr1]|] eqn:E; [|exact I].
    split; [reflexivity|]. cbn [app listing_ends is_listing_end].
    exact (PrintSelf_while_listing _ _ _ _ _ _ _ E).
  - split; reflexivity.
Qed.

Lemma no_ENUM_FMT_attempts fh req arg answers :
  not_ENUM_FMT req = true ->
  existsb is_ENUM_FMT (attempts fh req arg answers) = false.
Proof.
  intros H. apply existsb_attempts_false. intros a.
  destruct req; first [reflexivity | discriminate H].
Qed.

(** The requirements of the lemmas on the pieces, for the property "no
    [VIDIOC_ENUM_FMT]". *)
Ltac no_ENUM_FMT_pieces :=
  first
    [ reflexivity
    | match goal with
      | H1 : existsb _ _ = false, H2 : existsb _ _ = false |- _ =>
          rewrite existsb_app, H1, H2; reflexivity
      end
    | apply no_ENUM_FMT_attempts; assumption
    | match goal with
      | H : is_ioctl ?cl = false |- _ =>
          destruct cl; first [reflexivity | discriminate H]
      end ].

(** [PrintSelf] is called once, and nothing else lists the formats. *)
Lemma InternalConnect_built_listing _DEBUG this w :
  wp (InternalConnect_built _DEBUG)
    (fun _ _ _ tr => listing_ends tr = true) this w.
Proof.
  assert (Hcrop : emits (fun tr => existsb is_ENUM_FMT tr = false)
                    InternalConnect_crop)
    by (apply emits_InternalConnect_crop with (allowed := not_ENUM_FMT);
        intros; no_ENUM_FMT_pieces).
  assert (Hformat : emits (fun tr => existsb is_ENUM_FMT tr = false)
                      InternalConnect_format)
    by (apply emits_InternalConnect_format with (allowed := not_ENUM_FMT);
        intros; no_ENUM_FMT_pieces).
  unfold InternalConnect_built, stat, open. wp_run.
  all: try (wp_use PrintSelf_listing; intros _ ? ? trP [-> HP]; wp_run).
  all: try (wp_use Hcrop; intros _ ? ? trc Hc; wp_use Hformat;
            intros _ ? ? trf Hf).
  all: rewrite ?app_nil_r; cbn [app]; rewrite ?app_nil_r.
  all: try (rewrite !listing_ends_cons by reflexivity;
            apply listing_ends_after;
            [apply no_ENUM_FMT_attempts; reflexivity|];
            apply listing_ends_app; [exact HP|]).
  all: try apply listing_ends_none.
  all: cbn [existsb is_ENUM_FMT orb];
       rewrite ?existsb_app, ?no_ENUM_FMT_attempts by reflexivity;
       rewrite ?Hc, ?Hf; reflexivity.
Qed.

(** C10, as the code has it: [xioctl] repeats a request as long as it fails
    with [EINTR] and returns the first answer that is not such a failure (it
    returns as soon as the kernel gives one), so that no request made
    through it returns with the failure [EINTR]; and in [InternalConnect],
    [InternalStartRecording], [InternalStopRecording] and the update cycle
    every [ioctl] that fails with [EINTR] is followed at once by the same
    [ioctl].  In a build with [_DEBUG] this holds of every request of
    [InternalConnect] but [VIDIOC_ENUM_FMT], which [PrintSelf] sends with
    [ioctl]: there the first [VIDIOC_ENUM_FMT] that does not return 0, with
    [EINTR] or another error, is the last.  [select] and [read] are not
    repeated either: when one of them fails with [EINTR] in an update cycle,
    it is the last call of the cycle, the error is logged with [EINTR], and
    the cycle fails. *)
Theorem xioctl_retries_EINTR :
  (forall fh req arg this w pre a rest,
     script w = pre ++ a :: rest ->
     forallb interrupted pre = true -> interrupted a = false ->
     exists e',
       xioctl fh req arg this w =
       Some ((ret a, written req arg a), this,
             {| script := rest; errno := errno_after a e' |},
             attempts fh req arg (pre ++ [a]))) /\
  (forall fh req arg this w r arg' this' w' tr,
     xioctl fh req arg this w = Some ((r, arg'), this', w', tr) ->
     ~ (r = -1 /\ errno w' = EINTR)) /\
  emits (fun tr => retried is_ioctl tr = true) InternalConnect /\
  emits (fun tr => retried is_ioctl tr = true) InternalStartRecording /\
  emits (fun tr => retried is_ioctl tr = true) InternalStopRecording /\
  emits (fun tr => retried is_ioctl tr = true) InternalUpdate /\
  emits (fun tr => retried is_xioctl tr = true) (InternalConnect_built true) /\
  emits (fun tr => listing_ends tr = true) (InternalConnect_built true) /\
  (forall this w status this' w' tr,
     InternalUpdate this w = Some (status, this', w', tr) ->
     existsb is_interrupted_direct tr = true ->
     status = PLUS_FAIL /\
     existsb is_EINTR_logged tr = true /\
     exists pre cl a what,
       tr = pre ++ [Sys cl a; Log what (Some EINTR)] /\
       existsb is_interrupted_direct pre = false /\
       is_ioctl cl = false /\ interrupted a = true).
Proof.
  split; [|split]; [| |split; [|split; [|split; [|split]]]];
    [| | | | | |split; [|split]].
  - intros fh req arg this w pre a rest Hs Hpre Ha. unfold xioctl. rewrite Hs.
    destruct (xioctl_loop_first pre a rest (errno w) fh req arg Hpre Ha)
      as [e' ->].
    eauto.
  - intros fh req arg this w r arg' this' w' tr H.
    assert (Hwp : wp (xioctl fh req arg)
                    (fun p _ w' _ => ~ (fst p = -1 /\ errno w' = EINTR))
                    this w).
    { apply wp_xioctl. intros pre a rest e' _ _ Ha [Hr He]. cbn in Hr, He.
      rewrite (errno_after_failed _ _ Hr) in He.
      exact (not_interrupted_failed a Ha Hr He). }
    exact (wp_elim _ _ _ _ _ _ _ _ Hwp H).
  - apply emits_InternalConnect with (allowed := fun _ => true);
      intros; retried_pieces.
  - apply emits_InternalStartRecording with (allowed := fun _ => true);
      intros; retried_pieces.
  - apply emits_InternalStopRecording with (allowed := fun _ => true);
      intros; retried_pieces.
  - apply emits_InternalUpdate with (allowed := fun _ => true);
      intros; retried_pieces.
  - apply emits_InternalConnect_built with (allowed := fun _ => true);
      intros;
      first [ reflexivity
            | apply retried_app; assumption
            | apply retried_xioctl_other; assumption
            | apply retried_attempts; assumption ].
  - intros this w. apply InternalConnect_built_listing.
  - intros this w status this' w' tr H Hi.
    destruct (wp_elim _ _ _ _ _ _ _ _ (InternalUpdate_interrupted this w)
                H Hi) as (Hst & pre & cl & a & what & Htr & Hex).
    split; [exact Hst|]. split; [|eauto 10].
    rewrite Htr, existsb_app. cbn. apply orb_true_r.
Qed.

Lemma xioctl_retries_EINTR_witness :
  exists e',
    xioctl 3 VIDIOC_DQBUF CLEAR_buffer connected_mmap
      (world [failed EINTR; failed EINTR;
              wrote (a_buffer (filled 1 V4L2_MEMORY_MMAP 614400)); ok 0]) =
    Some ((0, filled 1 V4L2_MEMORY_MMAP 614400), connected_mmap,
          {| script := [ok 0]; errno := e' |},
          attempts 3 VIDIOC_DQBUF CLEAR_buffer
            [failed EINTR; failed EINTR;
             wrote (a_buffer (filled 1 V4L2_MEMORY_MMAP 614400))]).
Proof.
  exact (proj1 xioctl_retries_EINTR 3 VIDIOC_DQBUF CLEAR_buffer
           connected_mmap
           (world [failed EINTR; failed EINTR;
                   wrote (a_buffer (filled 1 V4L2_MEMORY_MMAP 614400));
                   ok 0])
           [failed EINTR; failed EINTR]
           (wrote (a_buffer (filled 1 V4L2_MEMORY_MMAP 614400)))
           [ok 0] eq_refl eq_refl eq_refl).
Defined.

(** C10, as it is stated, fails in two places.  In the update cycle of the
    method read, [read] is interrupted, is not called again, and the failure
    is logged with [EINTR] and fails the cycle.  In a build with [_DEBUG],
    [InternalConnect] lists the formats with [ioctl]: the [VIDIOC_ENUM_FMT]
    that is interrupted is not sent again, and the connect goes on. *)
Lemma not_every_call_is_retried :
  (exists w' tr,
     InternalUpdate connected_read (world answers_read_interrupted) =
       Some (PLUS_FAIL, connected_read, w', tr) /\
     retried (fun _ => true) tr = false /\
     existsb is_EINTR_logged tr = true /\
     errno w' = EINTR) /\
  (exists this' w' tr,
     InternalConnect_built true (configured IO_METHOD_MMAP)
       (world (answers_open_listing caps_streaming ++ answers_mmap 4)) =
       Some (PLUS_SUCCESS, this', w', tr) /\
     retried is_ioctl tr = false /\
     count_events is_ENUM_FMT tr = 2%nat).
Proof.
  split.
  - do 2 eexists. vm_compute. auto.
  - do 3 eexists. vm_compute. auto.
Qed.

(** * Buffer set-up *)

(** Runs the model on a concrete input: proves the equation [run = result]
    that heads the goal by evaluation and keeps it as [E]. *)
Ltac run_it E :=
  lazymatch goal with
  | |- ?L = ?R /\ _ =>
      assert (E : L = R) by (vm_compute; reflexivity); split; [exact E|]
  end.

Lemma omap_attempts_none {B} (f : event -> option B) fh req arg answers :
  (forall a, f (Sys (c_ioctl fh req (pack req arg)) a) = None) ->
  omap f (attempts fh req arg answers) = [].
Proof.
  intros H. induction answers as [|a l IH]; [reflexivity|].
  cbn. rewrite H. exact IH.
Qed.

(** Reads the look-ups of a run in an array that is known. *)
Ltac read_Frames :=
  repeat match goal with
  | H : Some _ = Some _ |- _ => injection H as H; try subst
  | H : None = Some _ |- _ => discriminate H
  end.

Lemma InitUserp_spec bufferSize this w :
  wp (InitUserp bufferSize) (fun status this' w' tr =>
       status = PLUS_SUCCESS ->
       BufferCount this' = 4%nat /\
       FramesMem this' = map heap_buffer (mallocs tr) /\
       map fst (mallocs tr) = replicate 4 bufferSize /\
       Frames this' <> NULL /\
       existsb is_teardown tr = false)
    this w.
Proof.
  unfold InitUserp. cbn [InitUserp_for].
  unfold Frames_calloc, Frames_set_length, Frames_set_start, malloc.
  wp_run.
  all: intros Hst; try discriminate Hst.
  cbn [BufferCount FramesMem Frames set_Frames set_FramesMem set_BufferCount app] in *.
  repeat match goal with
       | H : _ !! _ = Some _ |- _ => cbn in H; injection H as <-
       end.
  cbn [FrameBuffer.length FrameBuffer.start insert list_insert replicate].
  unfold mallocs.
  rewrite existsb_app, omap_app.
  rewrite omap_attempts_none, existsb_attempts_false by reflexivity.
  cbn. rewrite Heqb1, Heqb2, Heqb3, Heqb4. cbn.
  repeat split. apply Z.eqb_neq, Heqb0.
Qed.

(** C9: when the set-up of the user-pointer method succeeds, exactly four
    buffers have been allocated with [malloc], each of [bufferSize] bytes;
    they are the four frame buffers and [BufferCount] is 4, whatever count
    the answer to [VIDIOC_REQBUFS] carries. *)
Theorem InitUserp_allocates_four bufferSize this w this' w' tr :
  InitUserp bufferSize this w = Some (PLUS_SUCCESS, this', w', tr) ->
  BufferCount this' = 4%nat /\
  List.length (mallocs tr) = 4%nat /\
  map fst (mallocs tr) = replicate 4 bufferSize /\
  FramesMem this' = map heap_buffer (mallocs tr).
Proof.
  intros H.
  pose proof (wp_elim _ _ _ _ _ _ _ _ (InitUserp_spec bufferSize this w) H)
    as Hq.
  destruct (Hq eq_refl) as (Hn & Hm & Hf & _).
  repeat split; auto.
  rewrite <- (length_map fst), Hf. reflexivity.
Qed.

(** The kernel reports 2 buffers, and 7. *)
Lemma InitUserp_allocates_four_witness :
  exists this' w' tr,
    InitUserp 614400 (configured IO_METHOD_USERPTR)
      (world (answers_userp 2)) = Some (PLUS_SUCCESS, this', w', tr) /\
    BufferCount this' = 4%nat /\
    BufferCount
      (after (InitUserp 614400) (configured IO_METHOD_USERPTR)
         (world (answers_userp 7))) = 4%nat.
Proof.
  do 3 eexists. run_it E.
  split; [|vm_compute; reflexivity].
  exact (proj1 (InitUserp_allocates_four _ _ _ _ _ _ E)).
Defined.

Lemma failed_attempts req fh req' arg pre a :
  forallb interrupted pre = true -> interrupted a = false ->
  existsb (is_failed req) (attempts fh req' arg (pre ++ [a])) =
  bool_decide (req' = req) && (ret a =? -1).
Proof.
  intros Hpre Ha. rewrite existsb_attempts, existsb_app.
  rewrite (existsb_all_false _ interrupted pre Hpre).
  - cbn [existsb is_failed orb]. rewrite orb_false_r.
    unfold interrupted in Ha.
    destruct (bool_decide (req' = req)), (ret a =? -1); cbn in *;
      rewrite ?Ha; reflexivity.
  - intros x [_ Hx]%andb_true_iff. cbn [is_failed].
    rewrite Hx. cbn. apply andb_false_r.
Qed.

Lemma count_events_app f t1 t2 :
  count_events f (t1 ++ t2) = (count_events f t1 + count_events f t2)%nat.
Proof. unfold count_events. rewrite List.filter_app. apply length_app. Qed.

Lemma count_events_attempts_false (f : event -> bool) fh req arg answers :
  (forall a, f (Sys (c_ioctl fh req (pack req arg)) a) = false) ->
  count_events f (attempts fh req arg answers) = 0%nat.
Proof.
  intros H. unfold count_events.
  induction answers as [|a l IH]; [reflexivity|]. cbn. rewrite H. exact IH.
Qed.

Lemma existsb_attempts_last (f : event -> bool) fh req arg pre a :
  forallb interrupted pre = true ->
  (forall x, (ret x =? -1) = true ->
             f (Sys (c_ioctl fh req (pack req arg)) x) = false) ->
  existsb f (attempts fh req arg (pre ++ [a])) =
  f (Sys (c_ioctl fh req (pack req arg)) a).
Proof.
  intros Hpre Hf. rewrite existsb_attempts, existsb_app.
  rewrite (existsb_all_false _ interrupted pre Hpre).
  - cbn. apply orb_false_r.
  - intros x Hx. apply Hf, interrupted_failed, Hx.
Qed.

Lemma grants_few_REQBUFS fh arg pre a :
  forallb interrupted pre = true ->
  existsb grants_few (attempts fh VIDIOC_REQBUFS arg (pre ++ [a])) =
  negb (ret a =? -1) && (count (written VIDIOC_REQBUFS arg a) <? 2)%nat.
Proof.
  intros Hpre. rewrite existsb_attempts_last; [reflexivity|exact Hpre|].
  intros x Hx. cbn. rewrite Hx. reflexivity.
Qed.

Lemma omap_attempts_last {B} (f : event -> option B) fh req arg pre a :
  forallb interrupted pre = true ->
  (forall x, (ret x =? -1) = true ->
             f (Sys (c_ioctl fh req (pack req arg)) x) = None) ->
  omap f (attempts fh req arg (pre ++ [a])) =
  match f (Sys (c_ioctl fh req (pack req arg)) a) with
  | Some y => [y]
  | None => []
  end.
Proof.
  intros Hpre Hf. unfold attempts. rewrite map_app, omap_app.
  assert (Hnil : omap f (map (Sys (c_ioctl fh req (pack req arg))) pre) = []).
  { induction pre as [|x pre IH]; [reflexivity|].
    cbn [forallb] in Hpre. apply andb_true_iff in Hpre as [Hx Hpre].
    cbn. rewrite (Hf x (interrupted_failed x Hx)). auto. }
  rewrite Hnil. cbn. destruct (f _); reflexivity.
Qed.

Lemma grants_REQBUFS fh arg pre a :
  forallb interrupted pre = true ->
  grants (attempts fh VIDIOC_REQBUFS arg (pre ++ [a])) =
  if ret a =? -1 then [] else [count (written VIDIOC_REQBUFS arg a)].
Proof.
  intros Hpre. unfold grants. rewrite omap_attempts_last; [|exact Hpre|].
  - cbn. destruct (ret a =? -1); reflexivity.
  - intros x Hx. cbn. rewrite Hx. reflexivity.
Qed.

Lemma grants_cons e t :
  grants (e :: t) =
  match grant_of e with Some n => n :: grants t | None => grants t end.
Proof. reflexivity. Qed.

Lemma grants_app t1 t2 : grants (t1 ++ t2) = grants t1 ++ grants t2.
Proof. apply omap_app. Qed.

Lemma grants_other fh req arg answers :
  req <> VIDIOC_REQBUFS -> grants (attempts fh req arg answers) = [].
Proof.
  intros H. apply omap_attempts_none. intros a. destruct req; try reflexivity.
  contradiction.
Qed.

(** Uses the tests [x =? y] made along the path. *)
Ltac use_eqb :=
  repeat match goal with
  | H : (?x =? ?y) = _ |- context [?y =? ?x] => rewrite (Z.eqb_sym y x), H
  | H : (?x =? ?y) = _ |- context [?x =? ?y] => rewrite H
  | H : (?x <? ?y)%nat = _ |- context [(?x <? ?y)%nat] => rewrite H
  end;
  cbn [andb orb negb].

(** Normal form of the counts and tests over the calls of a run. *)
Ltac events_simpl :=
  cbn [app]; rewrite ?app_nil_r;
  repeat first
    [ rewrite existsb_app | rewrite count_events_app | rewrite grants_app
    | rewrite grants_REQBUFS by assumption
    | rewrite grants_other by discriminate
    | rewrite failed_attempts by assumption
    | rewrite grants_few_REQBUFS by assumption
    | match goal with
      | |- context [existsb ?f (attempts ?fh ?req ?arg ?l)] =>
          rewrite (existsb_attempts_false f fh req arg l)
            by (intros; reflexivity)
      | |- context [count_events ?f (attempts ?fh ?req ?arg ?l)] =>
          rewrite (count_events_attempts_false f fh req arg l)
            by (intros; reflexivity)
      end ];
  repeat match goal with
  | |- context [bool_decide (?a = ?b)] =>
      let v := eval vm_compute in (bool_decide (a = b)) in
      change (bool_decide (a = b)) with v
  end;
  use_eqb; cbn -[grants handoffs];
  repeat first [ rewrite grants_cons | rewrite handoffs_cons ];
  change (grants []) with (@nil nat) in *;
  change (handoffs []) with (@nil handoff) in *;
  cbn -[grants handoffs]; use_eqb.

Lemma InitMmap_for_spec remaining : forall this w,
  wp (InitMmap_for remaining) (fun status this' w' tr =>
       (status = PLUS_FAIL <-> existsb (is_failed VIDIOC_QUERYBUF) tr = true) /\
       existsb (is_failed VIDIOC_REQBUFS) tr = false /\
       existsb grants_few tr = false /\
       existsb is_calloc_failed tr = false /\
       grants tr = [] /\
       count_events is_mmap_logged tr = count_events is_mmap_failed tr /\
       List.length (FramesMem this') = List.length (FramesMem this) /\
       Frames this' = Frames this /\
       (status = PLUS_SUCCESS ->
        BufferCount this' = (BufferCount this + remaining)%nat /\
        count_events is_mmap tr = remaining))
    this w.
Proof.
  induction remaining as [|n IH]; intros this w; cbn [InitMmap_for].
  - wp_run. cbn. repeat split; try discriminate; auto.
  - unfold Frames_set_length, Frames_set_start, mmap. wp_run.
    all: try (wp_use IH;
              intros status this' w' tr (Hq & Hr & Hg & Hc & Hgr & Hl & Hm & Hf & Hs')).
    all: events_simpl.
    all: cbn [set_BufferCount set_FramesMem set_Frames BufferCount FramesMem
              Frames] in *;
      rewrite ?length_insert in *.
    1: { repeat split; try discriminate; auto. }
    all: unfold count_events in *; cbn [List.length].
    all: repeat split; try tauto; try lia.
    all: try (intros Hx; destruct (Hs' Hx); lia).
    all: try (destruct (Hs' ltac:(assumption)); lia).
Qed.

Lemma InitMmap_spec this w :
  wp InitMmap (fun status this' w' tr =>
       (status = PLUS_FAIL <-> InitMmap_failure tr = true) /\
       count_events is_mmap_logged tr = count_events is_mmap_failed tr /\
       (status = PLUS_SUCCESS ->
        (2 <= BufferCount this')%nat /\
        grants tr = [BufferCount this'] /\
        count_events is_mmap tr = BufferCount this' /\
        List.length (FramesMem this') = BufferCount this' /\
        Frames this' <> NULL))
    this w.
Proof.
  unfold InitMmap, Frames_calloc. wp_run.
  all: try (wp_use InitMmap_for_spec;
            intros status this' w' tr (Hq & Hr & Hg & Hc & Hgr & Hl & Hm & Hf & Hs')).
  all: unfold InitMmap_failure; events_simpl.
  1-4: repeat split; try discriminate; auto.
  rewrite Hr, Hg, Hc. cbn [orb]. unfold count_events in *.
  split; [exact Hq|]. split; [exact Hl|].
  intros Hx. destruct (Hs' Hx) as [Hb Hn].
  cbn [set_BufferCount set_Frames BufferCount FramesMem Frames] in *.
  rewrite length_replicate in Hm. apply Nat.ltb_ge in Heqb0.
  rewrite Hn, Hm, Hf, Hb, Hgr. repeat split; auto.
  apply Z.eqb_neq. assumption.
Qed.



(** * Resources *)

Lemma acquired_app t1 t2 : acquired (t1 ++ t2) = acquired t1 ++ acquired t2.
Proof. apply omap_app. Qed.

Lemma released_app t1 t2 : released (t1 ++ t2) = released t1 ++ released t2.
Proof. apply omap_app. Qed.

Lemma acquired_cons e t :
  acquired (e :: t) =
  match acquire_of e with Some r => r :: acquired t | None => acquired t end.
Proof. reflexivity. Qed.

Lemma released_cons e t :
  released (e :: t) =
  match release_of e with Some r => r :: released t | None => released t end.
Proof. reflexivity. Qed.

Lemma acquired_attempts fh req arg answers :
  acquired (attempts fh req arg answers) = [].
Proof. apply omap_attempts_none. reflexivity. Qed.

Lemma released_attempts fh req arg answers :
  released (attempts fh req arg answers) = [].
Proof. apply omap_attempts_none. reflexivity. Qed.

(** Normal form of the resources taken and given back along a run. *)
Ltac resources_simpl :=
  cbn [app]; rewrite ?app_nil_r;
  repeat first
    [ rewrite acquired_app | rewrite released_app
    | rewrite acquired_attempts | rewrite released_attempts
    | rewrite acquired_cons | rewrite released_cons ];
  change (acquired []) with (@nil resource) in *;
  change (released []) with (@nil resource) in *;
  cbn [acquire_of release_of app]; use_eqb.

Lemma InitRead_resources size this w :
  wp (InitRead size) (fun status this' w' tr =>
       released tr = [] /\
       FileDescriptor this' = FileDescriptor this /\
       IOMethod this' = IOMethod this /\
       RequestedFormat this' = RequestedFormat this /\
       BufferCount this' = BufferCount this /\
       (status = PLUS_SUCCESS ->
        acquired tr =
          Block (Frames this')
          :: omap (buffer_acquired IO_METHOD_READ) (FramesMem this') /\
        List.length (FramesMem this') = 1%nat))
    this w.
Proof.
  unfold InitRead, Frames_calloc, Frames_set_length, Frames_set_start, malloc.
  wp_run.
  all: resources_simpl; object_simpl.
  all: repeat split; try discriminate; try reflexivity.
  all: cbn in *; read_Frames; reflexivity.
Qed.

Lemma InitUserp_resources size this w :
  wp (InitUserp size) (fun status this' w' tr =>
       released tr = [] /\
       FileDescriptor this' = FileDescriptor this /\
       IOMethod this' = IOMethod this /\
       RequestedFormat this' = RequestedFormat this /\
       (status = PLUS_SUCCESS ->
        acquired tr =
          Block (Frames this')
          :: omap (buffer_acquired IO_METHOD_USERPTR) (FramesMem this') /\
        List.length (FramesMem this') = 4%nat /\
        BufferCount this' = 4%nat))
    this w.
Proof.
  unfold InitUserp. cbn [InitUserp_for].
  unfold Frames_calloc, Frames_set_length, Frames_set_start, malloc.
  wp_run.
  all: resources_simpl.
  all: object_simpl.
  all: split; [reflexivity|]; split; [reflexivity|]; split; [reflexivity|].
  all: split; [reflexivity|].
  all: intros Hst; try discriminate Hst.
  repeat match goal with
  | H : _ !! _ = Some _ |- _ => cbn in H; injection H as <-
  end.
  cbn. auto.
Qed.

Lemma insert_middle {A} (done : list A) x y rest :
  <[List.length done := y]> (done ++ x :: rest) = done ++ y :: rest.
Proof.
  rewrite insert_app_r_alt by lia. rewrite Nat.sub_diag. reflexivity.
Qed.

Lemma InitMmap_for_resources remaining : forall this w done,
  FramesMem this = done ++ replicate remaining zero_FrameBuffer ->
  List.length done = BufferCount this ->
  wp (InitMmap_for remaining) (fun status this' w' tr =>
       released tr = [] /\
       FileDescriptor this' = FileDescriptor this /\
       IOMethod this' = IOMethod this /\
       RequestedFormat this' = RequestedFormat this /\
       Frames this' = Frames this /\
       (status = PLUS_SUCCESS ->
        exists new,
          FramesMem this' = done ++ new /\
          acquired tr = omap (buffer_acquired IO_METHOD_MMAP) new /\
          BufferCount this' = List.length (FramesMem this')))
    this w.
Proof.
  induction remaining as [|n IH]; intros this w done Hmem Hlen;
    cbn [InitMmap_for].
  - wp_run. repeat split; auto. intros _. exists []. cbn in Hmem.
    rewrite Hmem, !app_nil_r. auto.
  - unfold Frames_set_length, Frames_set_start, mmap. wp_run.
    1: { resources_simpl. repeat split; auto. discriminate. }
    all: rewrite Hmem, <- Hlen in *; cbn [replicate] in *.
    all: rewrite list_lookup_middle in Hfb by reflexivity;
      injection Hfb as <-.
    all: rewrite insert_middle in *.
    all: rewrite list_lookup_middle in Hfb0 by reflexivity;
      injection Hfb0 as <-.
    all: rewrite insert_middle.
    all: match goal with
         | |- wp _ _ ?o _ =>
             match o with
             | context [?d ++ ?fb :: replicate _ _] =>
                 eapply wp_mono;
                   [ eapply (IH o _ (d ++ [fb]));
                     [ object_simpl; rewrite <- app_assoc; reflexivity
                     | object_simpl; rewrite length_app; cbn; lia ]
                   | cbn beta;
                     intros status this' w' tr
                       (Hr & Hfd & Hio & Hrf & Hf & Hs') ]
             end
         end.
    all: object_simpl; resources_simpl; rewrite Hr.
    all: repeat split; auto.
    all: intros Hst; destruct (Hs' Hst) as (new & Hn & Ha' & Hb).
    all: rewrite <- app_assoc in Hn; eexists; split; [exact Hn|].
    all: split; [|exact Hb].
    all: cbn [app omap list_omap buffer_acquired FrameBuffer.start
              FrameBuffer.length]; use_eqb; rewrite Ha'; reflexivity.
Qed.

Lemma InitMmap_resources this w :
  wp InitMmap (fun status this' w' tr =>
       released tr = [] /\
       FileDescriptor this' = FileDescriptor this /\
       IOMethod this' = IOMethod this /\
       RequestedFormat this' = RequestedFormat this /\
       (status = PLUS_SUCCESS ->
        acquired tr =
          Block (Frames this')
          :: omap (buffer_acquired IO_METHOD_MMAP) (FramesMem this') /\
        BufferCount this' = List.length (FramesMem this')))
    this w.
Proof.
  unfold InitMmap, Frames_calloc. wp_run.
  5: eapply wp_mono;
       [ eapply (InitMmap_for_resources _ _ _ []);
         [ object_simpl; reflexivity | reflexivity ]
       | cbn beta;
         intros status this' w' tr (Hr & Hfd & Hio & Hrf & Hf & Hs') ].
  all: object_simpl; resources_simpl; rewrite ?Hr.
  all: repeat split; try discriminate; auto.
  all: destruct (Hs' ltac:(assumption)) as (new & Hn & Ha' & Hb).
  all: cbn [app] in Hn; rewrite ?Hn, ?Ha', ?Hf; auto.
  rewrite <- Hn; exact Hb.
Qed.

Lemma InternalConnect_resources this w :
  wp InternalConnect (fun status this' w' tr =>
       released tr = [] /\
       IOMethod this' = IOMethod this /\
       (status = PLUS_SUCCESS ->
        acquired tr =
          Descriptor (FileDescriptor this')
          :: Block (Frames this')
          :: omap (buffer_acquired (IOMethod this)) (FramesMem this') /\
        BufferCount this' =
          BufferCount_connected (IOMethod this) (BufferCount this)
            (FramesMem this') /\
        (IOMethod this = IO_METHOD_READ ->
         List.length (FramesMem this') = 1%nat) /\
        (IOMethod this = IO_METHOD_USERPTR ->
         List.length (FramesMem this') = 4%nat) /\
        IOMethod this <> IO_METHOD_UNKNOWN))
    this w.
Proof.
  unfold InternalConnect, InternalConnect_built, InternalConnect_crop,
    InternalConnect_format,
    stat, open.
  wp_run.
  all: try (wp_use InitRead_resources;
            intros status this' w' tr (Hr & Hfd & Hio & Hrf & Hbc & Hs'));
       try (wp_use InitUserp_resources;
            intros status this' w' tr (Hr & Hfd & Hio & Hrf & Hs'));
       try (wp_use InitMmap_resources;
            intros status this' w' tr (Hr & Hfd & Hio & Hrf & Hs')).
  all: object_simpl; resources_simpl; rewrite ?Hr.
  all: split; [reflexivity|]; split; [try solve [auto]; congruence|].
  all: intros Hst; try discriminate Hst.
  all: destruct (Hs' Hst) as (Hacq & Hrest); rewrite Hacq, Hfd.
  all: cbn [BufferCount_connected].
  all: repeat split; try discriminate; intuition auto.
Qed.

Lemma munmap_for_spec n : forall i this w,
  wp (munmap_for n i) (fun status this' w' tr =>
       this' = this /\ acquired tr = [] /\
       (status = PLUS_SUCCESS ->
        released tr =
          map (buffer_resource IO_METHOD_MMAP)
            (take n (drop i (FramesMem this)))))
    this w.
Proof.
  induction n as [|n IH]; intros i this w; cbn [munmap_for].
  - wp_run. auto.
  - unfold munmap. wp_run.
    2: wp_use (IH (S i)); intros status this' w' tr (-> & Hacq & Hs').
    all: resources_simpl; rewrite ?Hacq.
    all: repeat split; try discriminate; auto.
    intros Hst. rewrite (Hs' Hst), (drop_S _ _ _ Hfb). reflexivity.
Qed.

Lemma free_for_spec n : forall i this w,
  wp (free_for n i) (fun _ this' w' tr =>
       this' = this /\ acquired tr = [] /\
       released tr =
         map (buffer_resource IO_METHOD_USERPTR)
           (take n (drop i (FramesMem this))))
    this w.
Proof.
  induction n as [|n IH]; intros i this w; cbn [free_for].
  - wp_run. auto.
  - wp_run.
    wp_use (IH (S i)); intros _ this' w' tr (-> & Hacq & Hrel).
    resources_simpl. rewrite Hacq, Hrel, (drop_S _ _ _ Hfb). auto.
Qed.

Lemma InternalDisconnect_spec this w :
  wp InternalDisconnect (fun status this' w' tr =>
       acquired tr = [] /\
       (status = PLUS_SUCCESS ->
        this' = set_FileDescriptor (-1) this /\
        released tr =
          map (buffer_resource (IOMethod this))
            (take (buffers_released this) (FramesMem this))
          ++ [Block (Frames this); Descriptor (FileDescriptor this)]))
    this w.
Proof.
  unfold InternalDisconnect, close, buffers_released. wp_run.
  all: try (wp_use munmap_for_spec; intros status this' w' tr (-> & Hacq & Hs'));
       try (wp_use free_for_spec; intros _ this' w' tr (-> & Hacq & Hrel)).
  all: wp_run.
  all: resources_simpl; rewrite ?Hacq.
  all: split; [reflexivity|]; intros Hst; try discriminate Hst.
  all: split; [reflexivity|].
  - destruct (FramesMem this) as [|fb' l]; [discriminate Hfb|].
    injection Hfb as ->. reflexivity.
  - rewrite Hs' by assumption. reflexivity.
  - rewrite Hrel. reflexivity.
  - reflexivity.
Qed.


Lemma buffers_acquired_sublist method (frames : list FrameBuffer.t) :
  omap (buffer_acquired method) frames
    `sublist_of` map (buffer_resource method) frames.
Proof.
  induction frames as [|fb frames IH]; [constructor|].
  destruct method; cbn in *; try (constructor; exact IH).
  destruct (_ =? _); constructor; exact IH.
Qed.

(** C3, as the code has it: after a successful [InternalConnect], an
    [InternalDisconnect] that returns success releases every frame buffer
    (with [munmap] for the method mmap, with [free] otherwise), in the order
    of the array, then frees the array, then closes the descriptor and sets
    [FileDescriptor] to -1.  [InternalConnect] has acquired the descriptor,
    then the array, then the buffers, and all of it is released: nothing
    stays mapped or allocated.  [BufferCount] is not reset: it is what the
    buffer set-up made it ([InitRead] does not assign it, [InitMmap] makes it
    the number of buffers granted, [InitUserp] makes it 4). *)
Theorem Disconnect_releases_what_Connect_acquired
    this w this1 w1 tr1 this2 w2 tr2 :
  InternalConnect this w = Some (PLUS_SUCCESS, this1, w1, tr1) ->
  InternalDisconnect this1 w1 = Some (PLUS_SUCCESS, this2, w2, tr2) ->
  acquired tr1 =
    [Descriptor (FileDescriptor this1); Block (Frames this1)]
    ++ omap (buffer_acquired (IOMethod this)) (FramesMem this1) /\
  released tr2 =
    map (buffer_resource (IOMethod this)) (FramesMem this1)
    ++ [Block (Frames this1); Descriptor (FileDescriptor this1)] /\
  acquired tr1 ⊆+ released tr2 /\
  released tr1 = [] /\ acquired tr2 = [] /\
  FileDescriptor this2 = -1 /\
  BufferCount this2 =
    BufferCount_connected (IOMethod this) (BufferCount this)
      (FramesMem this1).
Proof.
  intros H1 H2.
  pose proof (wp_elim _ _ _ _ _ _ _ _ (InternalConnect_resources this w) H1)
    as Hc.
  pose proof (wp_elim _ _ _ _ _ _ _ _ (InternalDisconnect_spec this1 w1) H2)
    as Hd.
  cbn beta in Hc, Hd.
  destruct Hc as (Hr1 & Hio & Hc).
  destruct (Hc eq_refl) as (Ha1 & Hbc & Hrd & Hup & Hun).
  destruct Hd as (Ha2 & Hd). destruct (Hd eq_refl) as (-> & Hr2).
  assert (Hall : take (buffers_released this1) (FramesMem this1)
                 = FramesMem this1).
  { unfold buffers_released. rewrite Hio.
    unfold BufferCount_connected in Hbc.
    destruct (IOMethod this) eqn:Hm; cbn beta iota.
    - rewrite <- (Hrd eq_refl). apply firstn_all.
    - rewrite Hbc. apply firstn_all.
    - rewrite Hbc, <- (Hup eq_refl). apply firstn_all.
    - contradiction. }
  rewrite Hall, Hio in Hr2.
  split; [exact Ha1|]. split; [exact Hr2|]. split.
  - rewrite Ha1, Hr2.
    transitivity ([Descriptor (FileDescriptor this1); Block (Frames this1)]
                  ++ map (buffer_resource (IOMethod this)) (FramesMem this1)).
    + apply (submseteq_skips_l [_; _]), sublist_submseteq,
        buffers_acquired_sublist.
    + apply Permutation_submseteq.
      rewrite (Permutation_app_comm _ [_; _]). cbn. apply perm_swap.
  - repeat split; auto.
Qed.

Lemma Disconnect_releases_what_Connect_acquired_witness :
  exists this1 w1 tr1 this2 w2 tr2,
    InternalConnect (configured IO_METHOD_MMAP)
      (world (answers_open caps_streaming ++ answers_mmap 4
              ++ [ok 0; ok 0; ok 0; ok 0; ok 0])) =
      Some (PLUS_SUCCESS, this1, w1, tr1) /\
    InternalDisconnect this1 w1 = Some (PLUS_SUCCESS, this2, w2, tr2) /\
    acquired tr1 ⊆+ released tr2 /\
    FileDescriptor this2 = -1.
Proof.
  do 6 eexists. run_it E1. run_it E2.
  destruct (Disconnect_releases_what_Connect_acquired _ _ _ _ _ _ _ _ E1 E2)
    as (_ & _ & Hsub & _ & _ & Hfd & _).
  split; [exact Hsub | exact Hfd].
Defined.

(** C3, as it is stated, fails on [BufferCount]: with the user-pointer
    method it is 4 after connect and disconnect, not 0. *)
Lemma Disconnect_keeps_BufferCount :
  exists this1 w1 tr1 this2 w2 tr2,
    BufferCount (configured IO_METHOD_USERPTR) = 0%nat /\
    InternalConnect (configured IO_METHOD_USERPTR)
      (world answers_userp_session) =
      Some (PLUS_SUCCESS, this1, w1, tr1) /\
    InternalDisconnect this1 w1 = Some (PLUS_SUCCESS, this2, w2, tr2) /\
    BufferCount this2 = 4%nat /\
    BufferCount this2 <> 0%nat.
Proof.
  do 6 eexists. split; [reflexivity|].
  split; [vm_compute; reflexivity|].
  split; [vm_compute; reflexivity|].
  split; [reflexivity | discriminate].
Qed.

(** * Connect *)

Lemma reports_without_QUERYCAP flag fh arg pre a :
  forallb interrupted pre = true ->
  existsb (reports_without flag) (attempts fh VIDIOC_QUERYCAP arg (pre ++ [a]))
  = negb (ret a =? -1)
    && lacks (capabilities (written VIDIOC_QUERYCAP arg a)) flag.
Proof.
  intros Hpre. rewrite existsb_attempts_last; [reflexivity|exact Hpre|].
  intros x Hx. cbn. rewrite Hx. reflexivity.
Qed.

Lemma wp_and {A} (x : M A) (Q1 Q2 : A -> _ -> _ -> _ -> Prop) this w :
  wp x Q1 this w -> wp x Q2 this w ->
  wp x (fun a this' w' tr => Q1 a this' w' tr /\ Q2 a this' w' tr) this w.
Proof.
  unfold wp. destruct (x this w) as [[[[a this'] w'] tr]|]; auto.
Qed.

(** The requirements of the lemmas on the pieces, for the property "no
    event of the kind [f]". *)
Ltac no_event_pieces :=
  first
    [ reflexivity
    | match goal with
      | H1 : existsb _ _ = false, H2 : existsb _ _ = false |- _ =>
          rewrite existsb_app, H1, H2; reflexivity
      end
    | match goal with
      | |- existsb _ (attempts _ ?req _ _) = false =>
          apply existsb_attempts_false; intros; destruct req;
            first [reflexivity | discriminate]
      end
    | match goal with
      | |- existsb _ [Sys ?cl _] = false =>
          destruct cl; first [reflexivity | discriminate]
      end ].

(** The buffer set-up does not ask for the capabilities. *)
Lemma Init_no_QUERYCAP flag size :
  emits (fun tr => existsb (reports_without flag) tr = false) (InitRead size)
  /\ emits (fun tr => existsb (reports_without flag) tr = false) InitMmap
  /\ emits (fun tr => existsb (reports_without flag) tr = false)
       (InitUserp size).
Proof.
  repeat split.
  - apply emits_InitRead; intros; no_event_pieces.
  - apply emits_InitMmap
      with (allowed := fun r =>
              match r with VIDIOC_QUERYCAP => false | _ => true end);
      intros; no_event_pieces.
  - apply emits_InitUserp
      with (allowed := fun r =>
              match r with VIDIOC_QUERYCAP => false | _ => true end);
      intros; no_event_pieces.
Qed.

(** When the device lacks the capability the method needs, [InternalConnect]
    fails and the descriptor stays open, in [FileDescriptor]. *)
Lemma InternalConnect_unsupported this w :
  wp InternalConnect (fun status this' w' tr =>
       forall flag, required_flag (IOMethod this) = Some flag ->
       existsb (reports_without flag) tr = true ->
       status = PLUS_FAIL /\
       released tr = [] /\
       acquired tr = [Descriptor (FileDescriptor this')] /\
       FileDescriptor this' <> -1)
    this w.
Proof.
  unfold InternalConnect, InternalConnect_built, InternalConnect_crop,
    InternalConnect_format,
    stat, open.
  wp_run.
  all: try (eapply wp_mono;
            [ apply wp_and;
              [ apply InitRead_resources
              | apply (proj1 (Init_no_QUERYCAP V4L2_CAP_READWRITE _)) ]
            | cbn beta;
              intros status this' w' tr
                ((Hr & Hfd & Hio & Hrf & Hbc & Hs') & Hq) ]);
       try (eapply wp_mono;
            [ apply wp_and;
              [ apply InitUserp_resources
              | apply (proj2 (proj2 (Init_no_QUERYCAP V4L2_CAP_STREAMING _))) ]
            | cbn beta;
              intros status this' w' tr ((Hr & Hfd & Hio & Hrf & Hs') & Hq) ]);
       try (eapply wp_mono;
            [ apply wp_and;
              [ apply InitMmap_resources
              | apply (proj1 (proj2 (Init_no_QUERYCAP V4L2_CAP_STREAMING 0))) ]
            | cbn beta;
              intros status this' w' tr ((Hr & Hfd & Hio & Hrf & Hs') & Hq) ]).
  all: intros flag Hflag.
  all: try (cbn [required_flag] in Hflag;
            first [discriminate Hflag | injection Hflag as <-]).
  all: cbn [app]; rewrite ?app_nil_r.
  all: repeat first
         [ rewrite existsb_app
         | rewrite reports_without_QUERYCAP by assumption
         | match goal with
           | |- context [existsb ?f (attempts ?fh ?req ?arg ?l)] =>
               rewrite (existsb_attempts_false f fh req arg l)
                 by (intros; reflexivity)
           end
         | progress cbn [existsb reports_without orb] ].
  all: resources_simpl; rewrite ?Hr, ?Hq.
  all: use_eqb; rewrite ?orb_false_r.
  all: try (intros Hx; discriminate Hx).
  all: intros Hl; try congruence.
  all: repeat split.
  all: intros Hx; rewrite Hx in *; discriminate.
Qed.

(** The requirements of the lemmas on the pieces, for the property "no
    event that [f] selects". *)
Ltac no_omap_pieces :=
  first
    [ reflexivity
    | match goal with
      | H1 : omap _ _ = [], H2 : omap _ _ = [] |- _ =>
          rewrite omap_app, H1, H2; reflexivity
      end
    | match goal with
      | |- omap _ (attempts _ ?req _ _) = [] =>
          apply omap_attempts_none; intros; destruct req;
            first [reflexivity | discriminate]
      end
    | match goal with
      | |- omap _ [Sys ?cl _] = [] =>
          destruct cl; first [reflexivity | discriminate]
      end ].

(** The buffer set-up does not touch the format of the device. *)
Lemma Init_no_format size :
  (emits (fun tr => omap reported_of tr = []) (InitRead size)
   /\ emits (fun tr => omap reported_of tr = []) InitMmap
   /\ emits (fun tr => omap reported_of tr = []) (InitUserp size))
  /\ (emits (fun tr => omap configured_of tr = []) (InitRead size)
      /\ emits (fun tr => omap configured_of tr = []) InitMmap
      /\ emits (fun tr => omap configured_of tr = []) (InitUserp size)).
Proof.
  repeat split.
  - apply emits_InitRead; intros; no_omap_pieces.
  - apply emits_InitMmap with (allowed := not_a_format);
      intros; no_omap_pieces.
  - apply emits_InitUserp with (allowed := not_a_format);
      intros; no_omap_pieces.
  - apply emits_InitRead; intros; no_omap_pieces.
  - apply emits_InitMmap with (allowed := not_a_format);
      intros; no_omap_pieces.
  - apply emits_InitUserp with (allowed := not_a_format);
      intros; no_omap_pieces.
Qed.

Lemma reported_G_FMT fh arg pre a :
  forallb interrupted pre = true ->
  omap reported_of (attempts fh VIDIOC_G_FMT arg (pre ++ [a])) =
  if ret a =? -1 then [] else [written VIDIOC_G_FMT arg a].
Proof.
  intros Hpre. rewrite omap_attempts_last; [|exact Hpre|].
  - cbn. destruct (ret a =? -1); reflexivity.
  - intros x Hx. cbn. rewrite Hx. reflexivity.
Qed.

Lemma configured_S_FMT fh arg pre a :
  forallb interrupted pre = true ->
  omap configured_of (attempts fh VIDIOC_S_FMT arg (pre ++ [a])) =
  if ret a =? -1 then [] else [(arg, written VIDIOC_S_FMT arg a)].
Proof.
  intros Hpre. rewrite omap_attempts_last; [|exact Hpre|].
  - cbn. destruct (ret a =? -1); reflexivity.
  - intros x Hx. cbn. rewrite Hx. reflexivity.
Qed.

(** Whenever [InternalConnect] succeeds, it has asked the device for its
    format once, has then asked it to take the hard-coded picture size,
    encoding and field order, and holds in [RequestedFormat] what the device
    has answered to that, whatever [ForceFormat] is. *)
Lemma InternalConnect_format_forced this w :
  wp InternalConnect (fun status this' w' tr =>
       status = PLUS_SUCCESS ->
       exists reported,
         omap reported_of tr = [reported] /\
         omap configured_of tr =
           [(hard_coded reported, RequestedFormat this')])
    this w.
Proof.
  unfold InternalConnect, InternalConnect_built, InternalConnect_crop,
    InternalConnect_format,
    stat, open.
  wp_run.
  all: try (eapply wp_mono;
            [ apply wp_and;
              [ apply InitRead_resources
              | apply wp_and;
                [ apply (proj1 (proj1 (Init_no_format _)))
                | apply (proj1 (proj2 (Init_no_format _))) ] ]
            | cbn beta;
              intros status this' w' tr
                ((Hr & Hfd & Hio & Hrf & Hbc & Hs') & Hg & Hc) ]);
       try (eapply wp_mono;
            [ apply wp_and;
              [ apply InitUserp_resources
              | apply wp_and;
                [ apply (proj2 (proj2 (proj1 (Init_no_format _))))
                | apply (proj2 (proj2 (proj2 (Init_no_format _)))) ] ]
            | cbn beta;
              intros status this' w' tr
                ((Hr & Hfd & Hio & Hrf & Hs') & Hg & Hc) ]);
       try (eapply wp_mono;
            [ apply wp_and;
              [ apply InitMmap_resources
              | apply wp_and;
                [ apply (proj1 (proj2 (proj1 (Init_no_format 0))))
                | apply (proj1 (proj2 (proj2 (Init_no_format 0)))) ] ]
            | cbn beta;
              intros status this' w' tr
                ((Hr & Hfd & Hio & Hrf & Hs') & Hg & Hc) ]).
  all: intros Hst; try discriminate Hst.
  all: cbn [app]; rewrite ?app_nil_r.
  all: repeat first
         [ rewrite omap_app
         | rewrite reported_G_FMT by assumption
         | rewrite configured_S_FMT by assumption
         | match goal with
           | |- context [omap ?f (attempts ?fh ?req ?arg ?l)] =>
               rewrite (omap_attempts_none f fh req arg l)
                 by (intros; reflexivity)
           end
         | progress cbn [omap list_omap reported_of configured_of app] ].
  all: use_eqb; rewrite ?Hg, ?Hc; object_simpl; rewrite Hrf, ?app_nil_r.
  all: eexists; split; reflexivity.
Qed.

Lemma InternalConnect_format_run this w this' w' tr :
  InternalConnect this w = Some (PLUS_SUCCESS, this', w', tr) ->
  exists reported,
    omap reported_of tr = [reported] /\
    omap configured_of tr = [(hard_coded reported, RequestedFormat this')].
Proof.
  intros H.
  exact (wp_elim _ _ _ _ _ _ _ _ (InternalConnect_format_forced this w) H
           eq_refl).
Qed.

(** C1, at a connect with [ForceFormat] false: the device reports
    1280x720 MJPG, the class asks for 640x480 YUYV interlaced all the same,
    and the format it holds after connect is not the one reported. *)
Theorem Connect_overrides_reported_format :
  exists this' w' tr,
    ForceFormat (configured IO_METHOD_MMAP) = false /\
    InternalConnect (configured IO_METHOD_MMAP)
      (world (answers_open caps_streaming ++ answers_mmap 4)) =
      Some (PLUS_SUCCESS, this', w', tr) /\
    omap reported_of tr = [format_1280x720_MJPG] /\
    map fst (omap configured_of tr) = [hard_coded format_1280x720_MJPG] /\
    RequestedFormat this' = format_640x480_YUYV /\
    same_picture (RequestedFormat this') format_1280x720_MJPG = false.
Proof. do 3 eexists. vm_compute. auto 10. Qed.

Lemma InternalConnect_unsupported_run this w status this' w' tr flag :
  InternalConnect this w = Some (status, this', w', tr) ->
  required_flag (IOMethod this) = Some flag ->
  existsb (reports_without flag) tr = true ->
  status = PLUS_FAIL /\
  released tr = [] /\
  acquired tr = [Descriptor (FileDescriptor this')] /\
  FileDescriptor this' <> -1.
Proof.
  intros H.
  exact (wp_elim _ _ _ _ _ _ _ _ (InternalConnect_unsupported this w) H flag).
Qed.

(** C4, at a connect with the method read to a device that streams and
    cannot be read: [InternalConnect] fails, and the descriptor it has
    opened is neither closed nor forgotten, [FileDescriptor] is 3. *)
Theorem unsupported_transport_keeps_descriptor :
  exists this' w' tr,
    lacks caps_streaming V4L2_CAP_READWRITE = true /\
    InternalConnect (configured IO_METHOD_READ)
      (world (answers_open caps_streaming)) =
      Some (PLUS_FAIL, this', w', tr) /\
    FileDescriptor this' = 3 /\
    acquired tr = [Descriptor 3] /\
    released tr = [].
Proof. do 3 eexists. vm_compute. auto 10. Qed.

(** * Names *)

Lemma tells_apart_In cmp names a b :
  tells_apart cmp names = true -> In a names -> In b names ->
  cmp a b = String.eqb a b.
Proof.
  unfold tells_apart. intros H Ha Hb.
  rewrite forallb_forall in H. specialize (H a Ha).
  rewrite forallb_forall in H. apply eqb_prop, H, Hb.
Qed.

Lemma switch_default {V} x (cases : list (Z * V)) d :
  existsb (Z.eqb x) (map fst cases) = false -> switch x cases d = d.
Proof.
  induction cases as [|[k v] cases IH]; cbn; [reflexivity|].
  intros [Hk Hc]%orb_false_iff. rewrite Hk. exact (IH Hc).
Qed.

Lemma switch_In {V} x (cases : list (Z * V)) d :
  In (switch x cases d) (d :: map snd cases).
Proof.
  induction cases as [|[k v] cases IH]; cbn; [auto|].
  destruct (x =? k); [auto|]. destruct IH; auto.
Qed.

Lemma else_if_ext {V} cmp cmp' s (cases : list (string * V)) d :
  (forall k, In k (map fst cases) -> cmp k s = cmp' k s) ->
  else_if cmp s cases d = else_if cmp' s cases d.
Proof.
  induction cases as [|[k v] cases IH]; cbn; [reflexivity|].
  intros H. rewrite (H k) by auto. rewrite IH by auto. reflexivity.
Qed.
Lemma StringToFormat_names :
  map fst StringToFormat_cases = map snd FormatToString_cases.
Proof. vm_compute. reflexivity. Qed.

Lemma FormatToString_In format : In (FormatToString format) format_names.
Proof. apply switch_In. Qed.

Lemma StringToFormat_on_names cmp name :
  tells_apart cmp format_names = true -> In name format_names ->
  StringToFormat cmp name = StringToFormat String.eqb name.
Proof.
  intros H Hn. apply else_if_ext. intros k Hk.
  apply (tells_apart_In _ _ _ _ H); [|exact Hn].
  right. rewrite <- StringToFormat_names. exact Hk.
Qed.

Lemma formats_come_back :
  forallb (fun kv =>
             StringToFormat String.eqb (FormatToString (fst kv)) =? fst kv)
    FormatToString_cases = true.
Proof. vm_compute. reflexivity. Qed.

Lemma format_names_come_back :
  forallb (fun name =>
             String.eqb (FormatToString (StringToFormat String.eqb name)) name)
    format_names = true.
Proof. vm_compute. reflexivity. Qed.



(** X1: [IOMethodToString] and [StringToIOMethod] are inverse to each other:
    every method, [IO_METHOD_UNKNOWN] included, is what its name converts to,
    and each of the four names is the name of what it converts to.  The
    comparison of names is any one that, between the four names, holds for
    equal names only. *)
Theorem IOMethod_names_round_trip cmp :
  tells_apart cmp IOMethod_names = true ->
  (forall ioMethod, StringToIOMethod cmp (IOMethodToString ioMethod) = ioMethod) /\
  (forall name, In name IOMethod_names ->
     IOMethodToString (StringToIOMethod cmp name) = name).
Proof.
  intros H.
  assert (Hc : forall a b, In a IOMethod_names -> In b IOMethod_names ->
                 cmp a b = String.eqb a b)
    by (intros; apply (tells_apart_In _ _ _ _ H); assumption).
  split.
  - intros []; unfold StringToIOMethod, IOMethodToString;
      rewrite !Hc by (cbn; tauto); reflexivity.
  - intros name Hn. cbn in Hn.
    destruct Hn as [<-|[<-|[<-|[<-|[]]]]];
      unfold StringToIOMethod;
      rewrite !Hc by (cbn; tauto); reflexivity.
Qed.

Lemma IOMethod_names_round_trip_witness :
  tells_apart equal_ignoring_case IOMethod_names = true /\
  StringToIOMethod equal_ignoring_case (IOMethodToString IO_METHOD_USERPTR) =
    IO_METHOD_USERPTR /\
  StringToIOMethod equal_ignoring_case (IOMethodToString IO_METHOD_UNKNOWN) =
    IO_METHOD_UNKNOWN.
Proof.
  assert (H : tells_apart equal_ignoring_case IOMethod_names = true)
    by (vm_compute; reflexivity).
  split; [exact H|].
  destruct (IOMethod_names_round_trip _ H) as [Hm _]. split; apply Hm.
Defined.

Lemma FieldOrderToString_In field : In (FieldOrderToString field) field_names.
Proof.
  unfold FieldOrderToString.
  match goal with
  | |- In (switch ?x ?cases ?d) _ =>
      destruct (switch_In x cases d) as [<-|Hin]
  end.
  - left. reflexivity.
  - exact Hin.
Qed.

Lemma StringToFieldOrder_on_names cmp name :
  tells_apart cmp field_names = true -> In name field_names ->
  StringToFieldOrder cmp name = StringToFieldOrder String.eqb name.
Proof.
  intros H Hn. apply else_if_ext. intros k Hk.
  apply (tells_apart_In _ _ _ _ H); [exact Hk|exact Hn].
Qed.

Ltac field_constants :=
  unfold V4L2_FIELD_ANY, V4L2_FIELD_NONE, V4L2_FIELD_TOP, V4L2_FIELD_BOTTOM,
    V4L2_FIELD_INTERLACED, V4L2_FIELD_SEQ_TB, V4L2_FIELD_SEQ_BT,
    V4L2_FIELD_ALTERNATE, V4L2_FIELD_INTERLACED_TB, V4L2_FIELD_INTERLACED_BT.

(** X3: [FieldOrderToString] and [StringToFieldOrder] are inverse to each
    other on the ten field orders of [enum v4l2_field]; any other value is
    named "V4L2_FIELD_ANY" and so converts back to [V4L2_FIELD_ANY].  Each of
    the ten names is the name of what it converts to. *)
Theorem field_names_round_trip cmp :
  tells_apart cmp field_names = true ->
  (forall field,
     StringToFieldOrder cmp (FieldOrderToString field) =
     if is_field_order field then field else V4L2_FIELD_ANY) /\
  (forall name, In name field_names ->
     FieldOrderToString (StringToFieldOrder cmp name) = name).
Proof.
  intros H. split.
  - intros field.
    rewrite (StringToFieldOrder_on_names cmp _ H (FieldOrderToString_In field)).
    unfold is_field_order.
    destruct (0 <=? field) eqn:E0; [destruct (field <=? 9) eqn:E9|]; cbn [andb].
    + apply Z.leb_le in E0, E9.
      assert (Hf : field = 0 \/ field = 1 \/ field = 2 \/ field = 3
                   \/ field = 4 \/ field = 5 \/ field = 6 \/ field = 7
                   \/ field = 8 \/ field = 9) by lia.
      repeat destruct Hf as [->|Hf]; try subst field; reflexivity.
    + apply Z.leb_gt in E9. unfold FieldOrderToString.
      rewrite switch_default; [reflexivity|].
      cbn [existsb map fst]. field_constants.
      rewrite !orb_false_iff, !Z.eqb_neq. repeat split; lia.
    + apply Z.leb_gt in E0. unfold FieldOrderToString.
      rewrite switch_default; [reflexivity|].
      cbn [existsb map fst]. field_constants.
      rewrite !orb_false_iff, !Z.eqb_neq. repeat split; lia.
  - intros name Hn. rewrite (StringToFieldOrder_on_names cmp _ H Hn).
    cbn in Hn. repeat destruct Hn as [<-|Hn]; try reflexivity. destruct Hn.
Qed.

Lemma field_names_round_trip_witness :
  tells_apart equal_ignoring_case field_names = true /\
  StringToFieldOrder equal_ignoring_case
    (FieldOrderToString V4L2_FIELD_SEQ_BT) = V4L2_FIELD_SEQ_BT /\
  StringToFieldOrder equal_ignoring_case (FieldOrderToString 12) =
    V4L2_FIELD_ANY.
Proof.
  assert (H : tells_apart equal_ignoring_case field_names = true)
    by (vm_compute; reflexivity).
  split; [exact H|].
  destruct (field_names_round_trip _ H) as [Hf _]. split; apply Hf.
Defined.
Lemma is_Log_attempts fh req arg answers :
  count_events is_Log (attempts fh req arg answers) = 0%nat.
Proof. apply count_events_attempts_false. reflexivity. Qed.

Lemma started_attempts fh req arg pre a :
  forallb interrupted pre = true ->
  existsb is_started (attempts fh req arg (pre ++ [a])) =
  is_started (Sys (c_ioctl fh req (pack req arg)) a).
Proof.
  intros Hpre. apply existsb_attempts_last; [exact Hpre|].
  intros x Hx. destruct req; cbn; rewrite ?Hx; reflexivity.
Qed.

Lemma queue_for_spec n : forall i userp this w,
  wp (queue_for n i userp) (fun status this' w' tr =>
       this' = this /\
       existsb is_started tr = false /\
       match status with
       | PLUS_SUCCESS =>
           handoffs tr =
             map (fun j => Requeued (queue_buffer userp this j)) (seq i n) /\
           count_events is_Log tr = 0%nat /\
           (userp = true ->
            forall j, (i <= j < i + n)%nat -> is_Some (FramesMem this !! j))
       | PLUS_FAIL => count_events is_Log tr = 1%nat
       end)
    this w.
Proof.
  induction n as [|n IH]; intros i userp this w; cbn [queue_for].
  - wp_run. repeat split; auto. intros _ j Hj. lia.
  - wp_run.
    all: try (wp_use (IH (S i));
              intros status this' w' tr (-> & Hst & Hs')).
    all: rewrite ?existsb_app, ?count_events_app, ?handoffs_app,
           ?is_Log_attempts, ?started_attempts, ?handoffs_QBUF by assumption.
    all: use_tests; cbn [app existsb is_started orb negb seq map pack].
    all: split; [reflexivity|].
    all: try (split; [try assumption; reflexivity|]).
    all: try reflexivity.
    all: destruct status; [exact Hs'|].
    all: destruct Hs' as (Hh & Hl & Hm); rewrite Hh.
    all: unfold queue_buffer at 2; rewrite ?Hfb; cbn [default].
    all: repeat split; auto; try discriminate.
    intros _ j Hj. destruct (decide (j = i)) as [->|Hne].
    + rewrite Hfb. eauto.
    + apply Hm; [reflexivity|lia].
Qed.
Lemma map_lookup_take {A} (d : A) (l : list A) n :
  (forall j, (j < n)%nat -> is_Some (l !! j)) ->
  map (fun j => default d (l !! j)) (seq 0 n) = take n l.
Proof.
  induction n as [|n IH]; intros H.
  - rewrite take_0. reflexivity.
  - rewrite seq_S, map_app, IH by (intros; apply H; lia).
    destruct (H n) as [x Hx]; [lia|].
    cbn. rewrite Hx. cbn. symmetry. apply take_S_r. exact Hx.
Qed.

Lemma attempts_last fh req arg pre a :
  attempts fh req arg (pre ++ [a]) =
  attempts fh req arg pre ++ [Sys (c_ioctl fh req (pack req arg)) a].
Proof. unfold attempts. apply map_app. Qed.

Lemma started_interrupted fh req arg pre :
  forallb interrupted pre = true ->
  existsb is_started (attempts fh req arg pre) = false.
Proof.
  intros Hpre. rewrite existsb_attempts.
  apply (existsb_all_false _ interrupted pre Hpre).
  intros x Hx. destruct req; cbn; rewrite ?(interrupted_failed x Hx);
    reflexivity.
Qed.

Lemma InternalStartRecording_spec this w :
  wp InternalStartRecording (fun status this' w' tr =>
       this' = this /\
       (streaming (IOMethod this) = false ->
        status = PLUS_SUCCESS /\ tr = []) /\
       match status with
       | PLUS_SUCCESS =>
           streaming (IOMethod this) = true ->
           handoffs tr =
             map (fun j => Requeued
                    (queue_buffer
                       match IOMethod this with
                       | IO_METHOD_USERPTR => true
                       | _ => false
                       end this j))
               (seq 0 (BufferCount this)) /\
           (IOMethod this = IO_METHOD_USERPTR ->
            forall j, (j < BufferCount this)%nat ->
                      is_Some (FramesMem this !! j)) /\
           count_events is_Log tr = 0%nat /\
           exists tr0 e,
             tr = tr0 ++ [e] /\ is_started e = true /\
             existsb is_started tr0 = false
       | PLUS_FAIL =>
           existsb is_started tr = false /\
           count_events is_Log tr = 1%nat
       end)
    this w.
Proof.
  unfold InternalStartRecording. wp_run.
  all: try (wp_use queue_for_spec;
            intros status this' w' tr (-> & Hst & Hq); wp_run).
  all: rewrite ?app_nil_r; cbn [app].
  all: rewrite ?existsb_app, ?count_events_app, ?handoffs_app,
         ?is_Log_attempts, ?started_attempts, ?Hst by assumption.
  all: try match goal with
           | H : (-1 =? ret _) = false |- _ =>
               pose proof (eqb_m1_false _ H) as Hok
           end.
  all: cbn [app existsb is_started pack streaming]; use_eqb.
  all: split; [reflexivity|].
  all: split; [try discriminate; auto|].
  all: try (intros Hx; discriminate Hx).
  all: try (intros _).
  all: try (split; [reflexivity|]).
  all: try exact Hq.
  all: destruct Hq as (Hh & Hl & Hm); rewrite ?Hl; try reflexivity.
  all: unfold handoffs at 2; rewrite omap_attempts_none by reflexivity.
  all: rewrite app_nil_r.
  all: split; [exact Hh|].
  all: split;
    [intros Hu j Hj;
     first [discriminate Hu | apply Hm; [reflexivity|lia]]|].
  all: split; [reflexivity|].
  all: rewrite attempts_last, app_assoc.
  all: eexists _, _; split; [reflexivity|].
  all: cbn [is_started]; rewrite Hok; split; [reflexivity|].
  all: rewrite existsb_app, Hst, started_interrupted by assumption.
  all: reflexivity.
Qed.
Lemma requeued_Requeued {A} (f : A -> v4l2_buffer) l :
  omap requeued_of (map (fun j => Requeued (f j)) l) = map f l.
Proof. induction l as [|b l IH]; cbn; [|rewrite IH]; reflexivity. Qed.

(** X4: [InternalStartRecording] does nothing and succeeds when the method
    does not stream.  With the methods mmap and user pointer, when it
    succeeds it has queued every buffer once, in the order of the indices 0
    to [BufferCount] - 1 (with the user-pointer method each descriptor
    carries the address and the length of the frame buffer of that index),
    and the successful [VIDIOC_STREAMON] is its last call; when it fails,
    streaming has not been switched on and one error is logged.  It never
    changes the object. *)
Theorem StartRecording_queues_every_buffer this w status this' w' tr :
  InternalStartRecording this w = Some (status, this', w', tr) ->
  this' = this /\
  (streaming (IOMethod this) = false -> status = PLUS_SUCCESS /\ tr = []) /\
  (streaming (IOMethod this) = true -> status = PLUS_SUCCESS ->
   map index (requeued tr) = seq 0 (BufferCount this) /\
   (IOMethod this = IO_METHOD_USERPTR ->
    map userptr_memory (requeued tr) =
    take (BufferCount this) (FramesMem this)) /\
   exists tr0 e,
     tr = tr0 ++ [e] /\ is_started e = true /\
     existsb is_started tr0 = false) /\
  (status = PLUS_FAIL ->
   existsb is_started tr = false /\ count_events is_Log tr = 1%nat).
Proof.
  intros H.
  pose proof (wp_elim _ _ _ _ _ _ _ _ (InternalStartRecording_spec this w) H)
    as Hq.
  cbn beta in Hq. destruct Hq as (-> & Hidle & Hs).
  split; [reflexivity|]. split; [exact Hidle|]. split.
  - intros Hstr ->. destruct (Hs Hstr) as (Hh & Hm & _ & Hlast).
    unfold requeued. rewrite Hh, requeued_Requeued.
    split; [|split; [|exact Hlast]].
    + rewrite map_map. rewrite <- (map_id (seq 0 _)) at 2.
      apply map_ext. intros j. unfold queue_buffer.
      destruct (IOMethod this); reflexivity.
    + intros Hu. rewrite Hu, map_map.
      rewrite <- (map_lookup_take zero_FrameBuffer)
        by (intros j Hj; apply Hm; assumption).
      apply map_ext. intros j. unfold queue_buffer, userptr_memory. cbn.
      destruct (default _ _); reflexivity.
  - intros ->. exact Hs.
Qed.

Lemma StartRecording_queues_every_buffer_witness :
  exists w' tr,
    InternalStartRecording connected_userp
      (world [ok 0; ok 0; failed EINTR; ok 0; ok 0; ok 0]) =
      Some (PLUS_SUCCESS, connected_userp, w', tr) /\
    map index (requeued tr) = [0; 1; 2; 3]%nat /\
    map userptr_memory (requeued tr) = FramesMem connected_userp.
Proof.
  do 2 eexists. run_it E.
  destruct (StartRecording_queues_every_buffer _ _ _ _ _ _ E)
    as (_ & _ & Hs & _).
  destruct (Hs eq_refl eq_refl) as (Hi & Hm & _).
  split; [exact Hi | exact (Hm eq_refl)].
Defined.

(** X5: [InternalStopRecording] always returns success.  When the method
    does not stream it makes no call at all; with the methods mmap and user
    pointer it sends [VIDIOC_STREAMOFF] until the answer is not an
    interruption, and when that answer is a failure it logs it and returns
    success all the same.  The object is left as it was. *)
Theorem StopRecording_always_succeeds this w :
  (streaming (IOMethod this) = false ->
   InternalStopRecording this w = Some (PLUS_SUCCESS, this, w, [])) /\
  (streaming (IOMethod this) = true ->
   forall pre a rest,
     script w = pre ++ a :: rest ->
     forallb interrupted pre = true -> interrupted a = false ->
     exists e',
       InternalStopRecording this w =
       Some (PLUS_SUCCESS, this, {| script := rest; errno := e' |},
             attempts (FileDescriptor this) VIDIOC_STREAMOFF
               V4L2_BUF_TYPE_VIDEO_CAPTURE (pre ++ [a])
             ++ if ret a =? -1
                then [Log "VIDIOC_STREAMOFF" (Some (err a))]
                else [])).
Proof.
  unfold InternalStopRecording, mbind', gets, xioctl. split.
  - destruct (IOMethod this); try discriminate; reflexivity.
  - intros Hstr pre a rest Hs Hpre Ha.
    destruct (xioctl_loop_first pre a rest (errno w) (FileDescriptor this)
                VIDIOC_STREAMOFF V4L2_BUF_TYPE_VIDEO_CAPTURE Hpre Ha)
      as [e' E].
    rewrite <- Hs in E. exists (errno_after a e').
    destruct (IOMethod this); try discriminate Hstr; rewrite E;
      cbn -[Z.eqb attempts errno_after].
    all: rewrite (Z.eqb_sym (-1)); destruct (ret a =? -1) eqn:Er;
      cbn -[Z.eqb attempts errno_after].
    all: rewrite ?app_nil_r; try reflexivity.
    all: apply Z.eqb_eq in Er; rewrite (errno_after_failed _ _ Er).
    all: reflexivity.
Qed.

Lemma StopRecording_always_succeeds_witness :
  exists e',
    InternalStopRecording connected_mmap
      (world [failed EINTR; failed EIO; ok 7]) =
    Some (PLUS_SUCCESS, connected_mmap, {| script := [ok 7]; errno := e' |},
          attempts 3 VIDIOC_STREAMOFF V4L2_BUF_TYPE_VIDEO_CAPTURE
            [failed EINTR; failed EIO]
          ++ [Log "VIDIOC_STREAMOFF" (Some EIO)]).
Proof.
  exact (proj2 (StopRecording_always_succeeds connected_mmap
                  (world [failed EINTR; failed EIO; ok 7]))
           eq_refl [failed EINTR] (failed EIO) [ok 7]
           eq_refl eq_refl eq_refl).
Defined.
Ltac logs_simpl :=
  rewrite ?app_nil_r; cbn [app];
  rewrite ?existsb_app, ?count_events_app, ?is_Log_attempts,
    ?EAGAIN_DQBUF by assumption;
  repeat match goal with
  | |- context [existsb ?f (attempts ?fh ?req ?arg ?l)] =>
      rewrite (existsb_attempts_false f fh req arg l)
        by (intros; reflexivity)
  end;
  cbn [existsb is_EAGAIN orb app].

Lemma ReadFrame_logs this w :
  wp ReadFrame (fun status this' w' tr =>
       count_events is_Log tr =
       match status with
       | PLUS_SUCCESS => 0
       | PLUS_FAIL => if existsb is_EAGAIN tr then 0 else 1
       end%nat)
    this w.
Proof.
  unfold ReadFrame, ReadFrame_stream, acquire_failed, read.
  wp_run.
  all: try (wp_use find_for_pure; intros _ ? ? ? (-> & -> & ->); wp_run).
  all: logs_simpl.
  all: repeat match goal with
       | H : (-1 =? ret ?a) = _ |- _ =>
           rewrite Z.eqb_sym in H; try rewrite H
       end.
  all: cbn [andb orb]; try reflexivity.
  all: repeat match goal with
       | H : (ret ?a =? -1) = true, H' : (errno_after ?a ?e =? EAGAIN) = _
         |- _ =>
           rewrite (errno_after_failed _ _ (proj1 (Z.eqb_eq _ _) H)) in H';
           try rewrite H'
       end.
  all: cbn [andb orb]; try reflexivity.
Qed.

Lemma InternalUpdate_logs this w :
  wp InternalUpdate (fun status this' w' tr =>
       count_events is_Log tr =
       match status with
       | PLUS_SUCCESS => 0
       | PLUS_FAIL => if existsb is_EAGAIN tr then 0 else 1
       end%nat)
    this w.
Proof.
  unfold InternalUpdate, select. wp_run.
  3: wp_use ReadFrame_logs; intros status ? ? tr Hl; wp_run.
  all: logs_simpl; try reflexivity.
  all: exact Hl.
Qed.

(** X6: an update cycle that succeeds logs nothing; a cycle that fails logs
    exactly one error, except when the acquisition step ([read] or
    [VIDIOC_DQBUF]) has failed with [EAGAIN], in which case it logs
    nothing. *)
Theorem Update_logs_one_error this w status this' w' tr :
  InternalUpdate this w = Some (status, this', w', tr) ->
  count_events is_Log tr =
  match status with
  | PLUS_SUCCESS => 0
  | PLUS_FAIL => if existsb is_EAGAIN tr then 0 else 1
  end%nat.
Proof. apply (wp_elim _ _ _ _ _ _ _ _ (InternalUpdate_logs this w)). Qed.

Lemma Update_logs_one_error_witness :
  exists w' tr,
    InternalUpdate connected_read (world [ok 1; failed EIO]) =
      Some (PLUS_FAIL, connected_read, w', tr) /\
    existsb is_EAGAIN tr = false /\
    count_events is_Log tr = 1%nat.
Proof.
  do 2 eexists. run_it E.
  split; [reflexivity|].
  rewrite (Update_logs_one_error _ _ _ _ _ _ E). reflexivity.
Defined.
Ltac teardown_simpl :=
  rewrite ?app_nil_r; cbn [app];
  repeat first
    [ progress cbn [existsb is_teardown is_opened orb app]
    | rewrite existsb_app
    | match goal with
      | |- context [existsb ?f (attempts ?fh ?req ?arg ?l)] =>
          rewrite (existsb_attempts_false f fh req arg l)
            by (intros; reflexivity)
      end ].

Lemma InitRead_no_teardown size this w :
  wp (InitRead size) (fun _ _ _ tr => existsb is_teardown tr = false) this w.
Proof.
  unfold InitRead, Frames_calloc, Frames_set_length, Frames_set_start, malloc.
  wp_run. all: reflexivity.
Qed.

Lemma InitMmap_for_no_teardown n : forall this w,
  wp (InitMmap_for n) (fun _ _ _ tr => existsb is_teardown tr = false) this w.
Proof.
  induction n as [|n IH]; intros this w; cbn [InitMmap_for].
  - wp_run. reflexivity.
  - unfold Frames_set_length, Frames_set_start, mmap. wp_run.
    all: try (wp_use IH; intros _ _ _ tr Ht).
    all: teardown_simpl; rewrite ?Ht; reflexivity.
Qed.

Lemma InitMmap_no_teardown this w :
  wp InitMmap (fun _ _ _ tr => existsb is_teardown tr = false) this w.
Proof.
  unfold InitMmap, Frames_calloc. wp_run.
  all: try (wp_use InitMmap_for_no_teardown; intros _ _ _ tr Ht).
  all: teardown_simpl; rewrite ?Ht; reflexivity.
Qed.

Lemma InitUserp_no_teardown size this w :
  wp (InitUserp size) (fun _ _ _ tr => existsb is_teardown tr = false) this w.
Proof.
  unfold InitUserp. cbn [InitUserp_for].
  unfold Frames_calloc, Frames_set_length, Frames_set_start, malloc.
  wp_run. all: teardown_simpl; reflexivity.
Qed.

Lemma InternalConnect_keeps this w :
  wp InternalConnect (fun status this' w' tr =>
       existsb is_teardown tr = false /\
       (existsb is_opened tr = true -> FileDescriptor this' <> -1) /\
       (existsb is_opened tr = false ->
        status = PLUS_FAIL /\ acquired tr = []))
    this w.
Proof.
  unfold InternalConnect, InternalConnect_built, InternalConnect_crop,
    InternalConnect_format,
    stat, open.
  wp_run.
  all: try (eapply wp_mono;
            [apply wp_and;
             [apply InitRead_resources | apply InitRead_no_teardown]|];
            cbn beta;
            intros status this' w' tr
              ((Hr & Hfd & Hio & Hrf & Hbc & Hs') & Ht));
       try (eapply wp_mono;
            [apply wp_and;
             [apply InitUserp_resources | apply InitUserp_no_teardown]|];
            cbn beta;
            intros status this' w' tr ((Hr & Hfd & Hio & Hrf & Hs') & Ht));
       try (eapply wp_mono;
            [apply wp_and;
             [apply InitMmap_resources | apply InitMmap_no_teardown]|];
            cbn beta;
            intros status this' w' tr ((Hr & Hfd & Hio & Hrf & Hs') & Ht)).
  all: object_simpl; teardown_simpl; rewrite ?Ht.
  all: repeat match goal with
       | H : (-1 =? ?r) = _ |- _ => rewrite Z.eqb_sym in H; try rewrite H
       end; cbn [negb orb].
  all: split; [reflexivity|].
  all: split;
    [|intros Hx;
      first [ discriminate Hx
            | split; [reflexivity | resources_simpl; reflexivity] ]].
  all: intros Hx; try discriminate Hx.
  all: try rewrite Hfd; object_simpl; apply Z.eqb_neq; assumption.
Qed.
(** X7: [InternalConnect] has no clean-up.  It never closes, unmaps or
    frees anything, whatever happens.  Once [open] has succeeded, the object
    holds the descriptor when [InternalConnect] returns, also when it
    returns failure; when [open] has not succeeded, [InternalConnect] fails
    and has acquired nothing. *)
Theorem Connect_never_gives_back this w status this' w' tr :
  InternalConnect this w = Some (status, this', w', tr) ->
  existsb is_teardown tr = false /\
  released tr = [] /\
  (existsb is_opened tr = true -> FileDescriptor this' <> -1) /\
  (existsb is_opened tr = false -> status = PLUS_FAIL /\ acquired tr = []).
Proof.
  intros H.
  pose proof (wp_elim _ _ _ _ _ _ _ _ (InternalConnect_keeps this w) H) as Hk.
  pose proof (wp_elim _ _ _ _ _ _ _ _ (InternalConnect_resources this w) H)
    as Hr.
  cbn beta in Hk, Hr. destruct Hk as (Ht & Ho & Hn). destruct Hr as (Hr & _).
  auto.
Qed.

Lemma Connect_never_gives_back_witness :
  exists this' w' tr,
    InternalConnect (configured IO_METHOD_MMAP)
      (world answers_format_refused) =
      Some (PLUS_FAIL, this', w', tr) /\
    existsb is_opened tr = true /\
    released tr = [] /\
    FileDescriptor this' <> -1.
Proof.
  do 3 eexists. run_it E.
  destruct (Connect_never_gives_back _ _ _ _ _ _ E) as (_ & Hr & Hk & _).
  split; [reflexivity|]. split; [exact Hr|]. apply Hk. reflexivity.
Defined.

(** X8: [InternalConnect] looks at the path before it opens it.  When
    [stat] fails, or the path is not a character device, it logs one error
    and returns failure; [stat] is the only call it has made, [open] is not
    called, and the object is unchanged. *)
Theorem Connect_checks_the_path_first this w a rest :
  script w = a :: rest ->
  ret a = -1 \/ S_ISCHR (st_mode_of a) = false ->
  exists log,
    InternalConnect this w =
      Some (PLUS_FAIL, this,
            {| script := rest; errno := errno_after a (errno w) |},
            [Sys (c_stat (DeviceName this)) a; log]) /\
    is_Log log = true.
Proof.
  intros Hs Hbad.
  unfold InternalConnect, InternalConnect_built, stat, syscall, mbind', gets.
  rewrite Hs. cbn -[Z.eqb S_ISCHR errno_after].
  rewrite (Z.eqb_sym (-1)).
  destruct (ret a =? -1) eqn:Er; cbn -[Z.eqb S_ISCHR errno_after].
  - eexists. split; reflexivity.
  - destruct Hbad as [Hr|Hc]; [apply Z.eqb_neq in Er; contradiction|].
    unfold st_mode_of in Hc. rewrite Hc. cbn -[errno_after].
    eexists. split; reflexivity.
Qed.

Lemma Connect_checks_the_path_first_witness :
  exists log,
    InternalConnect (configured IO_METHOD_MMAP) (world answers_regular_file) =
      Some (PLUS_FAIL, configured IO_METHOD_MMAP,
            {| script := []; errno := 0 |},
            [Sys (c_stat "/dev/video0") (wrote (a_stat 0x81A4)); log]) /\
    is_Log log = true.
Proof.
  exact (Connect_checks_the_path_first (configured IO_METHOD_MMAP)
           (world answers_regular_file) (wrote (a_stat 0x81A4)) []
           eq_refl (or_intror eq_refl)).
Defined.
Lemma omap_attempts_final {B} (f : event -> option B) fh req arg pre a :
  forallb interrupted pre = true ->
  (forall x, interrupted x = true ->
             f (Sys (c_ioctl fh req (pack req arg)) x) = None) ->
  omap f (attempts fh req arg (pre ++ [a])) =
  match f (Sys (c_ioctl fh req (pack req arg)) a) with
  | Some y => [y]
  | None => []
  end.
Proof.
  intros Hpre Hf. unfold attempts. rewrite map_app, omap_app.
  assert (Hnil : omap f (map (Sys (c_ioctl fh req (pack req arg))) pre) = []).
  { induction pre as [|x pre IH]; [reflexivity|].
    cbn [forallb] in Hpre. apply andb_true_iff in Hpre as [Hx Hpre].
    cbn. rewrite (Hf x Hx). auto. }
  rewrite Hnil. cbn. destruct (f _); reflexivity.
Qed.

Lemma default_rect_CROPCAP fh arg pre a :
  forallb interrupted pre = true ->
  omap default_rect_of (attempts fh VIDIOC_CROPCAP arg (pre ++ [a])) =
  if ret a =? 0 then [defrect (written VIDIOC_CROPCAP arg a)] else [].
Proof.
  intros Hpre. rewrite omap_attempts_final; [|exact Hpre|].
  - cbn. destruct (ret a =? 0); reflexivity.
  - intros x Hx. cbn. apply interrupted_failed, Z.eqb_eq in Hx.
    rewrite Hx. reflexivity.
Qed.

Lemma crop_rect_S_CROP fh arg pre a :
  forallb interrupted pre = true -> interrupted a = false ->
  omap crop_rect_of (attempts fh VIDIOC_S_CROP arg (pre ++ [a])) = [c arg].
Proof.
  intros Hpre Ha. rewrite omap_attempts_final; [|exact Hpre|].
  - cbn. rewrite Ha. reflexivity.
  - intros x Hx. cbn. rewrite Hx. reflexivity.
Qed.

(** The buffer set-up does not concern cropping. *)
Lemma Init_no_crop size :
  (emits (fun tr => omap default_rect_of tr = []) (InitRead size)
   /\ emits (fun tr => omap default_rect_of tr = []) InitMmap
   /\ emits (fun tr => omap default_rect_of tr = []) (InitUserp size))
  /\ (emits (fun tr => omap crop_rect_of tr = []) (InitRead size)
      /\ emits (fun tr => omap crop_rect_of tr = []) InitMmap
      /\ emits (fun tr => omap crop_rect_of tr = []) (InitUserp size)).
Proof.
  repeat split.
  - apply emits_InitRead; intros; no_omap_pieces.
  - apply emits_InitMmap with (allowed := not_a_crop);
      intros; no_omap_pieces.
  - apply emits_InitUserp with (allowed := not_a_crop);
      intros; no_omap_pieces.
  - apply emits_InitRead; intros; no_omap_pieces.
  - apply emits_InitMmap with (allowed := not_a_crop);
      intros; no_omap_pieces.
  - apply emits_InitUserp with (allowed := not_a_crop);
      intros; no_omap_pieces.
Qed.

Lemma InternalConnect_crops this w :
  wp InternalConnect (fun _ _ _ tr =>
       omap crop_rect_of tr = omap default_rect_of tr /\
       (List.length (omap default_rect_of tr) <= 1)%nat)
    this w.
Proof.
  unfold InternalConnect, InternalConnect_built, InternalConnect_crop,
    InternalConnect_format,
    stat, open.
  wp_run.
  all: try (eapply wp_mono;
            [ apply wp_and;
              [ apply (proj1 (proj1 (Init_no_crop _)))
              | apply (proj1 (proj2 (Init_no_crop _))) ]
            | cbn beta; intros status this' w' tr (Hg & Hc) ]);
       try (eapply wp_mono;
            [ apply wp_and;
              [ apply (proj2 (proj2 (proj1 (Init_no_crop _))))
              | apply (proj2 (proj2 (proj2 (Init_no_crop _)))) ]
            | cbn beta; intros status this' w' tr (Hg & Hc) ]);
       try (eapply wp_mono;
            [ apply wp_and;
              [ apply (proj1 (proj2 (proj1 (Init_no_crop 0))))
              | apply (proj1 (proj2 (proj2 (Init_no_crop 0)))) ]
            | cbn beta; intros status this' w' tr (Hg & Hc) ]).
  all: cbn [app]; rewrite ?app_nil_r.
  all: repeat first
         [ rewrite omap_app
         | rewrite default_rect_CROPCAP by assumption
         | rewrite crop_rect_S_CROP by assumption
         | match goal with
           | |- context [omap ?f (attempts ?fh ?req ?arg ?l)] =>
               rewrite (omap_attempts_none f fh req arg l)
                 by (intros; reflexivity)
           end
         | progress cbn [omap list_omap default_rect_of crop_rect_of app] ].
  all: repeat match goal with
       | H : (0 =? ret ?a) = _ |- _ => rewrite Z.eqb_sym in H; try rewrite H
       end.
  all: rewrite ?Hg, ?Hc; cbn [app c List.length]; split; [reflexivity|lia].
Qed.

Lemma mallocs_app t1 t2 : mallocs (t1 ++ t2) = mallocs t1 ++ mallocs t2.
Proof. apply omap_app. Qed.

Lemma mallocs_cons e t :
  mallocs (e :: t) =
  match malloc_of e with Some sp => sp :: mallocs t | None => mallocs t end.
Proof. reflexivity. Qed.

Lemma mallocs_attempts fh req arg answers :
  mallocs (attempts fh req arg answers) = [].
Proof. apply omap_attempts_none. reflexivity. Qed.

Ltac alloc_simpl :=
  rewrite ?app_nil_r; cbn [app];
  repeat first
    [ rewrite existsb_app | rewrite count_events_app
    | rewrite mallocs_app | rewrite acquired_app | rewrite released_app
    | rewrite mallocs_attempts | rewrite acquired_attempts
    | rewrite released_attempts | rewrite is_Log_attempts
    | rewrite failed_attempts by assumption
    | match goal with
      | |- context [existsb ?f (attempts ?fh ?req ?arg ?l)] =>
          rewrite (existsb_attempts_false f fh req arg l)
            by (intros; reflexivity)
      end
    | rewrite mallocs_cons | rewrite acquired_cons | rewrite released_cons ];
  change (mallocs []) with (@nil (Z * Z)) in *;
  change (acquired []) with (@nil resource) in *;
  change (released []) with (@nil resource) in *;
  repeat match goal with
  | |- context [bool_decide (?a = ?b)] =>
      let v := eval vm_compute in (bool_decide (a = b)) in
      change (bool_decide (a = b)) with v
  end;
  cbn [existsb is_calloc_failed is_malloc_failed is_failed is_Log malloc_of
       acquire_of release_of count_events List.filter List.length
       andb orb negb app];
  use_eqb.

Lemma InitRead_allocation size this w :
  wp (InitRead size) (fun status this' w' tr =>
       (status = PLUS_FAIL <-> InitRead_failure tr = true) /\
       count_events is_Log tr = errors_logged status /\
       BufferCount this' = BufferCount this /\
       released tr = [] /\
       (existsb is_malloc_failed tr = true ->
        acquired tr = [Block (Frames this')]) /\
       (status = PLUS_SUCCESS ->
        FramesMem this' = map heap_buffer (mallocs tr) /\
        map fst (mallocs tr) = [size]))
    this w.
Proof.
  unfold InitRead, Frames_calloc, Frames_set_length, Frames_set_start, malloc.
  unfold InitRead_failure.
  wp_run.
  all: alloc_simpl.
  all: repeat match goal with
       | H : _ !! _ = Some _ |- _ => cbn in H; injection H as <-
       end.
  all: repeat split; try discriminate; try reflexivity.
Qed.

Ltac split_all := repeat match goal with |- _ /\ _ => split end.

Lemma InitUserp_allocation size this w :
  wp (InitUserp size) (fun status this' w' tr =>
       (status = PLUS_FAIL <-> InitUserp_failure tr = true) /\
       count_events is_Log tr = errors_logged status /\
       released tr = [] /\
       (existsb is_malloc_failed tr = true ->
        BufferCount this' = List.length (mallocs tr) /\
        (BufferCount this' < 4)%nat /\
        acquired tr = Block (Frames this') :: map block_of (mallocs tr)))
    this w.
Proof.
  unfold InitUserp. cbn [InitUserp_for].
  unfold Frames_calloc, Frames_set_length, Frames_set_start, malloc.
  unfold InitUserp_failure.
  wp_run.
  all: alloc_simpl.
  all: split_all; try (split; [reflexivity|discriminate]);
    try (split; discriminate); try reflexivity; try discriminate.
  all: try (split; reflexivity).
  all: intros _; cbn; split_all; try reflexivity; lia.
Qed.

(** The buffer set-up calls [calloc], [malloc] and [mmap], sends
    [VIDIOC_REQBUFS] and [VIDIOC_QUERYBUF], logs, and does nothing else. *)
Section InitEvents.
Variable f : event -> bool.
Hypothesis f_calloc : forall n a, f (Sys (c_calloc n) a) = false.
Hypothesis f_malloc : forall s a, f (Sys (c_malloc s) a) = false.
Hypothesis f_mmap : forall l fd o a, f (Sys (c_mmap l fd o) a) = false.
Hypothesis f_log : forall what code, f (Log what code) = false.
Hypothesis f_REQBUFS : forall fh arg a,
  f (Sys (c_ioctl fh VIDIOC_REQBUFS arg) a) = false.
Hypothesis f_QUERYBUF : forall fh arg a,
  f (Sys (c_ioctl fh VIDIOC_QUERYBUF arg) a) = false.

Ltac only_simpl :=
  rewrite ?app_nil_r; cbn [app];
  repeat first
    [ rewrite existsb_app
    | rewrite existsb_attempts_false
        by (intros; first [apply f_REQBUFS | apply f_QUERYBUF])
    | progress cbn [existsb app orb]
    | rewrite f_calloc | rewrite f_malloc | rewrite f_mmap | rewrite f_log ].

Lemma InitRead_only size this w :
  wp (InitRead size) (fun _ _ _ tr => existsb f tr = false) this w.
Proof.
  unfold InitRead, Frames_calloc, Frames_set_length, Frames_set_start, malloc.
  wp_run. all: only_simpl; reflexivity.
Qed.

Lemma InitMmap_for_only n : forall this w,
  wp (InitMmap_for n) (fun _ _ _ tr => existsb f tr = false) this w.
Proof.
  induction n as [|n IH]; intros this w; cbn [InitMmap_for].
  - wp_run. reflexivity.
  - unfold Frames_set_length, Frames_set_start, mmap. wp_run.
    all: try (wp_use IH; intros _ _ _ tr Hf).
    all: only_simpl; rewrite ?Hf; reflexivity.
Qed.

Lemma InitMmap_only this w :
  wp InitMmap (fun _ _ _ tr => existsb f tr = false) this w.
Proof.
  unfold InitMmap, Frames_calloc. wp_run.
  all: try (wp_use InitMmap_for_only; intros _ _ _ tr Hf).
  all: only_simpl; rewrite ?Hf; reflexivity.
Qed.

Lemma InitUserp_for_only n size : forall this w,
  wp (InitUserp_for n size) (fun _ _ _ tr => existsb f tr = false) this w.
Proof.
  induction n as [|n IH]; intros this w; cbn [InitUserp_for].
  - wp_run. reflexivity.
  - unfold Frames_set_length, Frames_set_start, malloc. wp_run.
    all: try (wp_use IH; intros _ _ _ tr Hf).
    all: only_simpl; rewrite ?Hf; reflexivity.
Qed.

Lemma InitUserp_only size this w :
  wp (InitUserp size) (fun _ _ _ tr => existsb f tr = false) this w.
Proof.
  unfold InitUserp, Frames_calloc. wp_run.
  all: try (wp_use InitUserp_for_only; intros _ _ _ tr Hf).
  all: only_simpl; rewrite ?Hf; reflexivity.
Qed.
End InitEvents.

(** Evaluates [fails_Connect] on an event. *)
Ltac fails_simpl :=
  unfold fails_Connect;
  cbn [is_no_device is_failed reports_without pack];
  repeat match goal with
  | |- context [bool_decide (?a = ?b)] =>
      let v := eval vm_compute in (bool_decide (a = b)) in
      change (bool_decide (a = b)) with v
  end;
  cbn [andb orb negb].

Lemma fails_Connect_QUERYCAP method fh arg pre a :
  forallb interrupted pre = true -> interrupted a = false ->
  existsb (fails_Connect method) (attempts fh VIDIOC_QUERYCAP arg (pre ++ [a]))
  = (ret a =? -1)
    || lacks (capabilities (written VIDIOC_QUERYCAP arg a))
         V4L2_CAP_VIDEO_CAPTURE
    || match required_flag method with
       | Some flag => lacks (capabilities (written VIDIOC_QUERYCAP arg a)) flag
       | None => false
       end.
Proof.
  intros Hpre Ha. rewrite existsb_attempts, existsb_app.
  rewrite (existsb_all_false _ interrupted pre Hpre).
  - cbn [existsb orb]. rewrite orb_false_r. fails_simpl.
    unfold interrupted in Ha.
    destruct (ret a =? -1) eqn:Er; cbn [andb orb negb] in *.
    + rewrite Ha. reflexivity.
    + destruct (required_flag method); rewrite ?orb_false_r; reflexivity.
  - intros x Hx. unfold interrupted in Hx.
    apply andb_true_iff in Hx as [Hr He]. fails_simpl.
    rewrite Hr, He. destruct (required_flag method); reflexivity.
Qed.

Lemma fails_Connect_format method fh req arg pre a :
  req = VIDIOC_G_FMT \/ req = VIDIOC_S_FMT ->
  forallb interrupted pre = true -> interrupted a = false ->
  existsb (fails_Connect method) (attempts fh req arg (pre ++ [a]))
  = (ret a =? -1).
Proof.
  intros Hreq Hpre Ha. rewrite existsb_attempts, existsb_app.
  rewrite (existsb_all_false _ interrupted pre Hpre).
  - cbn [existsb orb]. rewrite orb_false_r. unfold interrupted in Ha.
    destruct Hreq as [-> | ->]; fails_simpl.
    all: destruct (ret a =? -1); cbn [andb orb negb] in *;
      rewrite ?Ha; destruct (required_flag method); reflexivity.
  - intros x Hx. unfold interrupted in Hx.
    apply andb_true_iff in Hx as [Hr He].
    destruct Hreq as [-> | ->]; fails_simpl.
    all: rewrite Hr, He; destruct (required_flag method); reflexivity.
Qed.

Lemma fails_Connect_crop method fh req arg answers :
  not_a_crop req = false ->
  existsb (fails_Connect method) (attempts fh req arg answers) = false.
Proof.
  intros H. apply existsb_attempts_false. intros a.
  destruct req; try discriminate H; fails_simpl;
    destruct (required_flag method); reflexivity.
Qed.

Lemma fails_Connect_Init method :
  (forall size this w,
     wp (InitRead size)
       (fun _ _ _ tr => existsb (fails_Connect method) tr = false) this w) /\
  (forall this w,
     wp InitMmap
       (fun _ _ _ tr => existsb (fails_Connect method) tr = false) this w) /\
  (forall size this w,
     wp (InitUserp size)
       (fun _ _ _ tr => existsb (fails_Connect method) tr = false) this w).
Proof.
  repeat split; intros.
  - apply InitRead_only; intros; fails_simpl;
      destruct (required_flag method); reflexivity.
  - apply InitMmap_only; intros; fails_simpl;
      destruct (required_flag method); reflexivity.
  - apply InitUserp_only; intros; fails_simpl;
      destruct (required_flag method); reflexivity.
Qed.

(** [InternalConnect] fails exactly when one of the reasons of
    [Connect_failure] occurs. *)
Lemma InternalConnect_fails this w :
  wp InternalConnect (fun status _ _ tr =>
       status = PLUS_FAIL <-> Connect_failure (IOMethod this) tr = true)
    this w.
Proof.
  destruct (fails_Connect_Init (IOMethod this)) as (HnR & HnM & HnU).
  unfold InternalConnect, InternalConnect_built, InternalConnect_crop,
    InternalConnect_format, stat, open.
  wp_run.
  all: try (eapply wp_mono;
            [apply wp_and; [apply InitRead_allocation | apply HnR]|];
            cbn beta; intros status ? ? tri ((Hi & _) & Hn));
       try (eapply wp_mono;
            [apply wp_and; [apply InitMmap_spec | apply HnM]|];
            cbn beta; intros status ? ? tri ((Hi & _) & Hn));
       try (eapply wp_mono;
            [apply wp_and; [apply InitUserp_allocation | apply HnU]|];
            cbn beta; intros status ? ? tri ((Hi & _) & Hn)).
  all: rewrite ?app_nil_r; cbn [app]; rewrite ?app_nil_r.
  all: unfold Connect_failure.
  all: destruct (IOMethod this) eqn:Hmethod; try discriminate.
  all: unfold InitRead_failure, InitMmap_failure, InitUserp_failure in *.
  all: repeat first
         [ rewrite existsb_app
         | rewrite fails_Connect_QUERYCAP by assumption
         | rewrite fails_Connect_format by (auto; assumption)
         | rewrite fails_Connect_crop by reflexivity
         | rewrite failed_attempts by assumption
         | match goal with
           | |- context [existsb ?f (attempts ?fh ?req ?arg ?l)] =>
               rewrite (existsb_attempts_false f fh req arg l)
                 by (intros; reflexivity)
           end
         | progress cbn [existsb] ].
  all: rewrite ?Hn.
  all: fails_simpl.
  all: cbn [grants_few is_calloc_failed is_malloc_failed required_flag
            andb orb negb].
  all: unfold st_mode_of.
  all: use_tests; cbn [andb orb negb]; rewrite ?orb_false_r, ?orb_true_r.
  all: repeat match goal with
       | H : ?b = true |- context [?b] => rewrite H
       | H : ?b = false |- context [?b] => rewrite H
       end.
  all: cbn [andb orb negb]; rewrite ?orb_false_r, ?orb_true_r.
  all: try (split; reflexivity).
  all: exact Hi.
Qed.



(** X10: [InitRead] fails exactly when [calloc] or [malloc] returns a null
    pointer, and then logs one error.  It gives nothing back: when [malloc]
    fails the array stays allocated, in [Frames].  It does not assign
    [BufferCount].  When it succeeds, the one frame buffer is the block
    [malloc] has returned, with the size asked for. *)
Theorem InitRead_fails_exactly_when size this w status this' w' tr :
  InitRead size this w = Some (status, this', w', tr) ->
  (status = PLUS_FAIL <-> InitRead_failure tr = true) /\
  count_events is_Log tr = errors_logged status /\
  BufferCount this' = BufferCount this /\
  released tr = [] /\
  (existsb is_malloc_failed tr = true ->
   acquired tr = [Block (Frames this')]) /\
  (status = PLUS_SUCCESS ->
   FramesMem this' = map heap_buffer (mallocs tr) /\
   map fst (mallocs tr) = [size]).
Proof. apply (wp_elim _ _ _ _ _ _ _ _ (InitRead_allocation size this w)). Qed.

Lemma InitRead_fails_exactly_when_witness :
  exists this' w' tr,
    InitRead 614400 (set_FileDescriptor 3 (configured IO_METHOD_READ))
      (world [ok 0x1000; ok NULL]) =
      Some (PLUS_FAIL, this', w', tr) /\
    existsb is_malloc_failed tr = true /\
    acquired tr = [Block 0x1000] /\
    released tr = [].
Proof.
  do 3 eexists. run_it E.
  destruct (InitRead_fails_exactly_when _ _ _ _ _ _ _ E)
    as (_ & _ & _ & Hr & Hm & _).
  split; [reflexivity|]. split; [apply Hm; reflexivity | exact Hr].
Defined.

(** X11: [InitUserp] fails exactly when [VIDIOC_REQBUFS] fails, or [calloc]
    or one of the calls of [malloc] returns a null pointer, and then logs
    one error.  It gives nothing back: when a [malloc] fails, the array and
    the buffers allocated before stay allocated, and [BufferCount] is the
    number of these buffers, less than 4. *)
Theorem InitUserp_fails_exactly_when size this w status this' w' tr :
  InitUserp size this w = Some (status, this', w', tr) ->
  (status = PLUS_FAIL <-> InitUserp_failure tr = true) /\
  count_events is_Log tr = errors_logged status /\
  released tr = [] /\
  (existsb is_malloc_failed tr = true ->
   BufferCount this' = List.length (mallocs tr) /\
   (BufferCount this' < 4)%nat /\
   acquired tr = Block (Frames this') :: map block_of (mallocs tr)).
Proof. apply (wp_elim _ _ _ _ _ _ _ _ (InitUserp_allocation size this w)). Qed.

Lemma InitUserp_fails_exactly_when_witness :
  exists this' w' tr,
    InitUserp 614400 (set_FileDescriptor 3 (configured IO_METHOD_USERPTR))
      (world [ok 0; ok 0x1000; ok 0x2000; ok 0x98000; ok NULL]) =
      Some (PLUS_FAIL, this', w', tr) /\
    BufferCount this' = 2%nat /\
    acquired tr = [Block 0x1000; Block 0x2000; Block 0x98000] /\
    released tr = [].
Proof.
  do 3 eexists. run_it E.
  destruct (InitUserp_fails_exactly_when _ _ _ _ _ _ _ E)
    as (_ & _ & Hr & Hm).
  destruct (Hm eq_refl) as (Hb & _ & Ha).
  split; [exact Hb|]. split; [exact Ha | exact Hr].
Defined.
Lemma queried_QUERYBUF fh arg pre a :
  forallb interrupted pre = true ->
  omap queried_of (attempts fh VIDIOC_QUERYBUF arg (pre ++ [a])) =
  if ret a =? -1 then [] else [written VIDIOC_QUERYBUF arg a].
Proof.
  intros Hpre. rewrite omap_attempts_last; [|exact Hpre|].
  - cbn. destruct (ret a =? -1); reflexivity.
  - intros x Hx. cbn. rewrite Hx. reflexivity.
Qed.

Lemma query_index_QUERYBUF fh arg pre a :
  forallb interrupted pre = true -> interrupted a = false ->
  omap query_index_of (attempts fh VIDIOC_QUERYBUF arg (pre ++ [a])) =
  [index arg].
Proof.
  intros Hpre Ha. rewrite omap_attempts_final; [|exact Hpre|].
  - cbn. rewrite Ha. reflexivity.
  - intros x Hx. cbn. rewrite Hx. reflexivity.
Qed.

Ltac mappings_simpl :=
  rewrite ?app_nil_r; cbn [app];
  repeat first
    [ rewrite omap_app
    | rewrite queried_QUERYBUF by assumption
    | rewrite query_index_QUERYBUF by assumption
    | match goal with
      | |- context [omap ?f (attempts ?fh ?req ?arg ?l)] =>
          rewrite (omap_attempts_none f fh req arg l)
            by (intros; reflexivity)
      end
    | progress cbn [omap list_omap mmap_of queried_of query_index_of app] ];
  use_eqb.

Lemma InitMmap_for_mappings remaining : forall this w done,
  FramesMem this = done ++ replicate remaining zero_FrameBuffer ->
  List.length done = BufferCount this ->
  wp (InitMmap_for remaining) (fun status this' w' tr =>
       status = PLUS_SUCCESS ->
       FramesMem this' = done ++ map mapped_buffer (omap mmap_of tr) /\
       map asked (omap mmap_of tr) = map described (omap queried_of tr) /\
       omap query_index_of tr = seq (BufferCount this) remaining)
    this w.
Proof.
  induction remaining as [|n IH]; intros this w done Hmem Hlen;
    cbn [InitMmap_for].
  - wp_run. intros _. cbn in *. rewrite Hmem. auto.
  - unfold Frames_set_length, Frames_set_start, mmap. wp_run.
    1: { discriminate. }
    all: rewrite Hmem, <- Hlen in *; cbn [replicate] in *.
    all: rewrite list_lookup_middle in Hfb by reflexivity;
      injection Hfb as <-.
    all: rewrite insert_middle in *.
    all: rewrite list_lookup_middle in Hfb0 by reflexivity;
      injection Hfb0 as <-.
    all: rewrite insert_middle.
    all: match goal with
         | |- wp _ _ ?o _ =>
             match o with
             | context [?d ++ ?fb :: replicate _ _] =>
                 eapply wp_mono;
                   [ eapply (IH o _ (d ++ [fb]));
                     [ object_simpl; rewrite <- app_assoc; reflexivity
                     | object_simpl; rewrite length_app; cbn; lia ]
                   | cbn beta; intros status this' w' tr Hs' ]
             end
         end.
    all: intros Hst; destruct (Hs' Hst) as (Hm & Ha' & Hi).
    all: object_simpl; mappings_simpl.
    all: cbn [map app asked described mapped_buffer map_length map_offset
              map_address FrameBuffer.start FrameBuffer.length index seq].
    all: rewrite Hm, Ha', Hi, <- app_assoc, Hlen.
    all: cbn [app FrameBuffer.length]; auto.
Qed.

Lemma InitMmap_mappings this w :
  wp InitMmap (fun status this' w' tr =>
       status = PLUS_SUCCESS ->
       omap query_index_of tr = seq 0 (BufferCount this') /\
       map asked (omap mmap_of tr) = map described (omap queried_of tr) /\
       FramesMem this' = map mapped_buffer (omap mmap_of tr))
    this w.
Proof.
  unfold InitMmap, Frames_calloc. wp_run.
  5: eapply wp_mono;
       [ apply wp_and;
         [ eapply (InitMmap_for_mappings _ _ _ []);
           [ object_simpl; reflexivity | reflexivity ]
         | apply InitMmap_for_spec ]
       | cbn beta;
         intros status this' w' tr
           (Hs' & _ & _ & _ & _ & _ & _ & _ & _ & Hb) ].
  all: intros Hst; try discriminate Hst.
  destruct (Hs' Hst) as (Hm & Ha' & Hi). destruct (Hb Hst) as (Hbc & _).
  object_simpl. mappings_simpl.
  rewrite Hbc, Hi, Ha', Hm. auto.
Qed.

(** X12: when [InitMmap] succeeds, it has asked the kernel about the buffers
    0 to [BufferCount] - 1 in this order, has mapped each with the length
    and the offset the kernel has given for it, and the frame buffers are
    what the calls of [mmap] have returned, with these lengths: a buffer
    whose mapping has failed is kept, with [MAP_FAILED] for its address. *)
Theorem InitMmap_maps_what_is_described this w this' w' tr :
  InitMmap this w = Some (PLUS_SUCCESS, this', w', tr) ->
  omap query_index_of tr = seq 0 (BufferCount this') /\
  map asked (omap mmap_of tr) = map described (omap queried_of tr) /\
  FramesMem this' = map mapped_buffer (omap mmap_of tr).
Proof.
  intros H.
  exact (wp_elim _ _ _ _ _ _ _ _ (InitMmap_mappings this w) H eq_refl).
Qed.

Lemma InitMmap_maps_what_is_described_witness :
  exists this' w' tr,
    InitMmap (set_FileDescriptor 3 (configured IO_METHOD_MMAP))
      (world answers_mmap_one_unmapped) =
      Some (PLUS_SUCCESS, this', w', tr) /\
    map asked (omap mmap_of tr) =
      [(614400, 0); (614400, 614400); (614400, 1228800)] /\
    map FrameBuffer.start (FramesMem this') =
      [0x7f0000000000; MAP_FAILED; 0x7f0000200000].
Proof.
  do 3 eexists. run_it E.
  destruct (InitMmap_maps_what_is_described _ _ _ _ _ E) as (_ & Ha & Hm).
  split; [rewrite Ha | rewrite Hm]; reflexivity.
Defined.
Lemma count_events_cons f e t :
  count_events f (e :: t) =
  ((if f e then 1 else 0) + count_events f t)%nat.
Proof. unfold count_events. cbn. destruct (f e); reflexivity. Qed.

Ltac down_simpl :=
  rewrite ?app_nil_r; cbn [app];
  repeat first
    [ rewrite existsb_app | rewrite count_events_app
    | rewrite acquired_app | rewrite released_app
    | rewrite acquired_cons | rewrite released_cons
    | rewrite count_events_cons ];
  change (acquired []) with (@nil resource) in *;
  change (released []) with (@nil resource) in *;
  change (count_events is_Log []) with 0%nat in *;
  cbn [existsb is_munmap_failed is_close is_close_failed is_Free is_Log
       acquire_of release_of Nat.add andb orb negb app];
  use_eqb.

Lemma munmap_for_failure n : forall i this w,
  wp (munmap_for n i) (fun status this' w' tr =>
       this' = this /\
       existsb is_close tr = false /\ existsb is_Free tr = false /\
       match status with
       | PLUS_SUCCESS =>
           existsb is_munmap_failed tr = false /\
           count_events is_Log tr = 0%nat
       | PLUS_FAIL =>
           existsb is_munmap_failed tr = true /\
           count_events is_Log tr = 1%nat /\
           exists k, (k < n)%nat /\
             released tr =
               map (buffer_resource IO_METHOD_MMAP)
                 (take k (drop i (FramesMem this)))
       end)
    this w.
Proof.
  induction n as [|n IH]; intros i this w; cbn [munmap_for].
  - wp_run. auto.
  - unfold munmap. wp_run.
    2: wp_use (IH (S i));
       intros status this' w' tr (-> & Hc & Hf & Hs').
    all: down_simpl.
    + repeat split. exists 0%nat. split; [lia|]. rewrite take_0. reflexivity.
    + rewrite Hc, Hf. repeat split.
      destruct status.
      * destruct Hs' as (Hm & Hl & k & Hk & Hr). rewrite Hm, Hl, Hr.
        repeat split. exists (S k). split; [lia|].
        rewrite (drop_S _ _ _ Hfb). reflexivity.
      * destruct Hs' as (Hm & Hl). rewrite Hm, Hl. auto.
Qed.

Lemma free_for_quiet n : forall i this w,
  wp (free_for n i) (fun _ _ _ tr =>
       existsb is_close tr = false /\
       existsb is_munmap_failed tr = false /\
       count_events is_Log tr = 0%nat)
    this w.
Proof.
  induction n as [|n IH]; intros i this w; cbn [free_for].
  - wp_run. auto.
  - wp_run. wp_use (IH (S i)). intros _ _ _ tr (Hc & Hm & Hl).
    down_simpl. rewrite Hc, Hm, Hl. auto.
Qed.

Lemma InternalDisconnect_failure this w :
  wp InternalDisconnect (fun status this' w' tr =>
       status = PLUS_FAIL ->
       this' = this /\
       count_events is_Log tr = 1%nat /\
       (existsb is_munmap_failed tr = true ->
        IOMethod this = IO_METHOD_MMAP /\
        existsb is_Free tr = false /\ existsb is_close tr = false /\
        exists k, (k < BufferCount this)%nat /\
          released tr =
            map (buffer_resource IO_METHOD_MMAP) (take k (FramesMem this))) /\
       (existsb is_munmap_failed tr = false ->
        existsb is_close_failed tr = true /\
        released tr =
          map (buffer_resource (IOMethod this))
            (take (buffers_released this) (FramesMem this))
          ++ [Block (Frames this)]))
    this w.
Proof.
  unfold InternalDisconnect, close, buffers_released. wp_run.
  all: try (eapply wp_mono;
            [apply wp_and; [apply munmap_for_failure | apply munmap_for_spec]|];
            cbn beta;
            intros status this' w' tr
              ((-> & Hc & Hf & Hs') & (_ & _ & Hrel)));
       try (eapply wp_mono;
            [apply wp_and; [apply free_for_quiet | apply free_for_spec]|];
            cbn beta;
            intros _ this' w' tr ((Hc & Hm & Hl) & (-> & _ & Hrel))).
  all: wp_run.
  all: intros Hst; try discriminate Hst.
  all: down_simpl; rewrite ?drop_0 in *.
  all: split; [reflexivity|].
  - split; [reflexivity|]. split; [discriminate|]. intros _.
    split; [reflexivity|].
    destruct (FramesMem this) as [|fb' l]; [discriminate Hfb|].
    injection Hfb as ->. reflexivity.
  - destruct Hs' as (Hm & Hl & k & Hk & Hr). rewrite Hm, Hl, Hc, Hf.
    split; [reflexivity|]. split; [|discriminate].
    intros _. split; [reflexivity|].
    split; [reflexivity|]. split; [reflexivity|]. eauto.
  - destruct Hs' as (Hm & Hl). rewrite Hm, Hl, !orb_true_r, (Hrel eq_refl).
    split; [reflexivity|]. split; [discriminate|].
    intros _. split; reflexivity.
  - rewrite Hm, Hl, !orb_true_r, Hrel.
    split; [reflexivity|]. split; [discriminate|].
    intros _. split; reflexivity.
  - split; [reflexivity|]. split; [discriminate|].
    intros _. split; reflexivity.
Qed.

(** X13: an [InternalDisconnect] that fails leaves the object as it was
    ([FileDescriptor] is not set to -1) and logs one error.  When a [munmap]
    has failed (the method is mmap), the buffers before it are unmapped and
    nothing else is done: the array is not freed and [close] is not called.
    Otherwise [close] has failed, after every buffer and the array have been
    released; [Frames] still holds the pointer to the freed array. *)
Theorem Disconnect_failure_is_partial this w this' w' tr :
  InternalDisconnect this w = Some (PLUS_FAIL, this', w', tr) ->
  this' = this /\
  count_events is_Log tr = 1%nat /\
  (existsb is_munmap_failed tr = true ->
   IOMethod this = IO_METHOD_MMAP /\
   existsb is_Free tr = false /\ existsb is_close tr = false /\
   exists k, (k < BufferCount this)%nat /\
     released tr =
       map (buffer_resource IO_METHOD_MMAP) (take k (FramesMem this))) /\
  (existsb is_munmap_failed tr = false ->
   existsb is_close_failed tr = true /\
   released tr =
     map (buffer_resource (IOMethod this))
       (take (buffers_released this) (FramesMem this))
     ++ [Block (Frames this)]).
Proof.
  intros H.
  exact (wp_elim _ _ _ _ _ _ _ _ (InternalDisconnect_failure this w) H
           eq_refl).
Qed.

Lemma Disconnect_failure_is_partial_witness :
  exists w' tr,
    InternalDisconnect connected_mmap (world answers_munmap_refused) =
      Some (PLUS_FAIL, connected_mmap, w', tr) /\
    existsb is_munmap_failed tr = true /\
    existsb is_Free tr = false /\ existsb is_close tr = false /\
    FileDescriptor connected_mmap = 3.
Proof.
  do 2 eexists. run_it E.
  destruct (Disconnect_failure_is_partial _ _ _ _ _ E) as (_ & _ & Hm & _).
  split; [reflexivity|]. destruct (Hm eq_refl) as (_ & Hf & Hc & _).
  split; [exact Hf|]. split; [exact Hc | reflexivity].
Defined.

Lemma InternalDisconnect_quiet this w :
  wp InternalDisconnect (fun status _ _ tr =>
       status = PLUS_SUCCESS -> count_events is_Log tr = 0%nat)
    this w.
Proof.
  unfold InternalDisconnect, close. wp_run.
  all: try (wp_use munmap_for_failure;
            intros status this' w' tr (-> & Hc & Hf & Hs'));
       try (wp_use free_for_quiet; intros _ this' w' tr (Hc & Hm & Hl)).
  all: wp_run.
  all: intros Hst; try discriminate Hst.
  all: down_simpl.
  all: try (destruct Hs' as (Hm & Hl)).
  all: rewrite ?Hm, ?Hl, ?Hc; auto.
Qed.


Ltac buffers_simpl :=
  rewrite ?app_nil_r; cbn [app];
  repeat first
    [ rewrite mallocs_app | rewrite grants_app
    | rewrite mallocs_attempts
    | rewrite grants_other by discriminate
    | rewrite mallocs_cons | rewrite grants_cons ];
  change (mallocs []) with (@nil (Z * Z)) in *;
  change (grants []) with (@nil nat) in *;
  cbn [malloc_of grant_of app].

Lemma InternalConnect_buffers this w :
  wp InternalConnect (fun status this' w' tr =>
       status = PLUS_SUCCESS ->
       buffers_set_up (IOMethod this) (BufferCount this') (FramesMem this')
         (mallocs tr) (grants tr) (sizeimage (pix (RequestedFormat this'))))
    this w.
Proof.
  unfold InternalConnect, InternalConnect_built, InternalConnect_crop,
    InternalConnect_format,
    stat, open.
  wp_run.
  all: try (eapply wp_mono;
            [apply wp_and;
             [apply InitRead_resources | apply InitRead_allocation]|];
            cbn beta;
            intros status this' w' tr
              ((_ & _ & _ & Hrf & _) & (_ & _ & _ & _ & _ & Hs')));
       try (eapply wp_mono;
            [apply wp_and;
             [apply InitUserp_resources | apply InitUserp_spec]|];
            cbn beta;
            intros status this' w' tr ((_ & _ & _ & Hrf & _) & Hs'));
       try (wp_use InitMmap_spec; intros status this' w' tr (_ & _ & Hs')).
  all: intros Hst; try discriminate Hst.
  all: pose proof (Hs' Hst) as Hb; clear Hs'.
  all: object_simpl; buffers_simpl; unfold buffers_set_up.
  all: rewrite ?Hrf; tauto.
Qed.

Lemma InternalConnect_descriptor this w :
  wp InternalConnect (fun status this' w' tr =>
       status = PLUS_SUCCESS ->
       exists rest, acquired tr = Descriptor (FileDescriptor this') :: rest)
    this w.
Proof.
  eapply wp_mono; [apply InternalConnect_resources|]. cbn beta.
  intros status this' w' tr (_ & _ & Hs) Hst.
  destruct (Hs Hst) as (Ha & _). eauto.
Qed.

Lemma InternalUpdate_reads this w :
  wp InternalUpdate (fun _ _ _ tr =>
       IOMethod this = IO_METHOD_READ ->
       forall cl a, In (Sys cl a) tr -> is_read cl = true ->
       exists fb,
         FramesMem this !! 0%nat = Some fb /\
         cl = c_read (FileDescriptor this) (FrameBuffer.start fb)
                (FrameBuffer.length fb))
    this w.
Proof.
  unfold InternalUpdate, ReadFrame, acquire_failed, select, read.
  wp_run.
  all: try (apply wp_intro; intros ? ? ? ? _; wp_run).
  all: intros Hio cl x Hin Hr; try congruence.
  all: cbn [app] in Hin; rewrite ?app_nil_r in Hin; cbn [In] in Hin.
  all: repeat match goal with
       | H : _ \/ _ |- _ => destruct H as [H|H]
       | H : False |- _ => destruct H
       | H : Sys _ _ = Sys _ _ |- _ => injection H as <- <-
       | H : Log _ _ = Sys _ _ |- _ => discriminate H
       end.
  all: try discriminate Hr.
  all: eauto.
Qed.

(** X15: [InternalStartRecording] hands to the kernel what [InternalConnect]
    has set up.  With the method mmap it queues the buffers 0 to n - 1,
    where n is the number of buffers the kernel has granted to
    [VIDIOC_REQBUFS].  With the user-pointer method it queues four buffers,
    which are the four blocks [malloc] has returned, each with the size it
    was allocated with, [sizeimage] of the format the device has
    answered. *)
Theorem Start_queues_what_Connect_set_up this w this1 w1 tr1 this2 w2 tr2 :
  InternalConnect this w = Some (PLUS_SUCCESS, this1, w1, tr1) ->
  InternalStartRecording this1 w1 = Some (PLUS_SUCCESS, this2, w2, tr2) ->
  (IOMethod this = IO_METHOD_MMAP ->
   exists n, grants tr1 = [n] /\ map index (requeued tr2) = seq 0 n) /\
  (IOMethod this = IO_METHOD_USERPTR ->
   map index (requeued tr2) = seq 0 4 /\
   map userptr_memory (requeued tr2) = map heap_buffer (mallocs tr1) /\
   map fst (mallocs tr1) =
     replicate 4 (sizeimage (pix (RequestedFormat this1)))).
Proof.
  intros H1 H2.
  pose proof (wp_elim _ _ _ _ _ _ _ _ (InternalConnect_buffers this w) H1
                eq_refl) as Hb.
  pose proof (wp_elim _ _ _ _ _ _ _ _ (InternalConnect_resources this w) H1)
    as (_ & Hio & _).
  pose proof (wp_elim _ _ _ _ _ _ _ _ (InternalStartRecording_spec this1 w1)
                H2) as (_ & _ & Hs).
  cbn beta iota in Hs. rewrite Hio in Hs.
  assert (Hidx : forall u, map index
                   (map (queue_buffer u this1) (seq 0 (BufferCount this1)))
                 = seq 0 (BufferCount this1)).
  { intros u. rewrite map_map. rewrite <- (map_id (seq 0 _)) at 2.
    apply map_ext. intros j. destruct u; reflexivity. }
  split; intros Hm; rewrite Hm in *; cbn [buffers_set_up streaming] in *.
  - destruct (Hs eq_refl) as (Hh & _). destruct Hb as (Hg & _).
    exists (BufferCount this1). split; [exact Hg|].
    unfold requeued. rewrite Hh, requeued_Requeued. apply Hidx.
  - destruct (Hs eq_refl) as (Hh & Hl & _). destruct Hb as (Hc & Hf & Hz).
    unfold requeued. rewrite Hh, requeued_Requeued.
    split; [rewrite Hidx, Hc; reflexivity|]. split; [|exact Hz].
    rewrite <- Hf, map_map.
    assert (Hlen : List.length (FramesMem this1) = BufferCount this1).
    { rewrite Hf, length_map, <- (length_map fst), Hz, Hc. reflexivity. }
    transitivity (take (BufferCount this1) (FramesMem this1));
      [|rewrite <- Hlen; apply firstn_all].
    rewrite <- (map_lookup_take zero_FrameBuffer)
      by (intros j Hj; apply Hl; [reflexivity|assumption]).
    apply map_ext. intros j. unfold queue_buffer, userptr_memory. cbn.
    destruct (default _ _); reflexivity.
Qed.

Lemma Start_queues_what_Connect_set_up_witness :
  exists this1 w1 tr1 this2 w2 tr2,
    InternalConnect (configured IO_METHOD_USERPTR)
      (world (answers_open caps_streaming ++ answers_userp 4
              ++ [ok 0; ok 0; ok 0; ok 0; ok 0])) =
      Some (PLUS_SUCCESS, this1, w1, tr1) /\
    InternalStartRecording this1 w1 = Some (PLUS_SUCCESS, this2, w2, tr2) /\
    map userptr_memory (requeued tr2) = map heap_buffer (mallocs tr1) /\
    map fst (mallocs tr1) = replicate 4 614400.
Proof.
  do 6 eexists. run_it E1. run_it E2.
  destruct (Start_queues_what_Connect_set_up _ _ _ _ _ _ _ _ E1 E2)
    as (_ & Hu).
  destruct (Hu eq_refl) as (_ & Hm & Hz).
  split; [exact Hm | exact Hz].
Defined.

(** X16: with the method read, an update cycle reads into the buffer
    [InternalConnect] has allocated, and no further: every [read] is made
    on the descriptor [InternalConnect] has opened, into the one block
    [malloc] has returned, for as many bytes as were allocated, [sizeimage]
    of the format the device has answered. *)
Theorem Update_reads_into_the_allocated_buffer
    this w this1 w1 tr1 status this2 w2 tr2 :
  IOMethod this = IO_METHOD_READ ->
  InternalConnect this w = Some (PLUS_SUCCESS, this1, w1, tr1) ->
  InternalUpdate this1 w1 = Some (status, this2, w2, tr2) ->
  forall cl a, In (Sys cl a) tr2 -> is_read cl = true ->
  exists buf rest,
    cl = c_read (FileDescriptor this1) buf
           (sizeimage (pix (RequestedFormat this1))) /\
    mallocs tr1 = [(sizeimage (pix (RequestedFormat this1)), buf)] /\
    acquired tr1 = Descriptor (FileDescriptor this1) :: rest.
Proof.
  intros Hm H1 H2 cl a Hin Hr.
  pose proof (wp_elim _ _ _ _ _ _ _ _ (InternalConnect_buffers this w) H1
                eq_refl) as Hb.
  pose proof (wp_elim _ _ _ _ _ _ _ _ (InternalConnect_resources this w) H1)
    as (_ & Hio & _).
  pose proof (wp_elim _ _ _ _ _ _ _ _ (InternalConnect_descriptor this w) H1
                eq_refl) as (rest & Hd).
  rewrite Hm in *. cbn [buffers_set_up] in Hb. destruct Hb as (Hf & Hz).
  destruct (wp_elim _ _ _ _ _ _ _ _ (InternalUpdate_reads this1 w1) H2
              Hio cl a Hin Hr) as (fb & Hfb & ->).
  destruct (mallocs tr1) as [|[size buf] [|? ?]]; try discriminate Hz.
  injection Hz as ->. rewrite Hf in Hfb. injection Hfb as <-.
  exists buf, rest. auto.
Qed.

Lemma Update_reads_into_the_allocated_buffer_witness :
  exists this1 w1 tr1 this2 w2 tr2,
    InternalConnect (configured IO_METHOD_READ)
      (world (answers_open caps_readwrite ++ answers_read
              ++ [ok 1; ok 614400])) =
      Some (PLUS_SUCCESS, this1, w1, tr1) /\
    InternalUpdate this1 w1 = Some (PLUS_SUCCESS, this2, w2, tr2) /\
    In (Sys (c_read 3 0x2000 614400) (ok 614400)) tr2 /\
    mallocs tr1 = [(614400, 0x2000)].
Proof.
  do 6 eexists. run_it E1. run_it E2.
  assert (Hin : In (Sys (c_read 3 0x2000 614400) (ok 614400))
                  [Sys (c_select 3 2) (ok 1);
                   Sys (c_read 3 0x2000 614400) (ok 614400)])
    by (right; left; reflexivity).
  split; [exact Hin|].
  destruct (Update_reads_into_the_allocated_buffer
              (configured IO_METHOD_READ) _ _ _ _ _ _ _ _
              eq_refl E1 E2 _ _ Hin eq_refl)
    as (buf & rest & Hcl & Hma & _).
  injection Hcl as <-. exact Hma.
Defined.
(** X17: with the method read, [InternalDisconnect] and the acquisition
    step of [InternalUpdate] use [Frames[0]] without looking whether there
    is an array.  On an object that has no frame buffer, as the constructor
    leaves it, [InternalDisconnect] has no defined result, and neither has
    an update cycle in which [select] reports the device ready. *)
Theorem read_method_uses_Frames_unchecked this w :
  IOMethod this = IO_METHOD_READ -> FramesMem this = [] ->
  InternalDisconnect this w = None /\
  (forall a rest,
     script w = a :: rest -> ret a <> -1 -> ret a <> 0 ->
     InternalUpdate this w = None).
Proof.
  intros Hm Hf. split.
  - unfold InternalDisconnect, Frames_at, mbind', gets.
    rewrite Hm, Hf. reflexivity.
  - intros a rest Hs H1 H0.
    unfold InternalUpdate, ReadFrame, select, syscall, Frames_at, mbind', gets.
    rewrite Hs. cbn -[Z.eqb errno_after].
    rewrite (Z.eqb_sym (-1)), (Z.eqb_sym 0).
    apply Z.eqb_neq in H1, H0. rewrite H1, H0.
    cbn -[Z.eqb errno_after]. rewrite Hm, Hf. reflexivity.
Qed.

Lemma read_method_uses_Frames_unchecked_witness :
  IOMethod constructed = IO_METHOD_READ /\
  InternalDisconnect constructed (world [ok 0]) = None /\
  InternalUpdate constructed (world [ok 1; ok 614400]) = None.
Proof.
  split; [reflexivity|].
  destruct (read_method_uses_Frames_unchecked constructed (world [ok 0])
              eq_refl eq_refl) as (Hd & _).
  destruct (read_method_uses_Frames_unchecked constructed
              (world [ok 1; ok 614400]) eq_refl eq_refl) as (_ & Hu).
  split; [exact Hd|].
  apply (Hu (ok 1) [ok 614400]); [reflexivity | cbn; lia | cbn; lia].
Defined.
Lemma ReadFrame_handoffs this w :
  wp ReadFrame (fun status _ _ tr =>
       streaming (IOMethod this) = true ->
       match status with
       | PLUS_SUCCESS => exists b, handoffs tr = turnaround b
       | PLUS_FAIL =>
           (handoffs tr = [] /\ existsb (is_failed VIDIOC_QBUF) tr = false)
           \/ exists b, handoffs tr = [Dequeued b] /\
                        existsb (is_failed VIDIOC_QBUF) tr = true
       end)
    this w.
Proof.
  unfold ReadFrame, ReadFrame_stream, acquire_failed, read.
  wp_run.
  all: try (wp_use find_for_pure; intros _ ? ? ? (-> & -> & ->); wp_run).
  all: intros Hstr; try discriminate Hstr.
  all: events_simpl; trace_simpl; use_tests; cbn [andb orb negb app].
  all: try (left; split; reflexivity).
  all: try (right; eexists; split; reflexivity).
  all: eexists; reflexivity.
Qed.

Lemma InternalUpdate_handoffs this w :
  wp InternalUpdate (fun status _ _ tr =>
       streaming (IOMethod this) = true ->
       match status with
       | PLUS_SUCCESS => exists b, handoffs tr = turnaround b
       | PLUS_FAIL =>
           (handoffs tr = [] /\ existsb (is_failed VIDIOC_QBUF) tr = false)
           \/ exists b, handoffs tr = [Dequeued b] /\
                        existsb (is_failed VIDIOC_QBUF) tr = true
       end)
    this w.
Proof.
  unfold InternalUpdate, select. wp_run.
  3: wp_use ReadFrame_handoffs; intros status ? ? tr Hh; wp_run.
  all: intros Hstr; try specialize (Hh Hstr).
  all: rewrite ?app_nil_r; cbn [app].
  all: try (left; split; reflexivity).
  all: exact Hh.
Qed.

(** X18: with the methods mmap and user pointer, an update cycle takes at
    most one buffer from the kernel.  A cycle that succeeds has taken one
    and given it back.  A cycle that fails has either taken none, or has
    taken one and failed to give it back: when [VIDIOC_QBUF] fails, the
    buffer that was dequeued stays out of the queue of the driver. *)
Theorem Update_takes_one_buffer_at_most this w status this' w' tr :
  streaming (IOMethod this) = true ->
  InternalUpdate this w = Some (status, this', w', tr) ->
  match status with
  | PLUS_SUCCESS => exists b, handoffs tr = turnaround b
  | PLUS_FAIL =>
      (handoffs tr = [] /\ existsb (is_failed VIDIOC_QBUF) tr = false)
      \/ exists b, handoffs tr = [Dequeued b] /\
                   existsb (is_failed VIDIOC_QBUF) tr = true
  end.
Proof.
  intros Hstr H.
  exact (wp_elim _ _ _ _ _ _ _ _ (InternalUpdate_handoffs this w) H Hstr).
Qed.

Lemma Update_takes_one_buffer_at_most_witness :
  exists w' tr,
    InternalUpdate connected_mmap
      (world [ok 1;
              wrote (a_buffer (filled 2 V4L2_MEMORY_MMAP 1228800));
              failed EINVAL]) =
      Some (PLUS_FAIL, connected_mmap, w', tr) /\
    handoffs tr = [Dequeued (filled 2 V4L2_MEMORY_MMAP 1228800)].
Proof.
  do 2 eexists. run_it E.
  destruct (Update_takes_one_buffer_at_most connected_mmap _ _ _ _ _
              eq_refl E) as [[Hn _]|[b [Hb _]]].
  - discriminate Hn.
  - rewrite Hb. injection Hb as <-. reflexivity.
Defined.
Lemma codes_follow_app p t1 t2 :
  codes_follow p (t1 ++ t2) =
  codes_follow p t1 && codes_follow (last_event p t1) t2.
Proof.
  revert p. induction t1 as [|e t1 IH]; intros p; cbn [app codes_follow].
  - reflexivity.
  - rewrite IH, andb_assoc. reflexivity.
Qed.

Lemma codes_follow_answers p fh req arg answers :
  codes_follow p (attempts fh req arg answers) = true.
Proof.
  revert p. induction answers as [|a l IH]; intros p; [reflexivity|].
  cbn. apply IH.
Qed.

Lemma last_event_attempts p fh req arg pre a :
  last_event p (attempts fh req arg (pre ++ [a])) =
  Some (Sys (c_ioctl fh req (pack req arg)) a).
Proof.
  unfold last_event, attempts. rewrite map_app, fold_left_app. reflexivity.
Qed.

Lemma codes_follow_attempts p fh req arg pre a rest :
  codes_follow p (attempts fh req arg (pre ++ [a]) ++ rest) =
  codes_follow (Some (Sys (c_ioctl fh req (pack req arg)) a)) rest.
Proof.
  rewrite codes_follow_app, codes_follow_answers, last_event_attempts.
  reflexivity.
Qed.

Lemma well_coded_app t1 t2 :
  well_coded t1 -> well_coded t2 -> well_coded (t1 ++ t2).
Proof.
  intros H1 H2 p. rewrite codes_follow_app, H1, H2. reflexivity.
Qed.

Lemma well_coded_cons e t :
  (forall what code, e <> Log what (Some code)) -> well_coded t ->
  well_coded (e :: t).
Proof.
  intros He Ht p. cbn [codes_follow]. rewrite Ht.
  destruct e as [| |what [code|]| |]; try reflexivity.
  destruct (He what code eq_refl).
Qed.

Lemma well_coded_attempts fh req arg pre a t :
  well_coded t -> well_coded (attempts fh req arg (pre ++ [a]) ++ t).
Proof. intros Ht p. rewrite codes_follow_attempts. apply Ht. Qed.

(** A failed call leaves its error in [errno], whatever [errno] was. *)
Lemma code_of_failed_call a e :
  (ret a =? -1) = true ->
  (ret a =? -1) && (err a =? errno_after a e) = true.
Proof.
  intros H. rewrite H. unfold errno_after. rewrite H. apply Z.eqb_refl.
Qed.

Ltac codes_simpl :=
  rewrite ?app_nil_r; cbn [app]; rewrite <- ?app_assoc; cbn [app];
  repeat match goal with
  | H : (-1 =? _) = _ |- _ => rewrite Z.eqb_sym in H
  | H : (MAP_FAILED =? _) = _ |- _ => rewrite Z.eqb_sym in H
  end;
  intros prev;
  repeat first
    [ rewrite codes_follow_attempts
    | rewrite codes_follow_answers
    | rewrite code_of_failed_call by assumption
    | progress cbn [codes_follow andb] ].

Lemma ReadFrame_codes this w :
  wp ReadFrame (fun _ _ _ tr => well_coded tr) this w.
Proof.
  unfold ReadFrame, ReadFrame_stream, acquire_failed, read.
  wp_run.
  all: try (wp_use find_for_pure; intros _ ? ? ? (-> & -> & ->); wp_run).
  all: codes_simpl; reflexivity.
Qed.

Lemma InternalUpdate_codes this w :
  wp InternalUpdate (fun _ _ _ tr => well_coded tr) this w.
Proof.
  unfold InternalUpdate, select. wp_run.
  3: wp_use ReadFrame_codes; intros status ? ? tr Hc; wp_run.
  all: codes_simpl; rewrite ?Hc; reflexivity.
Qed.

Lemma codes_follow_run p tr rest :
  well_coded tr ->
  codes_follow p (tr ++ rest) = codes_follow (last_event p tr) rest.
Proof. intros H. rewrite codes_follow_app, H. reflexivity. Qed.

Lemma InitRead_codes size this w :
  wp (InitRead size) (fun _ _ _ tr => well_coded tr) this w.
Proof.
  unfold InitRead, Frames_calloc, Frames_set_length, Frames_set_start, malloc.
  wp_run. all: codes_simpl; reflexivity.
Qed.

Lemma InitMmap_for_codes n : forall this w,
  wp (InitMmap_for n) (fun _ _ _ tr => well_coded tr) this w.
Proof.
  induction n as [|n IH]; intros this w; cbn [InitMmap_for].
  - wp_run. intros p. reflexivity.
  - unfold Frames_set_length, Frames_set_start, mmap. wp_run.
    all: try (wp_use IH; intros _ _ _ tr Hc).
    all: codes_simpl; rewrite ?Hc; reflexivity.
Qed.

Lemma InitMmap_codes this w :
  wp InitMmap (fun _ _ _ tr => well_coded tr) this w.
Proof.
  unfold InitMmap, Frames_calloc. wp_run.
  all: try (wp_use InitMmap_for_codes; intros _ _ _ tr Hc).
  all: codes_simpl; rewrite ?Hc; reflexivity.
Qed.

Lemma InitUserp_codes size this w :
  wp (InitUserp size) (fun _ _ _ tr => well_coded tr) this w.
Proof.
  unfold InitUserp. cbn [InitUserp_for].
  unfold Frames_calloc, Frames_set_length, Frames_set_start, malloc.
  wp_run. all: codes_simpl; reflexivity.
Qed.

Lemma InternalConnect_codes this w :
  wp InternalConnect (fun _ _ _ tr => well_coded tr) this w.
Proof.
  unfold InternalConnect, InternalConnect_built, InternalConnect_crop,
    InternalConnect_format,
    stat, open.
  wp_run.
  all: try (wp_use InitRead_codes; intros _ _ _ tr Hc);
       try (wp_use InitMmap_codes; intros _ _ _ tr Hc);
       try (wp_use InitUserp_codes; intros _ _ _ tr Hc).
  all: codes_simpl; rewrite ?Hc; reflexivity.
Qed.

Lemma munmap_for_codes n : forall i this w,
  wp (munmap_for n i) (fun _ _ _ tr => well_coded tr) this w.
Proof.
  induction n as [|n IH]; intros i this w; cbn [munmap_for].
  - wp_run. intros p. reflexivity.
  - unfold munmap. wp_run.
    2: wp_use (IH (S i)); intros _ _ _ tr Hc.
    all: codes_simpl; rewrite ?Hc; reflexivity.
Qed.

Lemma free_for_codes n : forall i this w,
  wp (free_for n i) (fun _ _ _ tr => well_coded tr) this w.
Proof.
  induction n as [|n IH]; intros i this w; cbn [free_for].
  - wp_run. intros p. reflexivity.
  - wp_run. wp_use (IH (S i)). intros _ _ _ tr Hc.
    codes_simpl. rewrite Hc. reflexivity.
Qed.

Lemma InternalDisconnect_codes this w :
  wp InternalDisconnect (fun _ _ _ tr => well_coded tr) this w.
Proof.
  unfold InternalDisconnect, close. wp_run.
  all: try (wp_use munmap_for_codes; intros status ? ? tr Hc; wp_run);
       try (wp_use free_for_codes; intros ? ? ? tr Hc; wp_run).
  all: codes_simpl; rewrite ?(codes_follow_run _ _ _ Hc), ?Hc.
  all: repeat first
         [ rewrite code_of_failed_call by assumption
         | progress cbn [codes_follow andb] ].
  all: reflexivity.
Qed.

Lemma queue_for_codes n : forall i userp this w,
  wp (queue_for n i userp) (fun _ _ _ tr => well_coded tr) this w.
Proof.
  induction n as [|n IH]; intros i userp this w; cbn [queue_for].
  - wp_run. intros p. reflexivity.
  - wp_run.
    all: try (wp_use (IH (S i)); intros _ _ _ tr Hc).
    all: codes_simpl; rewrite ?Hc; reflexivity.
Qed.

Lemma InternalStartRecording_codes this w :
  wp InternalStartRecording (fun _ _ _ tr => well_coded tr) this w.
Proof.
  unfold InternalStartRecording. wp_run.
  all: try (wp_use queue_for_codes; intros status ? ? tr Hc; wp_run).
  all: codes_simpl; rewrite ?(codes_follow_run _ _ _ Hc), ?Hc.
  all: repeat first
         [ rewrite codes_follow_attempts
         | rewrite codes_follow_answers
         | rewrite code_of_failed_call by assumption
         | progress cbn [codes_follow andb] ].
  all: reflexivity.
Qed.

Lemma InternalStopRecording_codes this w :
  wp InternalStopRecording (fun _ _ _ tr => well_coded tr) this w.
Proof.
  unfold InternalStopRecording. wp_run.
  all: codes_simpl; reflexivity.
Qed.

(** X19: the error codes that are logged are the right ones.  In every run
    of [InternalConnect], [InternalDisconnect], [InternalUpdate],
    [InternalStartRecording] and [InternalStopRecording], each error that is
    logged with a code comes right after a call that has returned -1, with
    no other call or [free] in between, and the code is the [errno] that
    call has set. *)
Theorem logged_code_is_errno_of_failed_call this w status this' w' tr :
  InternalConnect this w = Some (status, this', w', tr) \/
  InternalDisconnect this w = Some (status, this', w', tr) \/
  InternalUpdate this w = Some (status, this', w', tr) \/
  InternalStartRecording this w = Some (status, this', w', tr) \/
  InternalStopRecording this w = Some (status, this', w', tr) ->
  codes_follow None tr = true.
Proof.
  intros [H|[H|[H|[H|H]]]].
  - apply (wp_elim _ _ _ _ _ _ _ _ (InternalConnect_codes this w) H).
  - apply (wp_elim _ _ _ _ _ _ _ _ (InternalDisconnect_codes this w) H).
  - apply (wp_elim _ _ _ _ _ _ _ _ (InternalUpdate_codes this w) H).
  - apply (wp_elim _ _ _ _ _ _ _ _ (InternalStartRecording_codes this w) H).
  - apply (wp_elim _ _ _ _ _ _ _ _ (InternalStopRecording_codes this w) H).
Qed.

Lemma logged_code_is_errno_of_failed_call_witness :
  exists w' tr,
    InternalDisconnect connected_mmap (world answers_munmap_refused) =
      Some (PLUS_FAIL, connected_mmap, w', tr) /\
    In (Log "munmap" (Some EINVAL)) tr /\
    codes_follow None tr = true /\
    codes_follow None
      [Sys (c_munmap 0 0) (failed EINVAL); Log "munmap" (Some EIO)] = false.
Proof.
  do 2 eexists. run_it E.
  split; [vm_compute; tauto|].
  split; [|reflexivity].
  eapply (logged_code_is_errno_of_failed_call connected_mmap
            (world answers_munmap_refused) PLUS_FAIL connected_mmap).
  right. left. exact E.
Defined.
Section SendsOnly.
Variable set : list request.

Lemma sends_only_nil : sends_only set [].
Proof. reflexivity. Qed.

Lemma sends_only_app t1 t2 :
  sends_only set t1 -> sends_only set t2 -> sends_only set (t1 ++ t2).
Proof.
  unfold sends_only, requests. intros H1 H2.
  rewrite omap_app, forallb_app, H1, H2. reflexivity.
Qed.

Lemma sends_only_sys cl a : is_ioctl cl = false -> sends_only set [Sys cl a].
Proof. destruct cl; try discriminate; reflexivity. Qed.

Lemma sends_only_free ptr : sends_only set [Free ptr].
Proof. reflexivity. Qed.

Lemma sends_only_log what code : sends_only set [Log what code].
Proof. reflexivity. Qed.

Lemma sends_only_xioctl fh req arg pre a :
  among set req = true ->
  forallb interrupted pre = true -> interrupted a = false ->
  sends_only set (attempts fh req arg (pre ++ [a])).
Proof.
  intros H _ _. unfold sends_only, requests, attempts.
  induction (pre ++ [a]) as [|x l IH]; [reflexivity|].
  cbn. rewrite H. exact IH.
Qed.
End SendsOnly.

Lemma operations_send_only :
  emits (sends_only [VIDIOC_QUERYCAP; VIDIOC_CROPCAP; VIDIOC_S_CROP;
                     VIDIOC_G_FMT; VIDIOC_S_FMT; VIDIOC_REQBUFS;
                     VIDIOC_QUERYBUF]) InternalConnect
  /\ emits (sends_only []) InternalDisconnect
  /\ emits (sends_only [VIDIOC_DQBUF; VIDIOC_QBUF]) InternalUpdate
  /\ emits (sends_only [VIDIOC_QBUF; VIDIOC_STREAMON]) InternalStartRecording
  /\ emits (sends_only [VIDIOC_STREAMOFF]) InternalStopRecording.
Proof.
  repeat split.
  - apply emits_InternalConnect
      with (allowed := among [VIDIOC_QUERYCAP; VIDIOC_CROPCAP; VIDIOC_S_CROP;
                              VIDIOC_G_FMT; VIDIOC_S_FMT; VIDIOC_REQBUFS;
                              VIDIOC_QUERYBUF]);
      first [ apply sends_only_nil | apply sends_only_app
            | apply sends_only_sys | apply sends_only_free
            | apply sends_only_log | apply sends_only_xioctl | reflexivity ].
  - apply emits_InternalDisconnect;
      first [ apply sends_only_nil | apply sends_only_app
            | apply sends_only_sys | apply sends_only_free
            | apply sends_only_log ].
  - apply emits_InternalUpdate
      with (allowed := among [VIDIOC_DQBUF; VIDIOC_QBUF]);
      first [ apply sends_only_nil | apply sends_only_app
            | apply sends_only_sys | apply sends_only_free
            | apply sends_only_log | apply sends_only_xioctl | reflexivity ].
  - apply emits_InternalStartRecording
      with (allowed := among [VIDIOC_QBUF; VIDIOC_STREAMON]);
      first [ apply sends_only_nil | apply sends_only_app
            | apply sends_only_sys | apply sends_only_free
            | apply sends_only_log | apply sends_only_xioctl | reflexivity ].
  - apply emits_InternalStopRecording
      with (allowed := among [VIDIOC_STREAMOFF]);
      first [ apply sends_only_nil | apply sends_only_app
            | apply sends_only_sys | apply sends_only_free
            | apply sends_only_log | apply sends_only_xioctl | reflexivity ].
Qed.

Lemma sends_only_out set line : sends_only set [Out line].
Proof. reflexivity. Qed.

(** In a build with [_DEBUG], [PrintSelf] adds [VIDIOC_ENUM_FMT]. *)
Lemma debug_Connect_sends_only :
  emits (sends_only [VIDIOC_ENUM_FMT; VIDIOC_QUERYCAP; VIDIOC_CROPCAP;
                     VIDIOC_S_CROP; VIDIOC_G_FMT; VIDIOC_S_FMT;
                     VIDIOC_REQBUFS; VIDIOC_QUERYBUF])
    (InternalConnect_built true).
Proof.
  apply emits_InternalConnect_built
    with (allowed := among [VIDIOC_ENUM_FMT; VIDIOC_QUERYCAP; VIDIOC_CROPCAP;
                            VIDIOC_S_CROP; VIDIOC_G_FMT; VIDIOC_S_FMT;
                            VIDIOC_REQBUFS; VIDIOC_QUERYBUF]);
    first [ apply sends_only_nil | apply sends_only_app
          | apply sends_only_sys | apply sends_only_free
          | apply sends_only_log | apply sends_only_xioctl
          | apply sends_only_out | reflexivity ].
Qed.

(** X20: each operation sends its own requests and no other.
    [InternalConnect] queries and configures the device and asks for
    buffers, and in a build with [_DEBUG] lists the formats
    ([VIDIOC_ENUM_FMT], in [PrintSelf]); in either build it never queues or
    dequeues a buffer and never switches streaming on or off.
    [InternalDisconnect] sends no request at all: it does not switch
    streaming off.  [InternalUpdate] only dequeues and queues,
    [InternalStartRecording] only queues and switches streaming on,
    [InternalStopRecording] only switches it off. *)
Theorem each_operation_sends_its_own_requests this w status this' w' tr :
  (forall _DEBUG,
     InternalConnect_built _DEBUG this w = Some (status, this', w', tr) ->
     sends_only
       ((if _DEBUG then [VIDIOC_ENUM_FMT] else [])
        ++ [VIDIOC_QUERYCAP; VIDIOC_CROPCAP; VIDIOC_S_CROP; VIDIOC_G_FMT;
            VIDIOC_S_FMT; VIDIOC_REQBUFS; VIDIOC_QUERYBUF]) tr) /\
  (InternalDisconnect this w = Some (status, this', w', tr) ->
   requests tr = []) /\
  (InternalUpdate this w = Some (status, this', w', tr) ->
   sends_only [VIDIOC_DQBUF; VIDIOC_QBUF] tr) /\
  (InternalStartRecording this w = Some (status, this', w', tr) ->
   sends_only [VIDIOC_QBUF; VIDIOC_STREAMON] tr) /\
  (InternalStopRecording this w = Some (status, this', w', tr) ->
   sends_only [VIDIOC_STREAMOFF] tr).
Proof.
  destruct operations_send_only as (Hc & Hd & Hu & Hs & Ht).
  split; [|repeat split; intros H].
  - intros [|] H.
    + apply (wp_elim _ _ _ _ _ _ _ _ (debug_Connect_sends_only this w) H).
    + apply (wp_elim _ _ _ _ _ _ _ _ (Hc this w) H).
  - pose proof (wp_elim _ _ _ _ _ _ _ _ (Hd this w) H) as Hn.
    cbn beta in Hn. unfold sends_only in Hn.
    destruct (requests tr); [reflexivity | discriminate Hn].
  - apply (wp_elim _ _ _ _ _ _ _ _ (Hu this w) H).
  - apply (wp_elim _ _ _ _ _ _ _ _ (Hs this w) H).
  - apply (wp_elim _ _ _ _ _ _ _ _ (Ht this w) H).
Qed.

Lemma each_operation_sends_its_own_requests_witness :
  exists this' w' tr,
    InternalConnect_built true (configured IO_METHOD_MMAP)
      (world (answers_open_listing caps_streaming ++ answers_mmap 4)) =
      Some (PLUS_SUCCESS, this', w', tr) /\
    sends_only [VIDIOC_ENUM_FMT; VIDIOC_QUERYCAP; VIDIOC_CROPCAP;
                VIDIOC_S_CROP; VIDIOC_G_FMT; VIDIOC_S_FMT; VIDIOC_REQBUFS;
                VIDIOC_QUERYBUF] tr /\
    existsb is_ENUM_FMT tr = true.
Proof.
  do 3 eexists. run_it E.
  split; [|reflexivity].
  exact (proj1 (each_operation_sends_its_own_requests
                  (configured IO_METHOD_MMAP) _ _ _ _ _) true E).
Defined.

Lemma set_FrameNumber_twice n m this :
  set_FrameNumber n (set_FrameNumber m this) = set_FrameNumber n this.
Proof. reflexivity. Qed.

Lemma set_FrameNumber_same this :
  set_FrameNumber (FrameNumber this) this = this.
Proof. destruct this. reflexivity. Qed.

Lemma unsigned_long_add n m :
  unsigned_long (unsigned_long n + m) = unsigned_long (n + m).
Proof. unfold unsigned_long. apply N.Div0.add_mod_idemp_l. Qed.

Lemma unsigned_long_small n : (n <= ULONG_MAX)%N -> unsigned_long n = n.
Proof.
  intros H. unfold unsigned_long. apply N.mod_small.
  unfold ULONG_MAX in *. lia.
Qed.

Lemma unsigned_long_bound n : (unsigned_long n <= ULONG_MAX)%N.
Proof.
  unfold unsigned_long.
  pose proof (N.mod_upper_bound n (ULONG_MAX + 1)) as H.
  unfold ULONG_MAX in *. lia.
Qed.

(** X21: over any number of update cycles in a row, [FrameNumber] counts
    the cycles that have succeeded, as an [unsigned long] does: it is what
    it was plus the number of successes, modulo [ULONG_MAX + 1]; and the
    cycles change nothing else of the object. *)
Theorem FrameNumber_counts_the_successes k : forall this w statuses this' w' tr,
  (FrameNumber this <= ULONG_MAX)%N ->
  cycles k this w = Some (statuses, this', w', tr) ->
  List.length statuses = k /\
  this' =
    set_FrameNumber
      ((FrameNumber this
        + N.of_nat (List.length (List.filter succeeded statuses)))
       mod (ULONG_MAX + 1))
      this.
Proof.
  change (forall this w statuses this' w' tr,
    (FrameNumber this <= ULONG_MAX)%N ->
    cycles k this w = Some (statuses, this', w', tr) ->
    List.length statuses = k /\
    this' =
      set_FrameNumber
        (unsigned_long
           (FrameNumber this
            + N.of_nat (List.length (List.filter succeeded statuses))))
        this).
  induction k as [|k IH]; intros this w statuses this' w' tr Hn H.
  - injection H as <- <- <- <-. split; [reflexivity|].
    cbn [List.filter List.length N.of_nat].
    rewrite N.add_0_r, (unsigned_long_small _ Hn), set_FrameNumber_same.
    reflexivity.
  - cbn [cycles] in H.
    apply mbind_Some in H as (s & this1 & w1 & tr1 & tr2 & H1 & H & ->).
    apply mbind_Some in H as (ss & this2 & w2 & tr3 & tr4 & H2 & H & ->).
    injection H as <- <- <- <-.
    apply InternalUpdate_run in H1 as (-> & _).
    destruct s.
    + apply IH in H2 as (Hl & ->); [|exact Hn].
      split; [cbn; rewrite Hl; reflexivity|reflexivity].
    + apply IH in H2 as (Hl & ->); [|apply unsigned_long_bound].
      split; [cbn; rewrite Hl; reflexivity|].
      cbn [List.filter succeeded List.length].
      rewrite set_FrameNumber_twice. cbn [FrameNumber set_FrameNumber].
      rewrite unsigned_long_add. f_equal. f_equal. lia.
Qed.

Lemma FrameNumber_counts_the_successes_witness :
  exists this' w' tr,
    cycles 3 (set_FrameNumber ULONG_MAX connected_mmap)
      (world (answers_frame 0 ++ [ok 0] ++ answers_frame 1)) =
      Some ([PLUS_SUCCESS; PLUS_FAIL; PLUS_SUCCESS], this', w', tr) /\
    FrameNumber this' = 1%N.
Proof.
  do 3 eexists. run_it E.
  destruct (FrameNumber_counts_the_successes 3
              (set_FrameNumber ULONG_MAX connected_mmap) _ _ _ _ _
              ltac:(vm_compute; discriminate) E) as (_ & ->).
  vm_compute. reflexivity.
Defined.
